(** * mohyung: a content-addressed snapshot of a dependency tree

    A shallow embedding of the packaging engine (scanner, store, packer,
    extractor, status) and the properties of its specification.

    Conventions of the embedding.
    - A [Buffer] is a [list byte]; a JavaScript string is a [string]; a
      JavaScript number that counts or sizes something is a [nat], one that
      carries bits (mode, mtime) is a [Z].
    - node:crypto, node:zlib, [JSON.parse] and SQLite are not code of this
      repository: what the program needs of them and the tables do not
      show are the fields of the class [Platform].
    - The file system that the scanner walks is a finite tree ([node]);
      code that only probes paths (pack's reads, status) sees the file
      system through the functions of [FsView].
    - A SQL table is the list of its rows in rowid order; the constraints
      of the schema are enforced by the statements, as in SQLite, and are
      proved as invariants.
    - Progress callbacks and logging are purely observational and are
      left out. *)

From Stdlib Require Import ZArith Lia QArith Qround Qabs.
From Stdlib.Strings Require Import Byte Ascii.
From stdpp Require Import base option list strings gmap pretty.

Set Warnings "-register-all".

#[global] Instance byte_eq_dec : EqDecision byte := Byte.byte_eq_dec.

Close Scope Q_scope.
Open Scope Z_scope.
Open Scope nat_scope.

(** ** Errors and results *)

Inductive error :=
| ENOTDIR (path : string)        (* readdir on something that is not a directory *)
| ENOENT (path : string)         (* the path does not exist *)
| EREAD (path : string)          (* readFileSync threw *)
| ZlibError                      (* gunzipSync threw *)
| BindError                      (* a statement parameter that cannot be bound or stored *)
| SourceNotFound (path : string) (* pack: node_modules not found *)
| DatabaseNotFound (path : string).

Inductive result (A : Type) :=
| Ok (a : A)
| Err (e : error).
Arguments Ok {A} a.
Arguments Err {A} e.

#[global] Instance result_ret : MRet result := λ A a, Ok a.

#[global] Instance result_bind : MBind result := λ A B k r,
  match r with
  | Ok a => k a
  | Err e => Err e
  end.

(** ** JSON values, as far as [parsePackageJson] observes them *)

Inductive json :=
| JNull
| JBool (b : bool)
| JNumber (n : Z)
| JString (s : string)
| JArray (items : list json)
| JObject (members : list (string * json)).

(** ** The platform: hashing, gzip, the JSON parser and SQLite *)

Class Platform := {
  (** [createHash('sha256').update(data).digest('hex')] *)
  sha256_hex : list byte → string;
  (** [gzipSync(data, { level })] *)
  gzipSync : list byte → Z → list byte;
  (** [gunzipSync(data)]; [None] when it throws *)
  gunzipSync : list byte → option (list byte);
  (** [JSON.parse(text)]; [None] when it throws *)
  JSON_parse : string → option json;
  (** The text that a column of TEXT affinity stores for a JavaScript
      number: better-sqlite3 binds it as a float64 and SQLite renders it
      with up to 15 significant digits ([5] is stored as the text [5.0]). *)
  number_text : Z → string;
  (** How far the largest id that the table [table] has handed out lies
      above the ids [ids] of its rows. [sqlite_sequence] keeps that
      largest id, and an insert that ends in its conflict clause takes an
      id without using it; the four tables do not show it. While the ids
      of a table are [ids] it receives at most one new row, so a function
      of [ids] can stand for what [sqlite_sequence] holds at that moment. *)
  autoincrement_gap : string → list nat → nat;
}.

(** ** Paths (node:path, POSIX)

    [join] here drops the empty parts and puts a separator between the
    others. node's [join] also normalises the result (segments [.] and
    [..], doubled and trailing separators). The program joins a resolved
    path with names of directory entries and with paths that it built in
    that way, on which the normalisation changes nothing; on other
    arguments this [join] is not node's. *)

Definition join (parts : list string) : string :=
  match filter (λ s, s ≠ "") parts with
  | [] => "."
  | ps => String.concat "/" ps
  end.

Fixpoint strip_prefix (p s : string) : option string :=
  match p, s with
  | "", _ => Some s
  | String a p', String b s' => if decide (a = b) then strip_prefix p' s' else None
  | _, _ => None
  end.

Definition startsWith (s p : string) : bool := bool_decide (is_Some (strip_prefix p s)).

(** [relative(from, to)] for [to] at or below [from], which is how [walkDir]
    calls it; for any other [to] the embedding returns [to] unchanged. *)
Definition relative (from to : string) : string :=
  if decide (from = to) then ""
  else match strip_prefix (from +:+ "/") to with
       | Some rest => rest
       | None => to
       end.

(** The components of a path: the maximal runs of characters other than
    the separator. *)
Fixpoint segments_from (cur : string) (s : string) : list string :=
  match s with
  | "" => if decide (cur = "") then [] else [cur]
  | String c s' =>
      if decide (c = "/"%char)
      then (if decide (cur = "") then [] else [cur]) ++ segments_from "" s'
      else segments_from (cur +:+ String c "") s'
  end.

Definition segments (s : string) : list string := segments_from "" s.

Fixpoint strip_segments (p l : list string) : option (list string) :=
  match p, l with
  | [], _ => Some l
  | a :: p', b :: l' => if decide (a = b) then strip_segments p' l' else None
  | _, _ => None
  end.

(** ** The file system as a tree *)

Inductive node :=
| File (content : list byte) (mode : Z) (mtimeMs : Z)
| Dir (entries : list (string * node))
| Symlink (target : option node).

(** [Dirent.isDirectory()] and [Dirent.isFile()] do not follow links. *)
Definition isDirectory (n : node) : bool :=
  match n with Dir _ => true | _ => false end.

Definition isFile (n : node) : bool :=
  match n with File _ _ _ => true | _ => false end.

(** Path-based calls ([existsSync], [readdir], [readFile], [stat]) do. *)
Fixpoint follow (n : node) : option node :=
  match n with
  | Symlink (Some t) => follow t
  | Symlink None => None
  | _ => Some n
  end.

Definition lookup_entry (name : string) (entries : list (string * node)) : option node :=
  snd <$> find (λ e, bool_decide (e.1 = name)) entries.

Definition readdir (path : string) (n : option node) : result (list (string * node)) :=
  match n with
  | None => Err (ENOENT path)
  | Some n =>
      match follow n with
      | Some (Dir entries) => Ok entries
      | Some _ => Err (ENOTDIR path)
      | None => Err (ENOENT path)
      end
  end.

(** The child [name] of the directory that [n] is (or links to). *)
Definition child (n : node) (name : string) : option node :=
  match follow n with
  | Some (Dir entries) => lookup_entry name entries
  | _ => None
  end.

Fixpoint resolve (n : node) (ps : list string) : option node :=
  match ps with
  | [] => follow n
  | p :: ps' =>
      match child n p with
      | Some c => resolve c ps'
      | None => None
      end
  end.

(** The node at [path], for a tree mounted at [mount]. *)
Definition node_at (mount : string) (root : node) (path : string) : option node :=
  match strip_segments (segments mount) (segments path) with
  | Some rest => resolve root rest
  | None => None
  end.

(** What code that probes paths can observe. *)
Record FsView := {
  existsSync : string → bool;
  readFile : string → option (list byte);   (* [None]: the read throws *)
}.

Definition tree_view (mount : string) (root : node) : FsView := {|
  existsSync path := bool_decide (is_Some (node_at mount root path));
  readFile path :=
    match node_at mount root path with
    | Some (File content _ _) => Some content
    | _ => None
    end;
|}.

(** ** Scanner (core/scanner.ts) *)

(** *** Manifests *)

(** [Some true]: truthy, as [||] tests it. *)
Definition truthy (v : json) : bool :=
  match v with
  | JNull => false
  | JBool b => b
  | JNumber n => negb (n =? 0)%Z
  | JString s => negb (bool_decide (s = ""))
  | JArray _ | JObject _ => true
  end.

(** [v.key] for the keys [name] and [version]: [None] stands for the
    TypeError of a property access on [null], [Some None] for
    [undefined]. *)
Definition get_property (v : json) (key : string) : option (option json) :=
  match v with
  | JNull => None
  | JObject members => Some (snd <$> find (λ m, bool_decide (m.1 = key)) members)
  | _ => Some None
  end.

(** [v || fallback] *)
Definition or_else (v : option json) (fallback : string) : json :=
  match v with
  | Some x => if truthy x then x else JString fallback
  | None => JString fallback
  end.

(** [readFile(path, 'utf8')] on the node found at [path]; the text is kept
    as the bytes of its UTF-8 encoding. *)
Definition readFile_utf8 (n : option node) : option string :=
  match n ≫= follow with
  | Some (File content _ _) => Some (String.string_of_list_byte content)
  | _ => None
  end.

(** [parsePackageJson(pkgJsonPath)], given the node at [pkgJsonPath]:
    every exception of the body is caught and yields [null]. *)
Definition parsePackageJson `{Platform} (manifest : option node) : option (json * json) :=
  content ← readFile_utf8 manifest;
  pkg ← JSON_parse content;
  name ← get_property pkg "name";
  version ← get_property pkg "version";
  Some (or_else name "unknown", or_else version "0.0.0").

(** *** Layout detection *)

(** [existsSync(join(nodeModulesPath, '.pnpm'))] *)
Definition isPnpmStructure (root : node) : bool :=
  bool_decide (is_Some (resolve root [".pnpm"])).

(** *** Walking a package *)

Module FileEntry.
Record t := mk {
  relativePath : string;
  absolutePath : string;
  mode : Z;
  size : nat;
  mtime : Z;
}.
End FileEntry.

(** One turn of the loop of [walkDir(dir, baseDir)], for the entry
    [name] of [dir]. *)
Fixpoint walkEntry (dir baseDir name : string) (n : node) {struct n} : list FileEntry.t :=
  let fullPath := join [dir; name] in
  match n with
  | Dir entries => flat_map (λ '(nm, c), walkEntry fullPath baseDir nm c) entries
  | File content mode mtimeMs =>
      [ {| FileEntry.relativePath := relative baseDir fullPath;
           FileEntry.absolutePath := fullPath;
           FileEntry.mode := mode;
           FileEntry.size := length content;
           FileEntry.mtime := mtimeMs |} ]
  | Symlink _ => []
  end.

(** [walkDir(dir, baseDir)], given the listing of [dir]. *)
Definition walkDir (entries : list (string * node)) (dir baseDir : string) : list FileEntry.t :=
  flat_map (λ '(nm, c), walkEntry dir baseDir nm c) entries.

(** *** Package directories *)

(** What [findPackageDirs] and [findPnpmPackageDirs] yield; [entries] is
    the listing of the directory at [path]. *)
Module PackageDir.
Record t := mk {
  path : string;
  relativePath : string;
  entries : list (string * node);
}.
End PackageDir.

(** The children of a scope directory [@scope] that are directories. *)
Definition scopedDirs (fullPath : string) (relativePrefix : string)
    (scopedEntries : list (string * node)) (joinRel : string → string → string)
    : list PackageDir.t :=
  flat_map (λ '(scopedName, scopedNode),
    match scopedNode with
    | Dir children =>
        [ {| PackageDir.path := join [fullPath; scopedName];
             PackageDir.relativePath := joinRel relativePrefix scopedName;
             PackageDir.entries := children |} ]
    | _ => []
    end) scopedEntries.

Definition findPackageDirs (nodeModulesPath : string) (root : node) : result (list PackageDir.t) :=
  entries ← readdir nodeModulesPath (Some root);
  Ok (flat_map (λ '(name, n),
    match n with
    | Dir children =>
        if bool_decide (name = ".bin" ∨ name = ".cache" ∨ name = ".pnpm") then []
        else
          let fullPath := join [nodeModulesPath; name] in
          if startsWith name "@"
          then scopedDirs fullPath name children (λ a b, join [a; b])
          else [ {| PackageDir.path := fullPath;
                    PackageDir.relativePath := name;
                    PackageDir.entries := children |} ]
    | _ => []
    end) entries).

(** The packages of one [.pnpm/<entry>/node_modules]. *)
Definition innerPackageDirs (entryName innerNodeModules : string)
    (innerEntries : list (string * node)) : list PackageDir.t :=
  flat_map (λ '(innerName, innerNode),
    match innerNode with
    | Dir children =>
        if bool_decide (innerName = ".bin") then []
        else
          let pkgPath := join [innerNodeModules; innerName] in
          let rel := ".pnpm/" +:+ entryName +:+ "/node_modules/" +:+ innerName in
          if startsWith innerName "@"
          then scopedDirs pkgPath rel children (λ a b, a +:+ "/" +:+ b)
          else [ {| PackageDir.path := pkgPath;
                    PackageDir.relativePath := rel;
                    PackageDir.entries := children |} ]
    | _ => []
    end) innerEntries.

(** The body of the loop of [findPnpmPackageDirs], for the entry [name]
    of [.pnpm]. *)
Definition pnpmEntry (pnpmPath name : string) (n : node) : result (list PackageDir.t) :=
  match n with
  | Dir _ =>
      if bool_decide (name = "node_modules") || startsWith name "." then Ok []
      else
        let fullPath := join [pnpmPath; name] in
        let innerNodeModules := join [fullPath; "node_modules"] in
        if bool_decide (is_Some (resolve n ["node_modules"])) then
          innerEntries ← readdir innerNodeModules (child n "node_modules");
          Ok (innerPackageDirs name innerNodeModules innerEntries)
        else Ok []
  | _ => Ok []
  end.

(** The loop over the listing of [.pnpm]; a [readdir] that throws ends
    the iteration. *)
Fixpoint pnpmEntries (pnpmPath : string) (entries : list (string * node))
    : result (list PackageDir.t) :=
  match entries with
  | [] => Ok []
  | (name, n) :: rest =>
      found ← pnpmEntry pnpmPath name n;
      more ← pnpmEntries pnpmPath rest;
      Ok (found ++ more)
  end.

Definition findPnpmPackageDirs (nodeModulesPath : string) (root : node) : result (list PackageDir.t) :=
  let pnpmPath := join [nodeModulesPath; ".pnpm"] in
  entries ← readdir pnpmPath (child root ".pnpm");
  pnpmEntries pnpmPath entries.

(** *** scanNodeModules *)

(** [PackageInfo & { files: FileEntry[] }]. [name] and [version] are the
    values that [parsePackageJson] returned, whatever their run-time type. *)
Module ScannedPackage.
Record t := mk {
  name : json;
  version : json;
  path : string;
  files : list FileEntry.t;
}.
End ScannedPackage.

Module ScanResult.
Record t := mk {
  packages : list ScannedPackage.t;
  totalFiles : nat;
  totalSize : nat;
}.
End ScanResult.

(** The local variables of [scanPackages]. *)
Record ScanState := {
  sc_packages : list ScannedPackage.t;
  sc_totalFiles : nat;
  sc_totalSize : nat;
  sc_packageCount : nat;
}.

(** The inner loop: [files.push(file); totalFiles++; totalSize += file.size]. *)
Definition scanFiles (walked : list FileEntry.t) (totalFiles totalSize : nat)
    : list FileEntry.t * nat * nat :=
  fold_left (λ '(files, tf, ts) file, (files ++ [file], S tf, ts + FileEntry.size file))
    walked ([], totalFiles, totalSize).

Definition scanPackage `{Platform} (st : ScanState) (d : PackageDir.t) : ScanState :=
  let packageCount := S (sc_packageCount st) in
  let pkgPath := PackageDir.path d in
  match parsePackageJson (lookup_entry "package.json" (PackageDir.entries d)) with
  | None =>
      {| sc_packages := sc_packages st; sc_totalFiles := sc_totalFiles st;
         sc_totalSize := sc_totalSize st; sc_packageCount := packageCount |}
  | Some (name, version) =>
      let '(files, totalFiles, totalSize) :=
        scanFiles (walkDir (PackageDir.entries d) pkgPath pkgPath)
          (sc_totalFiles st) (sc_totalSize st) in
      {| sc_packages := sc_packages st ++
           [ {| ScannedPackage.name := name; ScannedPackage.version := version;
                ScannedPackage.path := PackageDir.relativePath d;
                ScannedPackage.files := files |} ];
         sc_totalFiles := totalFiles; sc_totalSize := totalSize;
         sc_packageCount := packageCount |}
  end.

Definition scanPackages `{Platform} (packageDirs : list PackageDir.t) : ScanResult.t :=
  let st := fold_left scanPackage packageDirs
    {| sc_packages := []; sc_totalFiles := 0; sc_totalSize := 0; sc_packageCount := 0 |} in
  {| ScanResult.packages := sc_packages st;
     ScanResult.totalFiles := sc_totalFiles st;
     ScanResult.totalSize := sc_totalSize st |}.

Definition scanNodeModules `{Platform} (nodeModulesPath : string) (root : node)
    : result ScanResult.t :=
  let usePnpm := isPnpmStructure root in
  packageDirs ←
    (if usePnpm then findPnpmPackageDirs nodeModulesPath root
     else findPackageDirs nodeModulesPath root);
  Ok (scanPackages packageDirs).

(** *** countFiles *)

(** What one entry adds to [count] in the loop of [countDir]. *)
Fixpoint countEntry (n : node) : nat :=
  match n with
  | Dir entries => fold_left (λ count '(_, c), count + countEntry c) entries 0
  | File _ _ _ => 1
  | Symlink _ => 0
  end.

(** [countDir(dir)], given the listing of [dir]. *)
Definition countDir (entries : list (string * node)) : nat :=
  fold_left (λ count '(_, c), count + countEntry c) entries 0.

(** [countFiles(nodeModulesPath)] *)
Definition countFiles (nodeModulesPath : string) (root : node) : result nat :=
  entries ← readdir nodeModulesPath (Some root);
  Ok (countDir entries).

(** *** The packages of a tree, read off the tree

    What section 4.4 of the specification calls a package directory, and
    the regular files inside one, as properties of the tree alone. *)

(** The regular file that the names [fp] lead to from [n], through
    directories and not through links. *)
Fixpoint plain_file (n : node) (fp : list string) : option node :=
  match fp, n with
  | [], File _ _ _ => Some n
  | name :: fp', Dir entries => lookup_entry name entries ≫= λ c, plain_file c fp'
  | _, _ => None
  end.

(** The directories whose children are packages, each with the names
    that lead to it from the root and the names that are skipped in it:
    the root in the flat layout, every [.pnpm/<entry>/node_modules] in
    the symlink-farm layout. *)
Inductive package_bearing (root : node)
    : list string → list (string * node) → list string → Prop :=
| bearing_flat entries :
    isPnpmStructure root = false →
    follow root = Some (Dir entries) →
    package_bearing root [] entries [".bin"; ".cache"; ".pnpm"]
| bearing_pnpm farm farmEntries entry entryEntries modules innerEntries :
    child root ".pnpm" = Some farm → follow farm = Some (Dir farmEntries) →
    (entry, Dir entryEntries) ∈ farmEntries →
    entry ≠ "node_modules" → startsWith entry "." = false →
    ("node_modules", modules) ∈ entryEntries → follow modules = Some (Dir innerEntries) →
    package_bearing root [".pnpm"; entry; "node_modules"] innerEntries [".bin"].

(** [dp] leads from the root to a package directory with the listing
    [children]: a child directory of a package-bearing directory, or, when
    that child is a scope [@...], a child directory of the scope. *)
Inductive package_dir (root : node) : list string → list (string * node) → Prop :=
| package_plain pre entries skip name children :
    package_bearing root pre entries skip →
    (name, Dir children) ∈ entries → name ∉ skip → startsWith name "@" = false →
    package_dir root (pre ++ [name]) children
| package_scoped pre entries skip scope members name children :
    package_bearing root pre entries skip →
    (scope, Dir members) ∈ entries → scope ∉ skip → startsWith scope "@" = true →
    (name, Dir children) ∈ members →
    package_dir root (pre ++ [scope; name]) children.

(** ** Hasher (core/hasher.ts) and compression (utils/compression.ts) *)

Definition hashBuffer `{Platform} (data : list byte) : string := sha256_hex data.

(** [hashString(data)]: the digest of the UTF-8 encoding of [data]. *)
Definition hashString `{Platform} (data : string) : string :=
  sha256_hex (String.list_byte_of_string data).

Definition compress `{Platform} (data : list byte) (level : Z) : list byte := gzipSync data level.

Definition decompress `{Platform} (data : list byte) : option (list byte) := gunzipSync data.

(** ** Store (core/store.ts) *)

Module PackageInfo.
Record t := mk {
  name : string;
  version : string;
  path : string;
}.
End PackageInfo.

Module BlobInfo.
Record t := mk {
  hash : string;
  content : list byte;
  originalSize : nat;
  compressedSize : nat;
}.
End BlobInfo.

Module FileRecord.
Record t := mk {
  packageId : nat;
  relativePath : string;
  blobHash : string;
  mode : Z;
  mtime : Z;
}.
End FileRecord.

(** A row of [getAllFiles()]: [FileRecord & { packagePath }], with its id. *)
Module FileRow.
Record t := mk {
  id : nat;
  packageId : nat;
  relativePath : string;
  blobHash : string;
  mode : Z;
  mtime : Z;
  packagePath : string;
}.
End FileRow.

#[global] Instance PackageInfo_eq_dec : EqDecision PackageInfo.t.
Proof. solve_decision. Defined.

(** The four tables. [packages] and [files] pair each row with its
    [id INTEGER PRIMARY KEY AUTOINCREMENT]. *)
Record Store := {
  metadata : list (string * string);
  packages : list (nat * PackageInfo.t);
  blobs : list BlobInfo.t;
  files : list (nat * FileRecord.t);
}.

(** The next AUTOINCREMENT id of [table]: one more than the largest id
    that the table has handed out, which is the largest id of its rows
    (no statement of the program deletes a row) plus the gap that
    [sqlite_sequence] remembers. *)
Definition next_id `{Platform} {A} (table : string) (rows : list (nat * A)) : nat :=
  S (max_list (fst <$> rows) + autoincrement_gap table (fst <$> rows)).

(** [INSERT OR REPLACE INTO metadata (key, value) VALUES (?, ?)] *)
Definition setMetadata (key value : string) (db : Store) : Store :=
  {| metadata := filter (λ kv, kv.1 ≠ key) (metadata db) ++ [(key, value)];
     packages := packages db; blobs := blobs db; files := files db |}.

(** [SELECT value FROM metadata WHERE key = ?] *)
Definition getMetadata (key : string) (db : Store) : option string :=
  snd <$> find (λ kv, bool_decide (kv.1 = key)) (metadata db).

Definition SCHEMA_VERSION : string := "1".

(** [initSchema()]: [CREATE TABLE IF NOT EXISTS ...], then the version. *)
Definition initSchema (db : Store) : Store := setMetadata "schema_version" SCHEMA_VERSION db.

(** [new Store(dbPath)] on a path where no database exists. *)
Definition Store_new : Store :=
  initSchema {| metadata := []; packages := []; blobs := []; files := [] |}.

(** [INSERT INTO packages (name, version, path) VALUES (?, ?, ?)
     ON CONFLICT(name, version, path) DO UPDATE SET name = name
     RETURNING id] *)
Definition insertPackage `{Platform} (pkg : PackageInfo.t) (db : Store) : nat * Store :=
  match find (λ row, bool_decide (row.2 = pkg)) (packages db) with
  | Some row => (row.1, db)
  | None =>
      let id := next_id "packages" (packages db) in
      (id, {| metadata := metadata db; packages := packages db ++ [(id, pkg)];
              blobs := blobs db; files := files db |})
  end.

(** [SELECT * FROM packages WHERE id = ?] *)
Definition getPackageById (id : nat) (db : Store) : option PackageInfo.t :=
  snd <$> find (λ row, bool_decide (row.1 = id)) (packages db).

(** [SELECT * FROM packages]: every row, with its id. *)
Definition getAllPackages (db : Store) : list (nat * PackageInfo.t) := packages db.

(** [SELECT 1 FROM blobs WHERE hash = ?] *)
Definition hasBlob (hash : string) (db : Store) : bool :=
  bool_decide (Exists (λ b, BlobInfo.hash b = hash) (blobs db)).

(** [INSERT OR IGNORE INTO blobs (hash, content, original_size, compressed_size)
     VALUES (?, ?, ?, ?)] *)
Definition insertBlob (blob : BlobInfo.t) (db : Store) : Store :=
  if hasBlob (BlobInfo.hash blob) db then db
  else {| metadata := metadata db; packages := packages db;
          blobs := blobs db ++ [blob]; files := files db |}.

(** [prepareInsertBlob()] compiles the statement of [insertBlob]. *)
Definition prepareInsertBlob : BlobInfo.t → Store → Store := insertBlob.

(** [SELECT content FROM blobs WHERE hash = ?] *)
Definition getBlob (hash : string) (db : Store) : option (list byte) :=
  BlobInfo.content <$> find (λ b, bool_decide (BlobInfo.hash b = hash)) (blobs db).

(** [SELECT COUNT( * ), COALESCE(SUM(original_size), 0),
     COALESCE(SUM(compressed_size), 0) FROM blobs] *)
Definition getBlobStats (db : Store) : nat * nat * nat :=
  (length (blobs db),
   sum_list (BlobInfo.originalSize <$> blobs db),
   sum_list (BlobInfo.compressedSize <$> blobs db)).

Definition same_file_key (a b : FileRecord.t) : bool :=
  bool_decide (FileRecord.packageId a = FileRecord.packageId b
               ∧ FileRecord.relativePath a = FileRecord.relativePath b).

(** [INSERT INTO files (package_id, relative_path, blob_hash, mode, mtime)
     VALUES (?, ?, ?, ?, ?)
     ON CONFLICT(package_id, relative_path) DO UPDATE SET
       blob_hash = excluded.blob_hash, mode = excluded.mode,
       mtime = excluded.mtime]:
    the row in conflict keeps its id. *)
Definition insertFile `{Platform} (file : FileRecord.t) (db : Store) : Store :=
  let rows :=
    if bool_decide (Exists (λ row, same_file_key row.2 file) (files db))
    then (λ row, if same_file_key row.2 file then (row.1, file) else row) <$> files db
    else files db ++ [(next_id "files" (files db), file)] in
  {| metadata := metadata db; packages := packages db; blobs := blobs db; files := rows |}.

(** [prepareInsertFile()] compiles the statement of [insertFile]. *)
Definition prepareInsertFile `{Platform} : FileRecord.t → Store → Store := insertFile.

(** [SELECT id, package_id, relative_path, blob_hash, mode, mtime
     FROM files WHERE package_id = ?] *)
Definition getFilesByPackage (packageId : nat) (db : Store) : list (nat * FileRecord.t) :=
  filter (λ row, FileRecord.packageId row.2 = packageId) (files db).

(** [SELECT f.id, f.package_id, f.relative_path, f.blob_hash, f.mode,
     f.mtime, p.path as package_path
     FROM files f JOIN packages p ON f.package_id = p.id] *)
Definition getAllFiles (db : Store) : list FileRow.t :=
  flat_map (λ f,
    (λ p, {| FileRow.id := f.1;
             FileRow.packageId := FileRecord.packageId f.2;
             FileRow.relativePath := FileRecord.relativePath f.2;
             FileRow.blobHash := FileRecord.blobHash f.2;
             FileRow.mode := FileRecord.mode f.2;
             FileRow.mtime := FileRecord.mtime f.2;
             FileRow.packagePath := PackageInfo.path p.2 |})
    <$> filter (λ p, p.1 = FileRecord.packageId f.2) (packages db))
  (files db).

(** [SELECT COUNT( * ) as count FROM files] *)
Definition getTotalFileCount (db : Store) : nat := length (files db).

(** [transaction(fn)]: the writes of [fn] are kept when it returns and
    undone when it throws. *)
Definition transaction {A} (fn : Store → result (A * Store)) (db : Store) : result (A * Store) :=
  fn db.

(** ** Loops that may throw *)

Fixpoint foldlM {A B} (f : B → A → result B) (l : list A) (b : B) : result B :=
  match l with
  | [] => Ok b
  | a :: l' => b' ← f b a; foldlM f l' b'
  end.

(** ** Packer (commands/pack.ts) *)

Module PackOptions.
Record t := mk {
  output : string;
  source : string;           (* already absolute: [resolve] is the identity *)
  compressionLevel : Z;
  includeLockfile : bool;
}.
End PackOptions.

(** What pack reads from its surroundings. *)
Record PackEnv := {
  env_tree : option node;        (* what lies at [source], if anything *)
  env_now : string;              (* [new Date().toISOString()] *)
  env_version : string;          (* [process.version] *)
  env_lockfile : option string;  (* the text of [<source>/../package-lock.json], if it exists *)
}.

(** The local variables of [packFiles], and the store inside the
    transaction. *)
Record PackState := {
  pk_store : Store;
  pk_processedFiles : nat;
  pk_deduplicatedCount : nat;
}.

(** What the TEXT columns [name] and [version] store for the value that
    the scan took from the manifest. better-sqlite3 binds a string as it
    is and a number as a float64, which the column keeps as text; it
    throws a TypeError on a boolean, an array or an object, and [null] is
    rejected by NOT NULL. *)
Definition bind_text `{Platform} (v : json) : result string :=
  match v with
  | JString s => Ok s
  | JNumber n => Ok (number_text n)
  | JNull | JBool _ | JArray _ | JObject _ => Err BindError
  end.

(** The body of [for (const file of pkg.files)]. *)
Definition packFile `{Platform} (readFileSync : string → option (list byte))
    (compressionLevel : Z) (packageId : nat) (st : PackState) (file : FileEntry.t)
    : result PackState :=
  match readFileSync (FileEntry.absolutePath file) with
  | None => Err (EREAD (FileEntry.absolutePath file))
  | Some content =>
      let hash := hashBuffer content in
      let '(db, deduplicatedCount) :=
        if negb (hasBlob hash (pk_store st)) then
          let compressed := compress content compressionLevel in
          (prepareInsertBlob
             {| BlobInfo.hash := hash; BlobInfo.content := compressed;
                BlobInfo.originalSize := length content;
                BlobInfo.compressedSize := length compressed |} (pk_store st),
           pk_deduplicatedCount st)
        else (pk_store st, S (pk_deduplicatedCount st)) in
      Ok {| pk_store :=
              prepareInsertFile
                {| FileRecord.packageId := packageId;
                   FileRecord.relativePath := FileEntry.relativePath file;
                   FileRecord.blobHash := hash;
                   FileRecord.mode := FileEntry.mode file;
                   FileRecord.mtime := FileEntry.mtime file |} db;
            pk_processedFiles := S (pk_processedFiles st);
            pk_deduplicatedCount := deduplicatedCount |}
  end.

(** The body of [for (const pkg of scanResult.packages)]. *)
Definition packPackage `{Platform} (readFileSync : string → option (list byte))
    (compressionLevel : Z) (st : PackState) (pkg : ScannedPackage.t) : result PackState :=
  name ← bind_text (ScannedPackage.name pkg);
  version ← bind_text (ScannedPackage.version pkg);
  let '(packageId, db) :=
    insertPackage
      {| PackageInfo.name := name; PackageInfo.version := version;
         PackageInfo.path := ScannedPackage.path pkg |} (pk_store st) in
  foldlM (packFile readFileSync compressionLevel packageId) (ScannedPackage.files pkg)
    {| pk_store := db; pk_processedFiles := pk_processedFiles st;
       pk_deduplicatedCount := pk_deduplicatedCount st |}.

Definition packFiles `{Platform} (readFileSync : string → option (list byte))
    (compressionLevel : Z) (scanned : list ScannedPackage.t) (db : Store)
    : result (nat * Store) :=
  st ← foldlM (packPackage readFileSync compressionLevel) scanned
        {| pk_store := db; pk_processedFiles := 0; pk_deduplicatedCount := 0 |};
  Ok (pk_deduplicatedCount st, pk_store st).

(** [pack(options)]: the reported [deduplicatedCount] and the snapshot.
    An output path that exists is removed with its journals first, so
    the store is always a new one. *)
Definition pack `{Platform} (env : PackEnv) (options : PackOptions.t) : result (nat * Store) :=
  let nodeModulesPath := PackOptions.source options in
  match env_tree env with
  | None => Err (SourceNotFound nodeModulesPath)
  | Some root =>
      scanResult ← scanNodeModules nodeModulesPath root;
      let store := Store_new in
      let store := setMetadata "created_at" (env_now env) store in
      let store := setMetadata "node_version" (env_version env) store in
      let store := setMetadata "source_path" nodeModulesPath store in
      let store :=
        if PackOptions.includeLockfile options then
          match env_lockfile env with
          | Some lockfileContent => setMetadata "lockfile_hash" (hashString lockfileContent) store
          | None => store
          end
        else store in
      transaction
        (packFiles (readFile (tree_view nodeModulesPath root))
           (PackOptions.compressionLevel options) (ScanResult.packages scanResult))
        store
  end.

(** ** Extractor (core/extractor.ts) *)

(** The octal literals [0o666] and [0o777]. *)
Definition mode_0o666 : Z := 438.
Definition mode_0o777 : Z := 511.

(** [dirname(path)] *)
Fixpoint last_slash (s : string) : option nat :=
  match s with
  | EmptyString => None
  | String c s' =>
      match last_slash s' with
      | Some i => Some (S i)
      | None => if decide (c = "/"%char) then Some 0 else None
      end
  end.

Definition dirname (path : string) : string :=
  match last_slash path with
  | None => "."
  | Some 0 => "/"
  | Some i => String.substring 0 i path
  end.

(** The calls of node:fs/promises that the extractor makes on the output
    directory [F]; each may throw. *)
Class OutputFs (F : Type) := {
  (** [mkdir(path, { recursive: true })] *)
  mkdir : string → F → result F;
  (** [writeFile(path, data)] *)
  writeFile : string → list byte → F → result F;
  (** [chmod(path, mode)] *)
  chmod : string → Z → F → result F;
}.

(** [getContent(blobHash)], with the cache it reads and writes. *)
Definition getContent `{Platform} (store : Store) (blobCache : gmap string (list byte))
    (blobHash : string) : result (option (list byte) * gmap string (list byte)) :=
  match blobCache !! blobHash with
  | Some cached => Ok (Some cached, blobCache)
  | None =>
      match getBlob blobHash store with
      | None => Ok (None, blobCache)
      | Some compressed =>
          match decompress compressed with
          | None => Err ZlibError
          | Some content =>
              Ok (Some content,
                  if bool_decide (Z.of_nat (length content) < 100 * 1024)%Z
                  then <[blobHash := content]> blobCache
                  else blobCache)
          end
      end
  end.

(** The local variables of [iterateFiles], the cache and the output. *)
Record ExtractState (F : Type) := {
  ex_cache : gmap string (list byte);
  ex_fs : F;
  ex_processedFiles : nat;
  ex_totalSize : nat;
}.
Arguments ex_cache {F} _.
Arguments ex_fs {F} _.
Arguments ex_processedFiles {F} _.
Arguments ex_totalSize {F} _.

(** The body of [for (const file of files)]. *)
Definition extractFile `{Platform} `{OutputFs F} (store : Store) (outputPath : string)
    (st : ExtractState F) (file : FileRow.t) : result (ExtractState F) :=
  let processedFiles := S (ex_processedFiles st) in
  let fullPath := join [outputPath; FileRow.packagePath file; FileRow.relativePath file] in
  fs ← mkdir (dirname fullPath) (ex_fs st);
  '(content, cache) ← getContent store (ex_cache st) (FileRow.blobHash file);
  match content with
  | None =>
      Ok {| ex_cache := cache; ex_fs := fs;
            ex_processedFiles := processedFiles; ex_totalSize := ex_totalSize st |}
  | Some content =>
      fs ← writeFile fullPath content fs;
      let totalSize := ex_totalSize st + length content in
      let fs :=
        if bool_decide (FileRow.mode file ≠ 0%Z) then
          match chmod fullPath (Z.land (FileRow.mode file) mode_0o777) fs with
          | Ok fs' => fs'
          | Err _ => fs
          end
        else fs in
      Ok {| ex_cache := cache; ex_fs := fs;
            ex_processedFiles := processedFiles; ex_totalSize := totalSize |}
  end.

Module ExtractResult.
Record t := mk {
  totalFiles : nat;
  totalSize : nat;
}.
End ExtractResult.

(** [extractFiles(store, outputPath)]: what it returns, and the output
    directory afterwards. *)
Definition extractFiles `{Platform} `{OutputFs F} (store : Store) (outputPath : string)
    (fs : F) : result (ExtractResult.t * F) :=
  let files := getAllFiles store in
  let totalFiles := length files in
  st ← foldlM (extractFile store outputPath) files
        {| ex_cache := ∅; ex_fs := fs; ex_processedFiles := 0; ex_totalSize := 0 |};
  Ok ({| ExtractResult.totalFiles := totalFiles;
         ExtractResult.totalSize := ex_totalSize st |}, ex_fs st).

(** *** A clean output directory

    The regular files of the directory, content and permission bits by
    path. In a directory that the caller has just created every [mkdir]
    and [writeFile] of the extractor goes through as long as no written
    path lies inside another, and the owner may [chmod] what it wrote. *)
Module OutFile.
Record t := mk {
  content : list byte;
  perm : Z;
}.
End OutFile.

(** A new file gets mode [0o666] less the umask, an existing one keeps
    its mode. *)
Definition clean_writeFile (umask : Z) (path : string) (data : list byte)
    (fs : gmap string OutFile.t) : gmap string OutFile.t :=
  let perm :=
    match fs !! path with
    | Some old => OutFile.perm old
    | None => Z.ldiff mode_0o666 umask
    end in
  <[path := {| OutFile.content := data; OutFile.perm := perm |}]> fs.

Definition clean_chmod (path : string) (mode : Z) (fs : gmap string OutFile.t)
    : result (gmap string OutFile.t) :=
  match fs !! path with
  | Some old => Ok (<[path := {| OutFile.content := OutFile.content old; OutFile.perm := mode |}]> fs)
  | None => Err (ENOENT path)
  end.

Definition clean_dir (umask : Z) : OutputFs (gmap string OutFile.t) := {|
  mkdir path fs := Ok fs;
  writeFile path data fs := Ok (clean_writeFile umask path data fs);
  chmod := clean_chmod;
|}.

(** ** Status (commands/status.ts) *)

Module StatusResult.
Record t := mk {
  onlyInDb : list string;
  onlyInFs : list string;
  modified : list string;
  unchanged : nat;
}.
End StatusResult.

Module StatusOptions.
Record t := mk {
  db : string;            (* already absolute *)
  nodeModules : string;   (* already absolute *)
}.
End StatusOptions.

(** The body of [for (const [index, file] of files.entries())]. *)
Definition statusFile `{Platform} (fs : FsView) (nodeModulesPath : string)
    (result : StatusResult.t) (file : FileRow.t) : StatusResult.t :=
  let relativePath := join [FileRow.packagePath file; FileRow.relativePath file] in
  let fullPath := join [nodeModulesPath; relativePath] in
  if negb (existsSync fs fullPath) then
    {| StatusResult.onlyInDb := StatusResult.onlyInDb result ++ [relativePath];
       StatusResult.onlyInFs := StatusResult.onlyInFs result;
       StatusResult.modified := StatusResult.modified result;
       StatusResult.unchanged := StatusResult.unchanged result |}
  else
    match readFile fs fullPath with
    | Some fsContent =>
        let fsHash := hashBuffer fsContent in
        if bool_decide (fsHash ≠ FileRow.blobHash file) then
          {| StatusResult.onlyInDb := StatusResult.onlyInDb result;
             StatusResult.onlyInFs := StatusResult.onlyInFs result;
             StatusResult.modified := StatusResult.modified result ++ [relativePath];
             StatusResult.unchanged := StatusResult.unchanged result |}
        else
          {| StatusResult.onlyInDb := StatusResult.onlyInDb result;
             StatusResult.onlyInFs := StatusResult.onlyInFs result;
             StatusResult.modified := StatusResult.modified result;
             StatusResult.unchanged := S (StatusResult.unchanged result) |}
    | None =>
        {| StatusResult.onlyInDb := StatusResult.onlyInDb result;
           StatusResult.onlyInFs := StatusResult.onlyInFs result;
           StatusResult.modified := StatusResult.modified result ++ [relativePath];
           StatusResult.unchanged := StatusResult.unchanged result |}
    end.

(** [status(options)]; [db] is the database stored at [options.db]. *)
Definition status `{Platform} (fs : FsView) (db : Store) (options : StatusOptions.t)
    : result StatusResult.t :=
  let dbPath := StatusOptions.db options in
  let nodeModulesPath := StatusOptions.nodeModules options in
  if negb (existsSync fs dbPath) then Err (DatabaseNotFound dbPath)
  else if negb (existsSync fs nodeModulesPath) then
    Ok {| StatusResult.onlyInDb := []; StatusResult.onlyInFs := [];
          StatusResult.modified := []; StatusResult.unchanged := 0 |}
  else
    let store := initSchema db in
    let files := getAllFiles store in
    Ok (fold_left (statusFile fs nodeModulesPath) files
          {| StatusResult.onlyInDb := []; StatusResult.onlyInFs := [];
             StatusResult.modified := []; StatusResult.unchanged := 0 |}).

(** ** Progress (utils/progress.ts) *)

(** [x.toFixed(1)] for a number of magnitude below [10^21]: the integer
    [n] nearest to [10 x] (the larger one of two), then its digits with the
    point before the last one. *)
Definition toFixed1 (x : Q) : string :=
  let n := Qfloor (Qabs x * 10 + (1 # 2))%Q in
  (if Qle_bool 0 x then "" else "-")
  +:+ pretty (n / 10)%Z +:+ "." +:+ pretty (n mod 10)%Z.

Definition units : list string := ["B"; "KB"; "MB"; "GB"].

(** [while (size >= 1024 && unitIndex < units.length - 1)]; [remaining] is
    [units.length - 1 - unitIndex]. *)
Fixpoint formatBytes_loop (remaining : nat) (size : Q) (unitIndex : nat) : Q * nat :=
  match remaining with
  | 0 => (size, unitIndex)
  | S remaining' =>
      if Qle_bool 1024 size
      then formatBytes_loop remaining' (size / 1024)%Q (S unitIndex)
      else (size, unitIndex)
  end.

(** [formatBytes(bytes)] for an integer [bytes]: of magnitude below [2^53]
    it and its quotients by 1024 are exact as doubles. *)
Definition formatBytes (bytes : Z) : string :=
  let '(size, unitIndex) := formatBytes_loop (length units - 1) (inject_Z bytes) 0 in
  toFixed1 size +:+ " " +:+ default "" (units !! unitIndex).

(** ** Unpack (commands/unpack.ts) *)

Module UnpackOptions.
Record t := mk {
  input : string;          (* already absolute *)
  output : string;         (* already absolute *)
  cache : option string;
  force : bool;
}.
End UnpackOptions.

(** The two calls that unpack makes on the disk besides those of the
    extractor. *)
Class UnpackFs (F : Type) := {
  (** [existsSync(path)] *)
  pathExists : string → F → bool;
  (** [rm(path, { recursive: true, force: true })] *)
  rm : string → F → result F;
}.

Inductive UnpackError :=
| UnpackDatabaseNotFound (dbPath : string)
| OutputAlreadyExists (outputPath : string)
| UnpackFailed (e : error).

(** What the two boxes of unpack show, less the elapsed time. *)
Module UnpackReport.
Record t := mk {
  created : string;
  nodeVersion : string;
  files : nat;
  originalSize : string;
  compressedSize : string;
  extractedFiles : nat;
  extractedSize : string;
}.
End UnpackReport.

(** [unpack(options)]; [database] is what is stored at [options.input], if
    anything. *)
Definition unpack `{Platform} `{OutputFs F} `{UnpackFs F} (database : option Store)
    (options : UnpackOptions.t) (fs : F) : UnpackError + (UnpackReport.t * F) :=
  let dbPath := UnpackOptions.input options in
  let outputPath := UnpackOptions.output options in
  match database with
  | None => inl (UnpackDatabaseNotFound dbPath)
  | Some db =>
      let cleared :=
        if pathExists outputPath fs then
          if negb (UnpackOptions.force options) then inl (OutputAlreadyExists outputPath)
          else match rm outputPath fs with
               | Ok fs' => inr fs'
               | Err e => inl (UnpackFailed e)
               end
        else inr fs in
      match cleared with
      | inl e => inl e
      | inr fs =>
          let store := initSchema db in
          let createdAt := getMetadata "created_at" store in
          let nodeVersion := getMetadata "node_version" store in
          let totalFileCount := getTotalFileCount store in
          let '(_, totalOriginalSize, totalCompressedSize) := getBlobStats store in
          match extractFiles store outputPath fs with
          | Err e => inl (UnpackFailed e)
          | Ok (result, fs) =>
              inr ({| UnpackReport.created := default "unknown" createdAt;
                      UnpackReport.nodeVersion := default "unknown" nodeVersion;
                      UnpackReport.files := totalFileCount;
                      UnpackReport.originalSize := formatBytes (Z.of_nat totalOriginalSize);
                      UnpackReport.compressedSize :=
                        formatBytes (Z.of_nat totalCompressedSize);
                      UnpackReport.extractedFiles := ExtractResult.totalFiles result;
                      UnpackReport.extractedSize :=
                        formatBytes (Z.of_nat (ExtractResult.totalSize result)) |}, fs)
          end
      end
  end.

(** *** A clean disk for unpack

    The regular files by path, as for the extractor: a path exists when
    it is a file or has a file below it, and removing a path removes the
    files at and below it. *)

(** [path] is [dir] or lies below it. *)
Definition under (dir path : string) : Prop :=
  path = dir ∨ startsWith path (dir +:+ "/") = true.

#[global] Instance under_dec (dir path : string) : Decision (under dir path).
Proof. unfold under. apply _. Defined.

Definition clean_pathExists (path : string) (fs : gmap string OutFile.t) : bool :=
  bool_decide (Exists (λ p, under path p) (map_to_list fs).*1).

Definition clean_rm (path : string) (fs : gmap string OutFile.t)
    : result (gmap string OutFile.t) :=
  Ok (filter (λ kv, ¬ under path kv.1) fs).

Definition clean_disk : UnpackFs (gmap string OutFile.t) := {|
  pathExists := clean_pathExists;
  rm := clean_rm;
|}.

(** The bytes of the regular file at [path]. *)
Definition clean_file_at (fs : gmap string OutFile.t) (path : string) : option (list byte) :=
  OutFile.content <$> fs !! path.

(** ** A small platform and small trees, for the examples

    [demo_platform] stands in for the real primitives where a closed
    example needs some: a digest that spells out its input (so it has no
    collisions), a codec that prepends the first gzip magic byte, a
    parser that knows the manifests of the examples, and a database in
    which no insert has met a conflict. *)

Definition quoted (s : string) : string :=
  String (ascii_of_nat 34) (s +:+ String (ascii_of_nat 34) EmptyString).

(** The text [{"name":"a","version":"1.0.0"}]. *)
Definition manifest_a : string :=
  "{" +:+ quoted "name" +:+ ":" +:+ quoted "a" +:+ "," +:+
  quoted "version" +:+ ":" +:+ quoted "1.0.0" +:+ "}".

(** The texts [{"name":5}] and [{"name":true}]. *)
Definition manifest_numeric : string := "{" +:+ quoted "name" +:+ ":5}".
Definition manifest_flag : string := "{" +:+ quoted "name" +:+ ":true}".

Definition demo_parse (text : string) : option json :=
  if decide (text = manifest_a) then
    Some (JObject [("name", JString "a"); ("version", JString "1.0.0")])
  else if decide (text = "{}") then Some (JObject [])
  else if decide (text = "null") then Some JNull
  else if decide (text = manifest_numeric) then Some (JObject [("name", JNumber 5)])
  else if decide (text = manifest_flag) then Some (JObject [("name", JBool true)])
  else None.

Definition demo_platform : Platform := {|
  sha256_hex data := "sha256:" +:+ String.string_of_list_byte data;
  gzipSync data level := x1f :: data;
  gunzipSync data := match data with x1f :: rest => Some rest | _ => None end;
  JSON_parse := demo_parse;
  number_text n := pretty n +:+ ".0";
  autoincrement_gap table ids := 0;
|}.

Definition bytes (s : string) : list byte := String.list_byte_of_string s.

(** A regular file with mode [0o100644]. *)
Definition regular (text : string) : node := File (bytes text) 33188 1700000000000.

(** [a/package.json], [a/index.js] and a file [.package-lock.json] beside
    the package. *)
Definition tree_with_root_file : node :=
  Dir [ ("a", Dir [ ("package.json", regular manifest_a); ("index.js", regular "hello") ]);
        (".package-lock.json", regular "{}") ].

(** [a/x.js] and [b/x.js] with the same bytes, and no manifest. *)
Definition tree_without_manifests : node :=
  Dir [ ("a", Dir [ ("x.js", regular "same") ]);
        ("b", Dir [ ("x.js", regular "same") ]) ].

(** [a/package.json] holds the JSON text [null]. *)
Definition tree_null_manifest : node :=
  Dir [ ("a", Dir [ ("package.json", regular "null"); ("index.js", regular "hello") ]) ].

(** [a/package.json] gives the number [5], or the value [true], as the
    name of the package. *)
Definition tree_numeric_name : node :=
  Dir [ ("a", Dir [ ("package.json", regular manifest_numeric); ("index.js", regular "hello") ]) ].

Definition tree_boolean_name : node :=
  Dir [ ("a", Dir [ ("package.json", regular manifest_flag); ("index.js", regular "hello") ]) ].

(** A regular file named [.pnpm] beside a flat package [a]. *)
Definition tree_pnpm_file : node :=
  Dir [ (".pnpm", regular "x");
        ("a", Dir [ ("package.json", regular manifest_a); ("index.js", regular "hello") ]) ].

Definition demo_env (root : node) : PackEnv := {|
  env_tree := Some root;
  env_now := "2026-01-01T00:00:00.000Z";
  env_version := "v22.0.0";
  env_lockfile := None;
|}.

Definition demo_options : PackOptions.t := {|
  PackOptions.output := "/proj/node_modules.db";
  PackOptions.source := "/proj/node_modules";
  PackOptions.compressionLevel := 6;
  PackOptions.includeLockfile := false;
|}.

(** The snapshot of [tree_with_root_file]. *)
Definition demo_snapshot : Store :=
  match @pack demo_platform (demo_env tree_with_root_file) demo_options with
  | Ok (_, db) => db
  | Err _ => Store_new
  end.

(** * Properties *)

(** ** Lists keyed by a column *)

Section keyed.
Context {A K : Type} `{EqDecision K} (f : A → K).

Lemma filter_key_absent (k : K) (l : list A) :
  ¬ Exists (λ x, f x = k) l → filter (λ x, f x = k) l = [].
Proof.
  induction l as [|a l IH]; intros Hno; [done|].
  rewrite filter_cons. destruct (decide (f a = k)) as [Hk|Hk].
  - exfalso. apply Hno. by left.
  - apply IH. intros Hex. apply Hno. by right.
Qed.

Lemma key_inj_on (l : list A) (x y : A) :
  NoDup (f <$> l) → x ∈ l → y ∈ l → f x = f y → x = y.
Proof.
  induction l as [|a l IH]; intros Hnd Hx Hy Hxy; [by apply elem_of_nil in Hx|].
  rewrite fmap_cons in Hnd. apply NoDup_cons in Hnd as [Ha Hnd].
  apply elem_of_cons in Hx as [->|Hx]; apply elem_of_cons in Hy as [->|Hy]; auto.
  - exfalso. apply Ha. rewrite Hxy. by apply list_elem_of_fmap_2.
  - exfalso. apply Ha. rewrite <- Hxy. by apply list_elem_of_fmap_2.
Qed.

Lemma filter_key_unique (l : list A) (x : A) :
  NoDup (f <$> l) → x ∈ l → filter (λ y, f y = f x) l = [x].
Proof.
  induction l as [|a l IH]; intros Hnd Hx; [by apply elem_of_nil in Hx|].
  rewrite fmap_cons in Hnd. apply NoDup_cons in Hnd as [Ha Hnd].
  rewrite filter_cons. apply elem_of_cons in Hx as [->|Hx].
  - rewrite decide_True by done. f_equal. apply filter_key_absent.
    intros Hex. apply Exists_exists in Hex as (y & Hy & Hfy).
    apply Ha. rewrite <- Hfy. by apply list_elem_of_fmap_2.
  - rewrite decide_False; [by apply IH|].
    intros Hfa. apply Ha. rewrite Hfa. by apply list_elem_of_fmap_2.
Qed.

Lemma find_key_Some (k : K) (l : list A) (x : A) :
  find (λ y, bool_decide (f y = k)) l = Some x → x ∈ l ∧ f x = k.
Proof.
  induction l as [|a l IH]; [done|]. simpl. case_bool_decide as Hk.
  - intros [= ->]. split; [by left | done].
  - intros Hfind. destruct (IH Hfind). split; [by right | done].
Qed.

Lemma find_key_None (k : K) (l : list A) :
  find (λ y, bool_decide (f y = k)) l = None → ¬ Exists (λ x, f x = k) l.
Proof.
  induction l as [|a l IH]; simpl; [intros _ Hex; by apply Exists_nil in Hex|].
  case_bool_decide as Hk; [done|]. intros Hfind Hex.
  apply Exists_cons in Hex as [?|?]; [done | by apply IH].
Qed.

Lemma find_key_is_Some (k : K) (l : list A) :
  Exists (λ x, f x = k) l → is_Some (find (λ y, bool_decide (f y = k)) l).
Proof.
  intros Hex. destruct (find _ l) eqn:Hfind; [done|].
  by apply find_key_None in Hfind.
Qed.

End keyed.

Lemma next_id_above `{Platform} {A} (table : string) (rows : list (nat * A)) (id : nat) :
  id ∈ fst <$> rows → id < next_id table rows.
Proof. intros Hin%max_list_elem_of_le. unfold next_id. lia. Qed.

Lemma next_id_fresh `{Platform} {A} (table : string) (rows : list (nat * A)) :
  next_id table rows ∉ fst <$> rows.
Proof. intros Hin%(next_id_above table). lia. Qed.

(** ** The store *)

Lemma hasBlob_true (hash : string) (db : Store) :
  hasBlob hash db = true ↔ hash ∈ BlobInfo.hash <$> blobs db.
Proof.
  unfold hasBlob. rewrite bool_decide_eq_true, Exists_exists, list_elem_of_fmap.
  split; intros (b & ? & ?); exists b; done.
Qed.

Lemma hasBlob_false (hash : string) (db : Store) :
  hasBlob hash db = false ↔ hash ∉ BlobInfo.hash <$> blobs db.
Proof. rewrite <- hasBlob_true. by destruct (hasBlob hash db). Qed.

Lemma hasBlob_insertBlob (blob : BlobInfo.t) (db : Store) :
  hasBlob (BlobInfo.hash blob) (insertBlob blob db) = true.
Proof.
  unfold insertBlob. destruct (hasBlob _ db) eqn:Hhas; [done|].
  apply hasBlob_true. simpl. rewrite fmap_app. set_solver.
Qed.

Lemma insertBlob_NoDup (blob : BlobInfo.t) (db : Store) :
  NoDup (BlobInfo.hash <$> blobs db) → NoDup (BlobInfo.hash <$> blobs (insertBlob blob db)).
Proof.
  intros Hnd. unfold insertBlob. destruct (hasBlob _ db) eqn:Hhas; [done|].
  simpl. rewrite fmap_app. apply NoDup_app. split_and!; [done | | apply NoDup_singleton].
  intros h Hh Hh'. apply list_elem_of_singleton in Hh' as ->.
  by apply hasBlob_false in Hhas.
Qed.

(** C4. Two calls of [insertBlob] with the same digest: the second changes
    nothing in any table, the table has exactly one row with that digest,
    and that row is the one of the first call when the digest was new. *)
Theorem insertBlob_twice (db : Store) (first second : BlobInfo.t) :
  NoDup (BlobInfo.hash <$> blobs db) →
  BlobInfo.hash second = BlobInfo.hash first →
  insertBlob second (insertBlob first db) = insertBlob first db
  ∧ ∃ row,
      filter (λ b, BlobInfo.hash b = BlobInfo.hash first)
        (blobs (insertBlob second (insertBlob first db))) = [row]
      ∧ (hasBlob (BlobInfo.hash first) db = false → row = first).
Proof.
  intros Hnd Hsame.
  assert (insertBlob second (insertBlob first db) = insertBlob first db) as Hnoop.
  { unfold insertBlob at 1. by rewrite Hsame, hasBlob_insertBlob. }
  split; [done|]. rewrite Hnoop.
  unfold insertBlob. destruct (hasBlob (BlobInfo.hash first) db) eqn:Hhas.
  - apply hasBlob_true, list_elem_of_fmap in Hhas as (row & Hrow & Hin).
    exists row. split; [|done]. rewrite Hrow. by apply filter_key_unique.
  - exists first. split; [|done]. simpl. rewrite filter_app, filter_key_absent.
    + rewrite filter_cons, decide_True by done. done.
    + intros Hex. apply hasBlob_false in Hhas. apply Hhas.
      apply Exists_exists in Hex as (b & ? & <-). by apply list_elem_of_fmap_2.
Qed.

Definition blob_one : BlobInfo.t :=
  {| BlobInfo.hash := "d"; BlobInfo.content := bytes "first";
     BlobInfo.originalSize := 5; BlobInfo.compressedSize := 5 |}.

Definition blob_two : BlobInfo.t :=
  {| BlobInfo.hash := "d"; BlobInfo.content := bytes "second";
     BlobInfo.originalSize := 6; BlobInfo.compressedSize := 6 |}.

Lemma insertBlob_twice_witness :
  NoDup (BlobInfo.hash <$> blobs Store_new)
  ∧ BlobInfo.hash blob_two = BlobInfo.hash blob_one
  ∧ insertBlob blob_two (insertBlob blob_one Store_new) = insertBlob blob_one Store_new.
Proof.
  assert (NoDup (BlobInfo.hash <$> blobs Store_new)) as Hnd by apply NoDup_nil_2.
  split_and!; [done | reflexivity |].
  exact (proj1 (insertBlob_twice Store_new blob_one blob_two Hnd eq_refl)).
Defined.

(** C5. [insertPackage] returns an id under which the package is then
    stored. When the triple (name, version, path) is already in the table
    it returns the id of that row and the store is unchanged; otherwise it
    adds one row, with an id that no row had. The triples stay unique. *)
Theorem insertPackage_upsert `{Platform} (db : Store) (pkg : PackageInfo.t) :
  NoDup (snd <$> packages db) →
  ((insertPackage pkg db).1, pkg) ∈ packages (insertPackage pkg db).2
  ∧ NoDup (snd <$> packages (insertPackage pkg db).2)
  ∧ (∀ id, (id, pkg) ∈ packages db → insertPackage pkg db = (id, db))
  ∧ (pkg ∉ snd <$> packages db →
       ((insertPackage pkg db).1 ∉ (fst <$> packages db))
       ∧ (insertPackage pkg db).2 =
           {| metadata := metadata db;
              packages := packages db ++ [((insertPackage pkg db).1, pkg)];
              blobs := blobs db; files := files db |}).
Proof.
  intros Hnd. unfold insertPackage.
  destruct (find _ (packages db)) as [row|] eqn:Hfind.
  - apply (find_key_Some snd) in Hfind as [Hin Hrow]. simpl.
    split_and!; [by destruct row; simplify_eq/= | done | |].
    + intros id Hid. f_equal.
      by rewrite (key_inj_on snd (packages db) row (id, pkg) Hnd Hin Hid Hrow).
    + intros Hnot. exfalso. apply Hnot. rewrite <- Hrow. by apply list_elem_of_fmap_2.
  - apply (find_key_None snd) in Hfind. simpl.
    assert (pkg ∉ snd <$> packages db) as Hnot.
    { intros (row & -> & Hin)%list_elem_of_fmap. apply Hfind, Exists_exists. eauto. }
    split_and!.
    + set_solver.
    + rewrite fmap_app. apply NoDup_app. split_and!; [done | | apply NoDup_singleton].
      intros p Hp Hp'. apply list_elem_of_singleton in Hp' as ->. done.
    + intros id Hid. exfalso. apply Hnot.
      by apply (list_elem_of_fmap_2 snd) in Hid.
    + intros _. split; [apply next_id_fresh | done].
Qed.

Definition package_a : PackageInfo.t :=
  {| PackageInfo.name := "a"; PackageInfo.version := "1.0.0"; PackageInfo.path := "a" |}.

(** [Store_new] with the package [package_a]. *)
Definition store_a : Store := (@insertPackage demo_platform package_a Store_new).2.

Lemma insertPackage_upsert_witness :
  NoDup (snd <$> packages store_a)
  ∧ @insertPackage demo_platform package_a store_a = (1, store_a).
Proof.
  assert (NoDup (snd <$> packages store_a)) as Hnd.
  { apply NoDup_singleton. }
  split; [done|].
  apply (proj1 (proj2 (proj2 (@insertPackage_upsert demo_platform store_a package_a Hnd)))).
  apply list_elem_of_singleton. reflexivity.
Defined.

(** ** Status *)

(** The three buckets of the specification, and the bucket it gives a
    row: [OnlyInDb] when the file does not exist under the tree; otherwise
    the bytes are read and hashed, [Modified] when the hash differs from
    the row's (or the read throws), [Unchanged] when it matches. *)
Inductive bucket := OnlyInDb | Modified | Unchanged.

#[global] Instance bucket_eq_dec : EqDecision bucket.
Proof. solve_decision. Defined.

Definition joined (file : FileRow.t) : string :=
  join [FileRow.packagePath file; FileRow.relativePath file].

Definition classify `{Platform} (fs : FsView) (nodeModulesPath : string) (file : FileRow.t)
    : bucket :=
  let fullPath := join [nodeModulesPath; joined file] in
  if existsSync fs fullPath then
    match readFile fs fullPath with
    | Some fsContent =>
        if decide (sha256_hex fsContent = FileRow.blobHash file) then Unchanged else Modified
    | None => Modified
    end
  else OnlyInDb.

Definition in_bucket `{Platform} (fs : FsView) (nodeModulesPath : string) (b : bucket)
    (rows : list FileRow.t) : list FileRow.t :=
  filter (λ file, classify fs nodeModulesPath file = b) rows.

Section status_loop.
Context `{Platform} (fs : FsView) (nodeModulesPath : string).

Lemma getAllFiles_initSchema (db : Store) : getAllFiles (initSchema db) = getAllFiles db.
Proof. reflexivity. Qed.

Lemma statusFile_classify (r : StatusResult.t) (file : FileRow.t) :
  statusFile fs nodeModulesPath r file =
  match classify fs nodeModulesPath file with
  | OnlyInDb =>
      {| StatusResult.onlyInDb := StatusResult.onlyInDb r ++ [joined file];
         StatusResult.onlyInFs := StatusResult.onlyInFs r;
         StatusResult.modified := StatusResult.modified r;
         StatusResult.unchanged := StatusResult.unchanged r |}
  | Modified =>
      {| StatusResult.onlyInDb := StatusResult.onlyInDb r;
         StatusResult.onlyInFs := StatusResult.onlyInFs r;
         StatusResult.modified := StatusResult.modified r ++ [joined file];
         StatusResult.unchanged := StatusResult.unchanged r |}
  | Unchanged =>
      {| StatusResult.onlyInDb := StatusResult.onlyInDb r;
         StatusResult.onlyInFs := StatusResult.onlyInFs r;
         StatusResult.modified := StatusResult.modified r;
         StatusResult.unchanged := S (StatusResult.unchanged r) |}
  end.
Proof.
  unfold statusFile, classify, joined, hashBuffer.
  destruct (existsSync fs _); simpl; [|done].
  destruct (readFile fs _) as [fsContent|]; [|done].
  case_bool_decide; case_decide; done.
Qed.

Lemma status_loop_buckets (rows : list FileRow.t) (r : StatusResult.t) :
  fold_left (statusFile fs nodeModulesPath) rows r =
  {| StatusResult.onlyInDb :=
       StatusResult.onlyInDb r ++ (joined <$> in_bucket fs nodeModulesPath OnlyInDb rows);
     StatusResult.onlyInFs := StatusResult.onlyInFs r;
     StatusResult.modified :=
       StatusResult.modified r ++ (joined <$> in_bucket fs nodeModulesPath Modified rows);
     StatusResult.unchanged :=
       StatusResult.unchanged r + length (in_bucket fs nodeModulesPath Unchanged rows) |}.
Proof.
  revert r. induction rows as [|file rows IH]; intros r.
  - simpl. rewrite !app_nil_r, Nat.add_0_r. by destruct r.
  - simpl. rewrite IH, statusFile_classify. unfold in_bucket. rewrite !filter_cons.
    destruct (classify fs nodeModulesPath file); simpl;
      rewrite <- ?app_assoc; simpl; f_equal; lia.
Qed.

Lemma status_loop_count (rows : list FileRow.t) (r : StatusResult.t) :
  let r' := fold_left (statusFile fs nodeModulesPath) rows r in
  length (StatusResult.onlyInDb r') + length (StatusResult.modified r')
    + StatusResult.unchanged r'
  = length (StatusResult.onlyInDb r) + length (StatusResult.modified r)
    + StatusResult.unchanged r + length rows
  ∧ StatusResult.onlyInFs r' = StatusResult.onlyInFs r.
Proof.
  revert r. induction rows as [|file rows IH]; intros r; simpl.
  - split; [lia | done].
  - destruct (IH (statusFile fs nodeModulesPath r file)) as [-> ->].
    rewrite statusFile_classify.
    destruct (classify fs nodeModulesPath file); simpl; rewrite ?length_app; simpl;
      split; (lia || done).
Qed.

End status_loop.

(** C6. With the database and the tree in place, [status] returns the
    rows of [getAllFiles] sorted into the buckets of the specification:
    [onlyInDb] lists the joined paths of the rows whose file does not exist
    under the tree, [modified] those whose file hashes differently or cannot
    be read, and [unchanged] counts the rows whose hash matches. *)
Theorem status_classification `{Platform} (fs : FsView) (db : Store)
    (options : StatusOptions.t) :
  existsSync fs (StatusOptions.db options) = true →
  existsSync fs (StatusOptions.nodeModules options) = true →
  ∃ r, status fs db options = Ok r
    ∧ StatusResult.onlyInDb r =
        (joined <$> in_bucket fs (StatusOptions.nodeModules options) OnlyInDb (getAllFiles db))
    ∧ StatusResult.modified r =
        (joined <$> in_bucket fs (StatusOptions.nodeModules options) Modified (getAllFiles db))
    ∧ StatusResult.unchanged r =
        length (in_bucket fs (StatusOptions.nodeModules options) Unchanged (getAllFiles db)).
Proof.
  intros Hdb Htree. unfold status. rewrite Hdb, Htree. simpl.
  eexists. split; [done|].
  rewrite getAllFiles_initSchema, status_loop_buckets. simpl. done.
Qed.

(** C10. With the database and the tree in place, every row of
    [getAllFiles] lands in exactly one bucket: the two lists and the
    counter add up to the number of rows, and [onlyInFs] is empty. *)
Theorem status_partition `{Platform} (fs : FsView) (db : Store)
    (options : StatusOptions.t) :
  existsSync fs (StatusOptions.db options) = true →
  existsSync fs (StatusOptions.nodeModules options) = true →
  ∃ r, status fs db options = Ok r
    ∧ length (StatusResult.onlyInDb r) + length (StatusResult.modified r)
        + StatusResult.unchanged r = length (getAllFiles db)
    ∧ StatusResult.onlyInFs r = [].
Proof.
  intros Hdb Htree. unfold status. rewrite Hdb, Htree. simpl.
  eexists. split; [done|]. rewrite getAllFiles_initSchema.
  by destruct (status_loop_count fs (StatusOptions.nodeModules options) (getAllFiles db)
    {| StatusResult.onlyInDb := []; StatusResult.onlyInFs := [];
       StatusResult.modified := []; StatusResult.unchanged := 0 |}) as [-> ->].
Qed.

(** ** The extractor *)

Definition is_Ok {A} (r : result A) : Prop := ∃ a, r = Ok a.

(** The bytes that a digest stands for in the store. *)
Definition blob_content `{Platform} (store : Store) (hash : string) : option (list byte) :=
  getBlob hash store ≫= decompress.

(** The rows whose blob [getBlob] finds. *)
Definition blob_found (store : Store) (file : FileRow.t) : bool :=
  bool_decide (is_Some (getBlob (FileRow.blobHash file) store)).

Definition decompressed_length `{Platform} (store : Store) (file : FileRow.t) : nat :=
  from_option length 0 (blob_content store (FileRow.blobHash file)).

(** Every blob that a row refers to can be decompressed. *)
Definition blobs_decompress `{Platform} (store : Store) (rows : list FileRow.t) : Prop :=
  ∀ file compressed, file ∈ rows →
    getBlob (FileRow.blobHash file) store = Some compressed → is_Some (decompress compressed).

Section extract_loop.
Context `{Platform} `{OutputFs F} (store : Store) (outputPath : string).

(** The cache only ever holds what the store would give. *)
Definition cache_coherent (cache : gmap string (list byte)) : Prop :=
  ∀ hash content, cache !! hash = Some content → blob_content store hash = Some content.

Lemma cache_coherent_empty : cache_coherent ∅.
Proof. intros hash content Hlook. by rewrite lookup_empty in Hlook. Qed.

Lemma getContent_Ok (cache cache' : gmap string (list byte)) (hash : string)
    (content : option (list byte)) :
  cache_coherent cache →
  getContent store cache hash = Ok (content, cache') →
  cache_coherent cache'
  ∧ (is_Some content ↔ is_Some (getBlob hash store))
  ∧ (∀ c, content = Some c → blob_content store hash = Some c).
Proof.
  intros Hcoh. unfold getContent.
  destruct (cache !! hash) as [cached|] eqn:Hcache.
  - intros [= <- <-]. pose proof (Hcoh _ _ Hcache) as Hblob.
    split_and!; [done | | by intros c [= <-]].
    unfold blob_content in Hblob. destruct (getBlob hash store); [done|]. by simpl in Hblob.
  - destruct (getBlob hash store) as [compressed|] eqn:Hget.
    + destruct (decompress compressed) as [c|] eqn:Hdec; [|done].
      intros [= <- <-]. split_and!.
      * case_bool_decide; [|done]. intros h c' Hlook.
        destruct (decide (hash = h)) as [<-|Hne].
        -- rewrite lookup_insert_eq in Hlook. injection Hlook as <-.
           unfold blob_content. by rewrite Hget.
        -- rewrite lookup_insert_ne in Hlook by done. by apply Hcoh.
      * done.
      * intros c' [= <-]. unfold blob_content. by rewrite Hget.
    + intros [= <- <-]. split_and!; [done | | done].
      split; intros [? ?]; done.
Qed.

Lemma getContent_returns (cache : gmap string (list byte)) (hash : string) :
  (∀ compressed, getBlob hash store = Some compressed → is_Some (decompress compressed)) →
  is_Ok (getContent store cache hash).
Proof.
  intros Hdec. unfold getContent, is_Ok.
  destruct (cache !! hash); [eauto|].
  destruct (getBlob hash store) as [compressed|]; [|eauto].
  destruct (Hdec compressed eq_refl) as [c ->]. eauto.
Qed.

Lemma extractFile_Ok (st st' : ExtractState F) (file : FileRow.t) :
  cache_coherent (ex_cache st) →
  extractFile store outputPath st file = Ok st' →
  cache_coherent (ex_cache st')
  ∧ ex_processedFiles st' = S (ex_processedFiles st)
  ∧ ex_totalSize st' =
      ex_totalSize st + (if blob_found store file then decompressed_length store file else 0).
Proof.
  intros Hcoh. unfold extractFile.
  destruct (mkdir _ (ex_fs st)) as [fs1|]; simpl; [|done].
  destruct (getContent store (ex_cache st) (FileRow.blobHash file))
    as [[content cache']|] eqn:Hget; simpl; [|done].
  apply getContent_Ok in Hget as (Hcoh' & Hsome & Hblob); [|done].
  unfold blob_found, decompressed_length. destruct content as [c|].
  - destruct (writeFile _ c fs1) as [fs2|]; simpl; [|done].
    intros [= <-]. simpl. rewrite bool_decide_eq_true_2 by (by apply Hsome).
    rewrite (Hblob c eq_refl). done.
  - intros [= <-]. simpl. rewrite bool_decide_eq_false_2; [by rewrite Nat.add_0_r|].
    intros Hs. apply Hsome in Hs. by destruct Hs.
Qed.

Lemma extract_loop_Ok (rows : list FileRow.t) (st st' : ExtractState F) :
  cache_coherent (ex_cache st) →
  foldlM (extractFile store outputPath) rows st = Ok st' →
  ex_processedFiles st' = ex_processedFiles st + length rows
  ∧ ex_totalSize st' =
      ex_totalSize st + sum_list (decompressed_length store <$> filter (blob_found store) rows).
Proof.
  revert st. induction rows as [|file rows IH]; intros st Hcoh; simpl.
  - intros [= <-]. split; lia.
  - destruct (extractFile store outputPath st file) as [st1|] eqn:Hstep; simpl; [|done].
    apply extractFile_Ok in Hstep as (Hcoh1 & Hp1 & Hs1); [|done].
    intros Hloop. apply IH in Hloop as [Hp Hs]; [|done].
    rewrite Hp, Hs, Hp1, Hs1. split; [lia|].
    destruct (blob_found store file) eqn:Hw.
    + rewrite filter_cons_True by (by rewrite Hw). rewrite fmap_cons. simpl. lia.
    + rewrite filter_cons_False by (rewrite Hw; simpl; tauto). lia.
Qed.

Lemma extract_loop_returns (rows : list FileRow.t) (st : ExtractState F) :
  (∀ path fs, is_Ok (mkdir path fs)) →
  (∀ path data fs, is_Ok (writeFile path data fs)) →
  blobs_decompress store rows →
  is_Ok (foldlM (extractFile store outputPath) rows st).
Proof.
  intros Hmkdir Hwrite. revert st.
  induction rows as [|file rows IH]; intros st Hdec; simpl; [by eexists|].
  assert (is_Ok (extractFile store outputPath st file)) as [st1 ->].
  { unfold extractFile.
    destruct (Hmkdir (dirname
      (join [outputPath; FileRow.packagePath file; FileRow.relativePath file])) (ex_fs st))
      as [fs1 ->]. simpl.
    destruct (getContent_returns (ex_cache st) (FileRow.blobHash file))
      as [[content cache'] ->].
    { intros compressed. apply Hdec. by left. }
    simpl. destruct content as [c|]; [|by eexists].
    destruct (Hwrite (join [outputPath; FileRow.packagePath file; FileRow.relativePath file])
      c fs1) as [fs2 ->]. simpl. by eexists. }
  simpl. apply IH. intros f c Hf. apply Hdec. by right.
Qed.

End extract_loop.

(** *** The writes that reach the output directory *)

(** An output directory that also keeps the [writeFile] calls that went
    through, in order: the path and the bytes of each. *)
Definition recording `{OutputFs F} : OutputFs (F * list (string * list byte)) := {|
  mkdir path s := fs ← mkdir path s.1; Ok (fs, s.2);
  writeFile path data s := fs ← writeFile path data s.1; Ok (fs, s.2 ++ [(path, data)]);
  chmod path mode s := fs ← chmod path mode s.1; Ok (fs, s.2);
|}.

(** The write of [extractFile] for the row [file]: at the row's path, the
    bytes that its blob decompresses to. *)
Definition write_of `{Platform} (store : Store) (outputPath : string) (file : FileRow.t)
    (w : string * list byte) : Prop :=
  w.1 = join [outputPath; FileRow.packagePath file; FileRow.relativePath file]
  ∧ blob_content store (FileRow.blobHash file) = Some w.2.

Section extract_writes.
Context `{Platform} `{OutputFs F} (store : Store) (outputPath : string).

(** The state of the loop over the recording directory. *)
Definition with_writes (st : ExtractState F) (writes : list (string * list byte))
    : ExtractState (F * list (string * list byte)) :=
  {| ex_cache := ex_cache st; ex_fs := (ex_fs st, writes);
     ex_processedFiles := ex_processedFiles st; ex_totalSize := ex_totalSize st |}.

Lemma extractFile_recorded (st st' : ExtractState F) (file : FileRow.t)
    (writes : list (string * list byte)) :
  cache_coherent store (ex_cache st) →
  extractFile store outputPath st file = Ok st' →
  ∃ new,
    @extractFile _ _ recording store outputPath (with_writes st writes) file
    = Ok (with_writes st' (writes ++ new))
    ∧ Forall2 (write_of store outputPath) (filter (blob_found store) [file]) new
    ∧ ex_totalSize st' = ex_totalSize st + sum_list (length ∘ snd <$> new).
Proof.
  intros Hcoh. unfold extractFile. simpl.
  destruct (mkdir _ (ex_fs st)) as [fs1|]; simpl; [|done].
  destruct (getContent store (ex_cache st) (FileRow.blobHash file))
    as [[content cache']|] eqn:Hget; simpl; [|done].
  apply getContent_Ok in Hget as (_ & Hsome & Hblob); [|done].
  destruct content as [c|].
  - destruct (writeFile _ c fs1) as [fs2|]; simpl; [|done].
    intros [= <-].
    exists [(join [outputPath; FileRow.packagePath file; FileRow.relativePath file], c)].
    split_and!.
    + case_bool_decide; [|done]. by destruct (chmod _ _ fs2).
    + rewrite filter_cons_True, filter_nil.
      * constructor; [|constructor]. split; [done|]. by apply Hblob.
      * unfold blob_found. apply bool_decide_pack, Hsome. by eexists.
    + simpl. lia.
  - intros [= <-]. exists []. split_and!.
    + by rewrite app_nil_r.
    + rewrite filter_cons_False; [constructor|]. unfold blob_found.
      intros Hw%bool_decide_unpack%Hsome. by destruct Hw.
    + simpl. lia.
Qed.

Lemma extract_loop_recorded (rows : list FileRow.t) (st st' : ExtractState F)
    (writes : list (string * list byte)) :
  cache_coherent store (ex_cache st) →
  foldlM (extractFile store outputPath) rows st = Ok st' →
  ∃ new,
    foldlM (@extractFile _ _ recording store outputPath) rows (with_writes st writes)
    = Ok (with_writes st' (writes ++ new))
    ∧ Forall2 (write_of store outputPath) (filter (blob_found store) rows) new
    ∧ ex_totalSize st' = ex_totalSize st + sum_list (length ∘ snd <$> new).
Proof.
  revert st writes. induction rows as [|file rows IH]; intros st writes Hcoh; simpl.
  - intros [= <-]. exists []. rewrite app_nil_r. split_and!; [done | constructor | simpl; lia].
  - destruct (extractFile store outputPath st file) as [st1|] eqn:Hstep; simpl; [|done].
    intros Hloop.
    destruct (extractFile_recorded st st1 file writes Hcoh Hstep) as (new1 & -> & Hnew1 & Hsize1).
    apply (extractFile_Ok store outputPath st st1 file Hcoh) in Hstep as (Hcoh1 & _).
    destruct (IH st1 (writes ++ new1) Hcoh1 Hloop) as (new & Hrec & Hnew & Hsize).
    exists (new1 ++ new). simpl. rewrite Hrec, (assoc_L (++)). split_and!; [done | |].
    + change (file :: rows) with ([file] ++ rows). rewrite filter_app.
      by apply Forall2_app.
    + rewrite fmap_app, sum_list_with_app. unfold sum_list in *. lia.
Qed.

End extract_writes.

(** C9. Whenever [extractFiles] returns, [totalFiles] is the number of rows
    of [getAllFiles], and [totalSize] is the sum of the lengths of the
    bytes that were written: run over a directory that records its
    [writeFile] calls, it returns the same and the record holds one write
    for each row whose blob [getBlob] found, in order, at the row's path
    and with the bytes that the blob decompresses to, and none for a row
    without blob. So a skipped row lowers [totalSize] and not
    [totalFiles]. It does return when the output directory accepts every
    [mkdir] and [writeFile] and every stored blob that a row refers to
    decompresses. *)
Theorem extractFiles_totals `{Platform} `{OutputFs F} (store : Store)
    (outputPath : string) (fs : F) :
  (∀ r fs', extractFiles store outputPath fs = Ok (r, fs') →
     ExtractResult.totalFiles r = length (getAllFiles store)
     ∧ ExtractResult.totalSize r =
         sum_list (decompressed_length store <$> filter (blob_found store) (getAllFiles store))
     ∧ ∃ writes,
         @extractFiles _ _ recording store outputPath (fs, []) = Ok (r, (fs', writes))
         ∧ Forall2 (write_of store outputPath) (filter (blob_found store) (getAllFiles store))
             writes
         ∧ ExtractResult.totalSize r = sum_list (length ∘ snd <$> writes))
  ∧ ((∀ path fs, is_Ok (mkdir path fs)) →
     (∀ path data fs, is_Ok (writeFile path data fs)) →
     blobs_decompress store (getAllFiles store) →
     is_Ok (extractFiles store outputPath fs)).
Proof.
  unfold extractFiles. split.
  - intros r fs'.
    destruct (foldlM (extractFile store outputPath) _ _) as [st'|] eqn:Hloop; simpl; [|done].
    intros [= <- <-]. simpl. split; [done|]. split.
    { apply extract_loop_Ok in Hloop as [_ ->]; [done|]. apply cache_coherent_empty. }
    destruct (extract_loop_recorded store outputPath (getAllFiles store)
                {| ex_cache := ∅; ex_fs := fs; ex_processedFiles := 0; ex_totalSize := 0 |}
                st' [] (cache_coherent_empty store) Hloop)
      as (writes & Hrec & Hwrites & Hsize).
    exists writes. unfold with_writes in Hrec. simpl in Hrec. rewrite Hrec. simpl.
    split_and!; [done | done |]. by rewrite Hsize.
  - intros Hmkdir Hwrite Hdec.
    destruct (extract_loop_returns store outputPath (getAllFiles store)
      {| ex_cache := ∅; ex_fs := fs; ex_processedFiles := 0; ex_totalSize := 0 |}
      Hmkdir Hwrite Hdec) as [st' ->].
    simpl. by eexists.
Qed.

(** ** The packer *)

Lemma foldlM_invariant {A B} (f : B → A → result B) (P : list A → B → Prop) :
  (∀ done a b b', P done b → f b a = Ok b' → P (done ++ [a]) b') →
  ∀ l done b b', P done b → foldlM f l b = Ok b' → P (done ++ l) b'.
Proof.
  intros Hstep. induction l as [|a l IH]; intros done b b' HP; simpl.
  - intros [= <-]. by rewrite app_nil_r.
  - destruct (f b a) as [b1|] eqn:Hf; simpl; [|done].
    intros Hloop. rewrite (assoc_L _ done [a] l : done ++ a :: l = (done ++ [a]) ++ l).
    eapply IH; [|done]. by eapply Hstep.
Qed.

Section pack_loop.
Context `{Platform} (readFileSync : string → option (list byte)) (compressionLevel : Z).

(** The row of [blobs] that [packFile] inserts for [content]. *)
Definition blob_of (content : list byte) : BlobInfo.t :=
  {| BlobInfo.hash := sha256_hex content;
     BlobInfo.content := gzipSync content compressionLevel;
     BlobInfo.originalSize := length content;
     BlobInfo.compressedSize := length (gzipSync content compressionLevel) |}.

(** The row of [files] that [packFile] inserts for [file]. *)
Definition record_of (packageId : nat) (file : FileEntry.t) (content : list byte)
    : FileRecord.t :=
  {| FileRecord.packageId := packageId;
     FileRecord.relativePath := FileEntry.relativePath file;
     FileRecord.blobHash := sha256_hex content;
     FileRecord.mode := FileEntry.mode file;
     FileRecord.mtime := FileEntry.mtime file |}.

Lemma packFile_Ok (packageId : nat) (st st' : PackState) (file : FileEntry.t) :
  packFile readFileSync compressionLevel packageId st file = Ok st' →
  ∃ content,
    readFileSync (FileEntry.absolutePath file) = Some content
    ∧ pk_store st' =
        insertFile (record_of packageId file content) (insertBlob (blob_of content) (pk_store st))
    ∧ pk_processedFiles st' = S (pk_processedFiles st)
    ∧ pk_deduplicatedCount st' =
        (if hasBlob (sha256_hex content) (pk_store st)
         then S (pk_deduplicatedCount st) else pk_deduplicatedCount st).
Proof.
  unfold packFile, hashBuffer, compress, prepareInsertBlob, prepareInsertFile.
  destruct (readFileSync _) as [content|]; [|done].
  intros Hst. exists content. split; [done|].
  assert (insertBlob (blob_of content) (pk_store st) =
          if hasBlob (sha256_hex content) (pk_store st) then pk_store st
          else insertBlob (blob_of content) (pk_store st)) as ->.
  { unfold insertBlob. simpl. by destruct (hasBlob _ _). }
  destruct (hasBlob (sha256_hex content) (pk_store st)); simpl in Hst;
    injection Hst as <-; done.
Qed.

Lemma packFile_returns (packageId : nat) (st : PackState) (file : FileEntry.t) :
  is_Some (readFileSync (FileEntry.absolutePath file)) →
  is_Ok (packFile readFileSync compressionLevel packageId st file).
Proof.
  intros [content Hread]. unfold packFile. rewrite Hread.
  destruct (negb _); by eexists.
Qed.

Lemma packPackage_Ok (st st' : PackState) (pkg : ScannedPackage.t) :
  packPackage readFileSync compressionLevel st pkg = Ok st' →
  ∃ name version,
    bind_text (ScannedPackage.name pkg) = Ok name
    ∧ bind_text (ScannedPackage.version pkg) = Ok version
    ∧ let info := {| PackageInfo.name := name; PackageInfo.version := version;
                     PackageInfo.path := ScannedPackage.path pkg |} in
      foldlM (packFile readFileSync compressionLevel (insertPackage info (pk_store st)).1)
        (ScannedPackage.files pkg)
        {| pk_store := (insertPackage info (pk_store st)).2;
           pk_processedFiles := pk_processedFiles st;
           pk_deduplicatedCount := pk_deduplicatedCount st |} = Ok st'.
Proof.
  unfold packPackage.
  destruct (bind_text (ScannedPackage.name pkg)) as [name|]; simpl; [|done].
  destruct (bind_text (ScannedPackage.version pkg)) as [version|]; simpl; [|done].
  intros Hloop. exists name, version. split_and!; [done..|].
  simpl. by destruct (insertPackage _ _).
Qed.

(** A property [J] of the files packed so far and of the state of the
    loop that holds at the start, survives [insertPackage] and survives
    the packing of one more file, holds at the end. *)
Lemma packFiles_invariant (J : list FileEntry.t → PackState → Prop)
    (scanned : list ScannedPackage.t) (st st' : PackState) :
  (∀ done st info,
     J done st →
     J done {| pk_store := (insertPackage info (pk_store st)).2;
               pk_processedFiles := pk_processedFiles st;
               pk_deduplicatedCount := pk_deduplicatedCount st |}) →
  (∀ done st st1 packageId file,
     J done st → packFile readFileSync compressionLevel packageId st file = Ok st1 →
     J (done ++ [file]) st1) →
  J [] st →
  foldlM (packPackage readFileSync compressionLevel) scanned st = Ok st' →
  J (flat_map ScannedPackage.files scanned) st'.
Proof.
  intros Hpkg Hfile HJ Hloop.
  pose (P := λ (done : list ScannedPackage.t) b, J (flat_map ScannedPackage.files done) b).
  change (P scanned st'). rewrite <- (app_nil_l scanned).
  eapply (foldlM_invariant _ P); [|exact HJ|exact Hloop].
  clear st st' HJ Hloop. intros done pkg st st' HP Hstep. unfold P in *.
  apply packPackage_Ok in Hstep as (name & version & _ & _ & Hfiles). simpl in Hfiles.
  rewrite flat_map_app. simpl. rewrite app_nil_r.
  set (pre := flat_map ScannedPackage.files done) in *.
  assert (∀ files file b b',
    J (pre ++ files) b →
    packFile readFileSync compressionLevel
      (insertPackage
         {| PackageInfo.name := name; PackageInfo.version := version;
            PackageInfo.path := ScannedPackage.path pkg |} (pk_store st)).1 b file = Ok b' →
    J (pre ++ files ++ [file]) b') as Hinner.
  { intros files file b b' Hb Hfile'. rewrite (assoc_L (++)). by eapply Hfile. }
  apply (foldlM_invariant _ (λ files b, J (pre ++ files) b) Hinner
           (ScannedPackage.files pkg) [] _ st') in Hfiles; [done|].
  simpl. rewrite app_nil_r. by apply Hpkg.
Qed.

(** *** Digests *)

(** Each digest keys one row of [blobs], the row holds bytes that
    decompress to bytes with that digest, and every row of [files] refers
    to a row of [blobs]. *)
Definition digests_ok (db : Store) : Prop :=
  NoDup (BlobInfo.hash <$> blobs db)
  ∧ (∀ b, b ∈ blobs db →
       ∃ c, decompress (BlobInfo.content b) = Some c ∧ sha256_hex c = BlobInfo.hash b)
  ∧ (∀ f, f ∈ files db → FileRecord.blobHash f.2 ∈ BlobInfo.hash <$> blobs db).

Lemma insertFile_elem_of (r : FileRecord.t) (db : Store) (f : nat * FileRecord.t) :
  f ∈ files (insertFile r db) → f.2 = r ∨ f ∈ files db.
Proof.
  unfold insertFile. simpl. case_bool_decide.
  - intros (row & -> & Hrow)%list_elem_of_fmap.
    destruct (same_file_key row.2 r); [by left | by right].
  - intros [?| ->%list_elem_of_singleton]%elem_of_app; [by right | by left].
Qed.

Lemma digests_ok_insertPackage (info : PackageInfo.t) (db : Store) :
  digests_ok db → digests_ok (insertPackage info db).2.
Proof. unfold insertPackage. by destruct (find _ _). Qed.

Lemma digests_ok_insertBlob (content : list byte) (db : Store) :
  gunzipSync (gzipSync content compressionLevel) = Some content →
  digests_ok db → digests_ok (insertBlob (blob_of content) db).
Proof.
  intros Hcodec (Hnd & Hblobs & Hfiles). split_and!.
  - by apply insertBlob_NoDup.
  - unfold insertBlob. destruct (hasBlob _ db); [done|]. simpl.
    intros b [?| ->%list_elem_of_singleton]%elem_of_app; [by apply Hblobs|].
    exists content. done.
  - unfold insertBlob. destruct (hasBlob _ db); [done|]. simpl.
    intros f Hf. rewrite fmap_app. apply elem_of_app. left. by apply Hfiles.
Qed.

Lemma digests_ok_insertFile (r : FileRecord.t) (db : Store) :
  FileRecord.blobHash r ∈ BlobInfo.hash <$> blobs db →
  digests_ok db → digests_ok (insertFile r db).
Proof.
  intros Hr (Hnd & Hblobs & Hfiles). split_and!; [done..|].
  intros f [->|Hf]%insertFile_elem_of; [done | by apply Hfiles].
Qed.

Lemma packFiles_digests_ok (scanned : list ScannedPackage.t) (st st' : PackState) :
  (∀ content, gunzipSync (gzipSync content compressionLevel) = Some content) →
  digests_ok (pk_store st) →
  foldlM (packPackage readFileSync compressionLevel) scanned st = Ok st' →
  digests_ok (pk_store st').
Proof.
  intros Hcodec Hok Hloop.
  apply (packFiles_invariant (λ _ st, digests_ok (pk_store st)) scanned st st'); try done.
  - intros _ st0 info. apply digests_ok_insertPackage.
  - intros _ st0 st1 packageId file Hst0 (content & _ & -> & _)%packFile_Ok.
    apply digests_ok_insertFile.
    + apply hasBlob_true. exact (hasBlob_insertBlob (blob_of content) (pk_store st0)).
    + by apply digests_ok_insertBlob.
Qed.

(** *** Deduplication *)

(** How many of [files] hold the bytes [content]. *)
Definition copies (content : list byte) (files : list FileEntry.t) : nat :=
  length (filter (λ f, readFileSync (FileEntry.absolutePath f) = Some content) files).

(** Bytes packed at least once have their blob, and all but at most one
    of their copies have been counted as deduplicated. *)
Definition dedup_ok (files : list FileEntry.t) (st : PackState) : Prop :=
  ∀ content, 0 < copies content files →
    hasBlob (sha256_hex content) (pk_store st) = true
    ∧ copies content files ≤ S (pk_deduplicatedCount st).

Lemma hasBlob_insertBlob_mono (hash : string) (blob : BlobInfo.t) (db : Store) :
  hasBlob hash db = true → hasBlob hash (insertBlob blob db) = true.
Proof.
  rewrite !hasBlob_true. unfold insertBlob. destruct (hasBlob _ db); [done|].
  simpl. rewrite fmap_app. intros Hin. apply elem_of_app. by left.
Qed.

Lemma hasBlob_insertFile (hash : string) (r : FileRecord.t) (db : Store) :
  hasBlob hash (insertFile r db) = hasBlob hash db.
Proof. reflexivity. Qed.

Lemma hasBlob_insertPackage (hash : string) (info : PackageInfo.t) (db : Store) :
  hasBlob hash (insertPackage info db).2 = hasBlob hash db.
Proof. unfold insertPackage. by destruct (find _ _). Qed.

Lemma copies_snoc (content : list byte) (files : list FileEntry.t) (file : FileEntry.t) :
  copies content (files ++ [file]) =
  copies content files
  + (if decide (readFileSync (FileEntry.absolutePath file) = Some content) then 1 else 0).
Proof.
  unfold copies. rewrite filter_app, length_app, filter_cons, filter_nil.
  by case_decide.
Qed.

Lemma packFiles_dedup_ok (scanned : list ScannedPackage.t) (st st' : PackState) :
  dedup_ok [] st →
  foldlM (packPackage readFileSync compressionLevel) scanned st = Ok st' →
  dedup_ok (flat_map ScannedPackage.files scanned) st'.
Proof.
  intros Hok Hloop.
  apply (packFiles_invariant dedup_ok scanned st st'); try done.
  - intros done st0 info Hst0 content Hpos. simpl.
    rewrite hasBlob_insertPackage. by apply Hst0.
  - intros done st0 st1 packageId file Hst0 (d & Hread & Hstore & _ & Hdedup)%packFile_Ok
      content.
    rewrite copies_snoc, Hread, Hstore, Hdedup, hasBlob_insertFile.
    intros Hpos. case_decide as Hd.
    + injection Hd as ->.
      split; [exact (hasBlob_insertBlob (blob_of content) (pk_store st0))|].
      destruct (hasBlob (sha256_hex content) (pk_store st0)) eqn:Hhas.
      * destruct (decide (0 < copies content done)) as [Hc|Hc]; [|lia].
        destruct (Hst0 content Hc). lia.
      * destruct (decide (0 < copies content done)) as [Hc|Hc]; [|lia].
        destruct (Hst0 content Hc). congruence.
    + rewrite Nat.add_0_r in *. destruct (Hst0 content Hpos) as [Hhas Hle].
      split; [by apply hasBlob_insertBlob_mono|].
      destruct (hasBlob (sha256_hex d) (pk_store st0)); lia.
Qed.

End pack_loop.

(** What [pack] does, once it has found the tree: it scans, opens a store
    whose tables hold nothing but metadata, and runs [packFiles]. *)
Lemma pack_Ok `{Platform} (env : PackEnv) (options : PackOptions.t) (dedup : nat) (db : Store) :
  pack env options = Ok (dedup, db) →
  ∃ root scan store,
    env_tree env = Some root
    ∧ scanNodeModules (PackOptions.source options) root = Ok scan
    ∧ packages store = [] ∧ blobs store = [] ∧ files store = []
    ∧ packFiles (readFile (tree_view (PackOptions.source options) root))
        (PackOptions.compressionLevel options) (ScanResult.packages scan) store
      = Ok (dedup, db).
Proof.
  unfold pack, transaction. destruct (env_tree env) as [root|]; [|done].
  destruct (scanNodeModules _ root) as [scan|] eqn:Hscan; simpl; [|done].
  intros Hpack. exists root, scan.
  match type of Hpack with packFiles _ _ _ ?store = _ => exists store end.
  split_and!; try done; by destruct (PackOptions.includeLockfile options), (env_lockfile env).
Qed.

Lemma packFiles_Ok `{Platform} (readFileSync : string → option (list byte)) (level : Z)
    (scanned : list ScannedPackage.t) (store db : Store) (dedup : nat) :
  packFiles readFileSync level scanned store = Ok (dedup, db) →
  ∃ st, foldlM (packPackage readFileSync level) scanned
          {| pk_store := store; pk_processedFiles := 0; pk_deduplicatedCount := 0 |} = Ok st
        ∧ pk_deduplicatedCount st = dedup ∧ pk_store st = db.
Proof.
  unfold packFiles. destruct (foldlM _ _ _) as [st|]; simpl; [|done].
  intros [= <- <-]. by exists st.
Qed.

(** C2. In a snapshot that [pack] produced, every row of [files] refers to
    a row of [blobs] with that digest as its key, the stored content of
    that row decompresses to bytes whose SHA-256 digest is the key, and no
    digest keys two rows. The codec is assumed to invert itself at the
    level in use. *)
Theorem pack_digest_correct `{Platform} (env : PackEnv) (options : PackOptions.t)
    (dedup : nat) (db : Store) :
  (∀ content,
     gunzipSync (gzipSync content (PackOptions.compressionLevel options)) = Some content) →
  pack env options = Ok (dedup, db) →
  NoDup (BlobInfo.hash <$> blobs db)
  ∧ ∀ row, row ∈ files db →
      ∃ blob content,
        blob ∈ blobs db
        ∧ BlobInfo.hash blob = FileRecord.blobHash row.2
        ∧ decompress (BlobInfo.content blob) = Some content
        ∧ sha256_hex content = FileRecord.blobHash row.2.
Proof.
  intros Hcodec (root & scan & store & _ & _ & _ & Hblobs & Hfiles & Hpack)%pack_Ok.
  apply packFiles_Ok in Hpack as (st & Hloop & _ & <-).
  apply packFiles_digests_ok in Hloop as (Hnd & Hb & Hf); [|done|].
  - split; [done|]. intros row Hrow.
    apply Hf, list_elem_of_fmap in Hrow as (blob & Hhash & Hblob).
    destruct (Hb blob Hblob) as (content & Hdec & Hsha).
    exists blob, content. split_and!; [done | done | done | congruence].
  - simpl. unfold digests_ok. rewrite Hblobs, Hfiles.
    split_and!; [apply NoDup_nil_2 | |]; intros ? Hin; by apply elem_of_nil in Hin.
Qed.

(** The files that the Scanner emits for a tree: the regular files
    inside the package directories that the layout enumeration reaches and
    whose manifest [parsePackageJson] accepts. *)
Definition emitted_files `{Platform} (nodeModulesPath : string) (root : node)
    : list FileEntry.t :=
  match scanNodeModules nodeModulesPath root with
  | Ok scan => flat_map ScannedPackage.files (ScanResult.packages scan)
  | Err _ => []
  end.

(** C3, amended. When the Scanner emits [N > 0] files with the same bytes,
    a snapshot that [pack] produced has exactly one row of [blobs] keyed
    by the SHA-256 digest of those bytes, and the reported count of
    deduplicated files is at least [N - 1]. *)
Theorem pack_deduplication `{Platform} (env : PackEnv) (options : PackOptions.t)
    (root : node) (dedup : nat) (db : Store) (content : list byte) :
  env_tree env = Some root →
  pack env options = Ok (dedup, db) →
  0 < copies (readFile (tree_view (PackOptions.source options) root)) content
        (emitted_files (PackOptions.source options) root) →
  length (filter (λ b, BlobInfo.hash b = sha256_hex content) (blobs db)) = 1
  ∧ copies (readFile (tree_view (PackOptions.source options) root)) content
      (emitted_files (PackOptions.source options) root) - 1 ≤ dedup.
Proof.
  intros Htree Hpack.
  destruct (pack_Ok _ _ _ _ Hpack) as (root' & scan & store & Htree' & Hscan & _ & Hblobs & _ & Hfiles).
  rewrite Htree in Htree'. injection Htree' as <-.
  unfold emitted_files. rewrite Hscan.
  apply packFiles_Ok in Hfiles as (st & Hloop & <- & <-). intros Hpos.
  assert (NoDup (BlobInfo.hash <$> blobs (pk_store st))) as Hnd.
  { pose proof Hloop as Hloop'.
    apply (packFiles_invariant _ _ (λ _ st, NoDup (BlobInfo.hash <$> blobs (pk_store st))))
      in Hloop'; [done | | |].
    - intros _ st0 info. simpl. unfold insertPackage. by destruct (find _ _).
    - intros _ st0 st1 packageId file Hst0 (c & _ & -> & _)%packFile_Ok.
      by apply insertBlob_NoDup.
    - simpl. rewrite Hblobs. apply NoDup_nil_2. }
  apply packFiles_dedup_ok in Hloop.
  - destruct (Hloop content Hpos) as [Hhas Hle]. split; [|lia].
    apply hasBlob_true, list_elem_of_fmap in Hhas as (blob & -> & Hin).
    by rewrite (filter_key_unique BlobInfo.hash _ blob Hnd Hin).
  - intros c. unfold copies. simpl. lia.
Qed.

(** ** The scanner *)

(** What the specification says of one package directory: the manifest is
    read and parsed; [name] and [version] are taken from it, with their
    defaults; the directory is walked. *)
Definition manifest `{Platform} (d : PackageDir.t) : option json :=
  readFile_utf8 (lookup_entry "package.json" (PackageDir.entries d)) ≫= JSON_parse.

Definition has_member (v : json) (key : string) : Prop :=
  match v with
  | JObject members => key ∈ members.*1
  | _ => False
  end.

(** The member [key] of [v] when it has one that is truthy, [fallback]
    otherwise. *)
Definition member_or (v : json) (key fallback : string) : json :=
  match v with
  | JObject members => or_else (snd <$> find (λ m, bool_decide (m.1 = key)) members) fallback
  | _ => JString fallback
  end.

(** A manifest that cannot be read or parsed, or that is the value
    [null], yields no package. *)
Definition emitted_package `{Platform} (d : PackageDir.t) : option ScannedPackage.t :=
  match manifest d with
  | None | Some JNull => None
  | Some v =>
      Some {| ScannedPackage.name := member_or v "name" "unknown";
              ScannedPackage.version := member_or v "version" "0.0.0";
              ScannedPackage.path := PackageDir.relativePath d;
              ScannedPackage.files :=
                walkDir (PackageDir.entries d) (PackageDir.path d) (PackageDir.path d) |}
  end.

(** The directories that the layout enumeration yields. *)
Definition packageDirs (nodeModulesPath : string) (root : node) : result (list PackageDir.t) :=
  if isPnpmStructure root then findPnpmPackageDirs nodeModulesPath root
  else findPackageDirs nodeModulesPath root.

Lemma member_or_absent (v : json) (key fallback : string) :
  ¬ has_member v key → member_or v key fallback = JString fallback.
Proof.
  destruct v as [| | | | |members]; try done. simpl. intros Hno.
  destruct (find _ members) as [m|] eqn:Hfind; [|done].
  apply (find_key_Some fst) in Hfind as [Hin <-].
  exfalso. apply Hno. by apply list_elem_of_fmap_2.
Qed.

Section scan_loop.
Context `{Platform}.

Lemma parsePackageJson_manifest (d : PackageDir.t) :
  parsePackageJson (lookup_entry "package.json" (PackageDir.entries d)) =
  match manifest d with
  | None | Some JNull => None
  | Some v => Some (member_or v "name" "unknown", member_or v "version" "0.0.0")
  end.
Proof.
  unfold parsePackageJson, manifest.
  destruct (readFile_utf8 _) as [text|]; simpl; [|done].
  destruct (JSON_parse text) as [v|]; simpl; [|done].
  by destruct v.
Qed.

Lemma scanFiles_spec (walked acc : list FileEntry.t) (totalFiles totalSize : nat) :
  fold_left (λ '(files, tf, ts) file, (files ++ [file], S tf, ts + FileEntry.size file))
    walked (acc, totalFiles, totalSize)
  = (acc ++ walked, totalFiles + length walked,
     totalSize + sum_list (FileEntry.size <$> walked)).
Proof.
  revert acc totalFiles totalSize.
  induction walked as [|file walked IH]; intros acc tf ts.
  - simpl. by rewrite app_nil_r, !Nat.add_0_r.
  - rewrite fmap_cons. cbn [fold_left sum_list sum_list_with length].
    rewrite IH, <- (assoc_L (++)). f_equal; [f_equal|]; simpl; lia.
Qed.

Lemma scanPackage_spec (st : ScanState) (d : PackageDir.t) :
  sc_packages (scanPackage st d) = sc_packages st ++ option_list (emitted_package d)
  ∧ sc_packageCount (scanPackage st d) = S (sc_packageCount st).
Proof.
  unfold scanPackage, emitted_package. rewrite parsePackageJson_manifest.
  destruct (manifest d) as [v|]; [|by rewrite app_nil_r].
  unfold scanFiles. rewrite scanFiles_spec.
  destruct v; simpl; by rewrite ?app_nil_r.
Qed.

Lemma scanPackages_spec (dirs : list PackageDir.t) (st : ScanState) :
  sc_packages (fold_left scanPackage dirs st) = sc_packages st ++ omap emitted_package dirs.
Proof.
  revert st. induction dirs as [|d dirs IH]; intros st; simpl.
  - by rewrite app_nil_r.
  - rewrite IH. destruct (scanPackage_spec st d) as [-> _].
    rewrite <- (assoc_L (++)). by destruct (emitted_package d).
Qed.

End scan_loop.

(** C7, amended. The Scanner raises no error over manifests: when the
    layout enumeration yields the directories [dirs], the scan returns, and
    its packages are those of the directories, in order. A directory whose
    [package.json] cannot be read or parsed as JSON, or parses to [null],
    contributes no package; one whose manifest parses to any other value
    contributes one package, whose name is ["unknown"] when the manifest
    has no [name] and whose version is ["0.0.0"] when it has no [version]. *)
Theorem scan_manifest_tolerance `{Platform} (nodeModulesPath : string) (root : node)
    (dirs : list PackageDir.t) :
  packageDirs nodeModulesPath root = Ok dirs →
  (∃ scan, scanNodeModules nodeModulesPath root = Ok scan
           ∧ ScanResult.packages scan = omap emitted_package dirs)
  ∧ ∀ d,
      (manifest d = None ∨ manifest d = Some JNull → emitted_package d = None)
      ∧ (∀ v, manifest d = Some v → v ≠ JNull →
           ∃ pkg, emitted_package d = Some pkg
             ∧ ScannedPackage.path pkg = PackageDir.relativePath d
             ∧ (¬ has_member v "name" → ScannedPackage.name pkg = JString "unknown")
             ∧ (¬ has_member v "version" → ScannedPackage.version pkg = JString "0.0.0")).
Proof.
  intros Hdirs. split.
  - unfold scanNodeModules. fold (packageDirs nodeModulesPath root). rewrite Hdirs. simpl.
    eexists. split; [done|]. unfold scanPackages. simpl. by rewrite scanPackages_spec.
  - intros d. unfold emitted_package. split.
    + by intros [-> | ->].
    + intros v -> Hv.
      destruct v; try done; eexists; (split; [reflexivity|]);
        cbn [ScannedPackage.path ScannedPackage.name ScannedPackage.version];
        split_and!; try done; intros Hno; by apply member_or_absent.
Qed.

(** The claim as the specification states it, for one tree: a directory
    whose manifest parses and has no [name] (or no [version]) gets a
    package with the default in its place. *)
Definition stated_manifest_defaults `{Platform} (nodeModulesPath : string) (root : node)
    : Prop :=
  ∀ dirs d v,
    packageDirs nodeModulesPath root = Ok dirs → d ∈ dirs →
    manifest d = Some v → ¬ has_member v "name" →
    ∃ scan pkg,
      scanNodeModules nodeModulesPath root = Ok scan
      ∧ pkg ∈ ScanResult.packages scan
      ∧ ScannedPackage.path pkg = PackageDir.relativePath d
      ∧ ScannedPackage.name pkg = JString "unknown".

(** A [package.json] that holds the JSON text [null] parses, has no
    name, and its directory is skipped. *)
Lemma null_manifest_skipped :
  ¬ @stated_manifest_defaults demo_platform "/proj/node_modules" tree_null_manifest.
Proof.
  intros Hclaim.
  destruct (Hclaim
    [ {| PackageDir.path := "/proj/node_modules/a"; PackageDir.relativePath := "a";
         PackageDir.entries :=
           [("package.json", regular "null"); ("index.js", regular "hello")] |} ]
    {| PackageDir.path := "/proj/node_modules/a"; PackageDir.relativePath := "a";
       PackageDir.entries :=
         [("package.json", regular "null"); ("index.js", regular "hello")] |}
    JNull) as (scan & pkg & Hscan & Hin & _).
  - reflexivity.
  - by left.
  - reflexivity.
  - simpl. tauto.
  - vm_compute in Hscan. injection Hscan as <-. simpl in Hin. by apply elem_of_nil in Hin.
Qed.

(** C8. A tree whose root holds a regular file named [.pnpm], and so no
    child directory of that name, beside a flat package [a]: the flat
    enumeration would find [a], but [isPnpmStructure] answers true and the
    scan ends in the ENOTDIR of [readdir] on the file. *)
Theorem pnpm_file_breaks_scan :
  child tree_pnpm_file ".pnpm" = Some (regular "x")
  ∧ isDirectory (regular "x") = false
  ∧ isPnpmStructure tree_pnpm_file = true
  ∧ findPackageDirs "/proj/node_modules" tree_pnpm_file
    = Ok [ {| PackageDir.path := "/proj/node_modules/a";
              PackageDir.relativePath := "a";
              PackageDir.entries :=
                [("package.json", regular manifest_a); ("index.js", regular "hello")] |} ]
  ∧ @scanNodeModules demo_platform "/proj/node_modules" tree_pnpm_file
    = Err (ENOTDIR "/proj/node_modules/.pnpm").
Proof. split_and!; reflexivity. Qed.

(** ** Round trip: from the scan result to the output directory *)

(** The ids of [packages] are unique, and every row of [files] refers to
    one of them. *)
Definition store_wf (db : Store) : Prop :=
  NoDup (fst <$> packages db)
  ∧ ∀ f, f ∈ files db → FileRecord.packageId f.2 ∈ fst <$> packages db.

(** The row of [getAllFiles] for the row [f] of [files] and the row [p]
    of [packages]. *)
Definition joined_row (f : nat * FileRecord.t) (p : nat * PackageInfo.t) : FileRow.t :=
  {| FileRow.id := f.1;
     FileRow.packageId := FileRecord.packageId f.2;
     FileRow.relativePath := FileRecord.relativePath f.2;
     FileRow.blobHash := FileRecord.blobHash f.2;
     FileRow.mode := FileRecord.mode f.2;
     FileRow.mtime := FileRecord.mtime f.2;
     FileRow.packagePath := PackageInfo.path p.2 |}.

Lemma getAllFiles_unfold (db : Store) :
  getAllFiles db =
  flat_map (λ f, joined_row f <$> filter (λ p, p.1 = FileRecord.packageId f.2) (packages db))
    (files db).
Proof. reflexivity. Qed.

Lemma flat_map_ext_elem {A B} (f g : A → list B) (l : list A) :
  (∀ x, x ∈ l → f x = g x) → flat_map f l = flat_map g l.
Proof.
  induction l as [|a l IH]; intros Hfg; simpl; [done|].
  rewrite Hfg by (by left). f_equal. apply IH. intros x Hx. apply Hfg. by right.
Qed.

Lemma getAllFiles_insertBlob (blob : BlobInfo.t) (db : Store) :
  getAllFiles (insertBlob blob db) = getAllFiles db.
Proof. unfold insertBlob. by destruct (hasBlob _ db). Qed.

Lemma store_wf_insertBlob (blob : BlobInfo.t) (db : Store) :
  store_wf db → store_wf (insertBlob blob db).
Proof. unfold insertBlob. by destruct (hasBlob _ db). Qed.

Lemma insertPackage_elem_of `{Platform} (info : PackageInfo.t) (db : Store) :
  ((insertPackage info db).1, info) ∈ packages (insertPackage info db).2.
Proof.
  unfold insertPackage. destruct (find _ (packages db)) as [row|] eqn:Hfind; simpl.
  - apply (find_key_Some snd) in Hfind as [Hin <-]. by destruct row.
  - apply elem_of_app. right. by apply list_elem_of_singleton.
Qed.

Lemma store_wf_insertPackage `{Platform} (info : PackageInfo.t) (db : Store) :
  store_wf db → store_wf (insertPackage info db).2.
Proof.
  intros [Hids Hfiles]. unfold insertPackage.
  destruct (find _ (packages db)); [done|]. split; simpl.
  - rewrite fmap_app. apply NoDup_app. split_and!; [done | | apply NoDup_singleton].
    intros id Hid ->%list_elem_of_singleton. by apply next_id_fresh in Hid.
  - intros f Hf. rewrite fmap_app. apply elem_of_app. left. by apply Hfiles.
Qed.

Lemma getAllFiles_insertPackage `{Platform} (info : PackageInfo.t) (db : Store) :
  store_wf db → getAllFiles (insertPackage info db).2 = getAllFiles db.
Proof.
  intros [Hids Hfiles]. unfold insertPackage.
  destruct (find _ (packages db)); [done|]. rewrite !getAllFiles_unfold. simpl.
  apply flat_map_ext_elem. intros f Hf. rewrite filter_app, filter_cons, filter_nil.
  rewrite decide_False; [by rewrite app_nil_r|]. simpl. intros Hid.
  apply (next_id_fresh "packages" (packages db)). rewrite Hid. by apply Hfiles.
Qed.

Lemma elem_of_getAllFiles (db : Store) (f : nat * FileRecord.t) (p : nat * PackageInfo.t) :
  f ∈ files db → p ∈ packages db → p.1 = FileRecord.packageId f.2 →
  joined_row f p ∈ getAllFiles db.
Proof.
  intros Hf Hp Hid. rewrite getAllFiles_unfold, list_elem_of_In, in_flat_map.
  exists f. split; [by apply list_elem_of_In|]. apply list_elem_of_In.
  apply list_elem_of_fmap_2. by apply list_elem_of_filter.
Qed.

Lemma getAllFiles_insertFile `{Platform} (r : FileRecord.t) (info : PackageInfo.t) (db : Store) :
  store_wf db →
  (FileRecord.packageId r, info) ∈ packages db →
  (PackageInfo.path info, FileRecord.relativePath r)
    ∉ ((λ row, (FileRow.packagePath row, FileRow.relativePath row)) <$> getAllFiles db) →
  store_wf (insertFile r db)
  ∧ getAllFiles (insertFile r db) =
      getAllFiles db ++ [joined_row (next_id "files" (files db), r) (FileRecord.packageId r, info)].
Proof.
  intros [Hids Hfiles] Hinfo Hnew.
  assert (¬ Exists (λ row, same_file_key row.2 r) (files db)) as Hfree.
  { intros (row & Hrow & [Hid Hrel]%bool_decide_unpack)%Exists_exists. apply Hnew.
    apply list_elem_of_fmap. exists (joined_row row (FileRecord.packageId r, info)).
    split; [by simpl; rewrite Hrel|]. by apply elem_of_getAllFiles. }
  unfold insertFile. rewrite bool_decide_eq_false_2 by done. split.
  - split; simpl; [done|].
    intros f [Hf| ->%list_elem_of_singleton]%elem_of_app; [by apply Hfiles|].
    by apply (list_elem_of_fmap_2 fst) in Hinfo.
  - rewrite !getAllFiles_unfold. simpl. rewrite flat_map_app. simpl. rewrite app_nil_r.
    f_equal. by rewrite (filter_key_unique fst _ (FileRecord.packageId r, info) Hids Hinfo).
Qed.

Section pack_rows.
Context `{Platform} (readFileSync : string → option (list byte)) (level : Z).

(** The bytes of an emitted file at pack time. *)
Definition content_of (file : FileEntry.t) : list byte :=
  default [] (readFileSync (FileEntry.absolutePath file)).

(** What a row of [getAllFiles] shows, less the ids and the time. *)
Definition shown (row : FileRow.t) : string * string * string * Z :=
  (FileRow.packagePath row, FileRow.relativePath row, FileRow.blobHash row, FileRow.mode row).

Definition row_key (row : FileRow.t) : string * string :=
  (FileRow.packagePath row, FileRow.relativePath row).

(** What the row of an emitted file of the package at [path] should show. *)
Definition expected_row (path : string) (file : FileEntry.t) : string * string * string * Z :=
  (path, FileEntry.relativePath file, sha256_hex (content_of file), FileEntry.mode file).

Definition expected_rows (scanned : list ScannedPackage.t) : list (string * string * string * Z) :=
  flat_map (λ pkg, expected_row (ScannedPackage.path pkg) <$> ScannedPackage.files pkg) scanned.

Definition file_key (path : string) (file : FileEntry.t) : string * string :=
  (path, FileEntry.relativePath file).

Definition scanned_keys (scanned : list ScannedPackage.t) : list (string * string) :=
  flat_map (λ pkg, file_key (ScannedPackage.path pkg) <$> ScannedPackage.files pkg) scanned.

Definition readable (files : list FileEntry.t) : Prop :=
  ∀ f, f ∈ files → is_Some (readFileSync (FileEntry.absolutePath f)).

(** [name] and [version] are values that their columns take. *)
Definition bindable (pkg : ScannedPackage.t) : Prop :=
  (∃ name, bind_text (ScannedPackage.name pkg) = Ok name)
  ∧ (∃ version, bind_text (ScannedPackage.version pkg) = Ok version).

Lemma packages_insertBlob (blob : BlobInfo.t) (db : Store) :
  packages (insertBlob blob db) = packages db.
Proof. unfold insertBlob. by destruct (hasBlob _ db). Qed.

Lemma packages_insertFile (r : FileRecord.t) (db : Store) :
  packages (insertFile r db) = packages db.
Proof. reflexivity. Qed.

Lemma pack_files_rows (packageId : nat) (info : PackageInfo.t) (files : list FileEntry.t)
    (st : PackState) :
  store_wf (pk_store st) →
  (packageId, info) ∈ packages (pk_store st) →
  readable files →
  NoDup ((row_key <$> getAllFiles (pk_store st)) ++ (file_key (PackageInfo.path info) <$> files)) →
  ∃ st', foldlM (packFile readFileSync level packageId) files st = Ok st'
    ∧ store_wf (pk_store st')
    ∧ (shown <$> getAllFiles (pk_store st')) =
        (shown <$> getAllFiles (pk_store st)) ++ (expected_row (PackageInfo.path info) <$> files).
Proof.
  revert st. induction files as [|file files IH]; intros st Hwf Hinfo Hread Hnd.
  - exists st. simpl. by rewrite app_nil_r.
  - destruct (packFile_returns readFileSync level packageId st file) as [st1 Hst1].
    { apply Hread. by left. }
    simpl. rewrite Hst1. simpl.
    destruct (packFile_Ok _ _ _ _ _ _ Hst1) as (content & Hcontent & Hstore & _).
    destruct (getAllFiles_insertFile (record_of packageId file content) info
                (insertBlob (blob_of level content) (pk_store st))) as [Hwf1 Hrows1].
    { by apply store_wf_insertBlob. }
    { by rewrite packages_insertBlob. }
    { rewrite getAllFiles_insertBlob. rewrite fmap_cons in Hnd.
      apply NoDup_app in Hnd as (_ & Hdisj & _). intros Hin.
      apply (Hdisj _ Hin). by left. }
    rewrite <- Hstore, getAllFiles_insertBlob in Hrows1.
    destruct (IH st1) as (st' & Hloop & Hwf' & Hrows').
    + by rewrite Hstore.
    + by rewrite Hstore, packages_insertFile, packages_insertBlob.
    + intros f Hf. apply Hread. by right.
    + rewrite Hrows1, fmap_app, <- (assoc_L (++)). exact Hnd.
    + exists st'. split_and!; [done..|].
      rewrite Hrows', Hrows1, fmap_app, <- (assoc_L (++)). do 2 f_equal.
      unfold expected_row, content_of. by rewrite Hcontent.
Qed.

Lemma pack_packages_rows (scanned : list ScannedPackage.t) (st : PackState) :
  store_wf (pk_store st) →
  Forall bindable scanned →
  readable (flat_map ScannedPackage.files scanned) →
  NoDup ((row_key <$> getAllFiles (pk_store st)) ++ scanned_keys scanned) →
  ∃ st', foldlM (packPackage readFileSync level) scanned st = Ok st'
    ∧ store_wf (pk_store st')
    ∧ (shown <$> getAllFiles (pk_store st')) =
        (shown <$> getAllFiles (pk_store st)) ++ expected_rows scanned.
Proof.
  revert st. induction scanned as [|pkg scanned IH]; intros st Hwf Hbind Hread Hnd.
  - exists st. simpl. by rewrite app_nil_r.
  - apply Forall_cons in Hbind as [[[name Hname] [version Hversion]] Hbind].
    pose (info := {| PackageInfo.name := name; PackageInfo.version := version;
                     PackageInfo.path := ScannedPackage.path pkg |}).
    unfold scanned_keys in Hnd. simpl in Hnd. rewrite (assoc_L (++)) in Hnd.
    destruct (pack_files_rows (insertPackage info (pk_store st)).1 info
                (ScannedPackage.files pkg)
                {| pk_store := (insertPackage info (pk_store st)).2;
                   pk_processedFiles := pk_processedFiles st;
                   pk_deduplicatedCount := pk_deduplicatedCount st |})
      as (st1 & Hfiles & Hwf1 & Hrows1).
    + by apply store_wf_insertPackage.
    + apply insertPackage_elem_of.
    + intros f Hf. apply Hread. simpl. apply elem_of_app. by left.
    + simpl. rewrite getAllFiles_insertPackage by done.
      by apply NoDup_app in Hnd as (Hnd & _ & _).
    + simpl in Hrows1. rewrite getAllFiles_insertPackage in Hrows1 by done.
      destruct (IH st1) as (st' & Hloop & Hwf' & Hrows'); [done | done | | |].
      * intros f Hf. apply Hread. simpl. apply elem_of_app. by right.
      * assert ((row_key <$> getAllFiles (pk_store st1)) =
                (row_key <$> getAllFiles (pk_store st))
                ++ (file_key (ScannedPackage.path pkg) <$> ScannedPackage.files pkg)) as ->.
        { change row_key with ((λ v : string * string * string * Z, (v.1.1.1, v.1.1.2)) ∘ shown).
          rewrite !list_fmap_compose, Hrows1, fmap_app. f_equal.
          rewrite <- list_fmap_compose. done. }
        exact Hnd.
      * exists st'. split_and!; [|done|].
        -- simpl. unfold packPackage. rewrite Hname, Hversion. simpl.
           fold info. destruct (insertPackage info (pk_store st)). simpl in *.
           by rewrite Hfiles.
        -- rewrite Hrows', Hrows1. unfold expected_rows. simpl.
           by rewrite (assoc_L (++)).
Qed.

End pack_rows.

Section blobs_packed.
Context `{Platform} (readFileSync : string → option (list byte)) (level : Z).

(** No two of the files have different bytes with the same digest. *)
Definition collision_free (files : list FileEntry.t) : Prop :=
  ∀ f g, f ∈ files → g ∈ files →
    sha256_hex (content_of readFileSync f) = sha256_hex (content_of readFileSync g) →
    content_of readFileSync f = content_of readFileSync g.

(** Every row of [blobs] was inserted for one of the files packed so far. *)
Definition blobs_from (files : list FileEntry.t) (st : PackState) : Prop :=
  ∀ b, b ∈ blobs (pk_store st) →
    ∃ f, f ∈ files ∧ b = blob_of level (content_of readFileSync f).

Lemma packFiles_blobs_from (scanned : list ScannedPackage.t) (st st' : PackState) :
  blobs (pk_store st) = [] →
  foldlM (packPackage readFileSync level) scanned st = Ok st' →
  blobs_from (flat_map ScannedPackage.files scanned) st'.
Proof.
  intros Hempty Hloop.
  apply (packFiles_invariant readFileSync level blobs_from scanned st st'); try done.
  - intros done st0 info Hst0 b. simpl. unfold insertPackage.
    destruct (find _ _); apply Hst0.
  - intros done st0 st1 packageId file Hst0 (content & Hread & Hstore & _)%packFile_Ok b.
    rewrite Hstore. simpl. unfold insertBlob. destruct (hasBlob _ _); simpl.
    + intros (f & Hf & ->)%Hst0. exists f. split; [|done]. apply elem_of_app. by left.
    + intros [(f & Hf & ->)%Hst0 | ->%list_elem_of_singleton]%elem_of_app.
      * exists f. split; [|done]. apply elem_of_app. by left.
      * exists file. split; [apply elem_of_app; right; by apply list_elem_of_singleton|].
        unfold content_of. by rewrite Hread.
  - intros b. rewrite Hempty. by intros ?%elem_of_nil.
Qed.

(** After the loop the store gives back the bytes of every packed file
    under their digest. *)
Lemma packFiles_blob_content (scanned : list ScannedPackage.t) (st st' : PackState)
    (file : FileEntry.t) :
  (∀ content, gunzipSync (gzipSync content level) = Some content) →
  collision_free (flat_map ScannedPackage.files scanned) →
  readable readFileSync (flat_map ScannedPackage.files scanned) →
  blobs (pk_store st) = [] →
  foldlM (packPackage readFileSync level) scanned st = Ok st' →
  file ∈ flat_map ScannedPackage.files scanned →
  blob_content (pk_store st') (sha256_hex (content_of readFileSync file))
  = Some (content_of readFileSync file).
Proof.
  intros Hcodec Hfree Hread Hempty Hloop Hfile.
  pose proof (packFiles_blobs_from _ _ _ Hempty Hloop) as Hfrom.
  pose proof Hloop as Hdedup. apply packFiles_dedup_ok in Hdedup.
  2: { intros c. unfold copies. simpl. lia. }
  destruct (Hread file Hfile) as [content Hcontent].
  assert (content_of readFileSync file = content) as Hc.
  { unfold content_of. by rewrite Hcontent. }
  destruct (Hdedup content) as [Hhas _].
  { unfold copies.
    assert (file ∈ filter (λ f, readFileSync (FileEntry.absolutePath f) = Some content)
                     (flat_map ScannedPackage.files scanned)) as Hin.
    { by apply list_elem_of_filter. }
    destruct (filter _ _); [by apply elem_of_nil in Hin | simpl; lia]. }
  rewrite Hc. unfold blob_content, getBlob.
  destruct (find_key_is_Some BlobInfo.hash (sha256_hex content) (blobs (pk_store st')))
    as [b Hb].
  { apply hasBlob_true, list_elem_of_fmap in Hhas as (b & Hb & Hin).
    apply Exists_exists. by exists b. }
  rewrite Hb. simpl. apply (find_key_Some BlobInfo.hash) in Hb as [Hin Hhash].
  destruct (Hfrom b Hin) as (g & Hg & ->). simpl in *.
  rewrite <- Hc in Hhash. apply Hfree in Hhash; [|done..].
  unfold decompress. by rewrite Hhash, Hc, Hcodec.
Qed.

End blobs_packed.

Lemma fold_left_fmap {A B C} (f : C → B → C) (g : A → B) (l : list A) (c : C) :
  fold_left f (g <$> l) c = fold_left (λ c x, f c (g x)) l c.
Proof. revert c. induction l as [|a l IH]; intros c; simpl; [done | apply IH]. Qed.

Lemma fold_left_ext_elem {A C} (f g : C → A → C) (l : list A) (c : C) :
  (∀ c x, x ∈ l → f c x = g c x) → fold_left f l c = fold_left g l c.
Proof.
  revert c. induction l as [|a l IH]; intros c Hfg; simpl; [done|].
  rewrite Hfg by (by left). apply IH. intros c' x Hx. apply Hfg. by right.
Qed.

(** Writing a list of files with distinct paths, one after the other. *)
Lemma fold_left_insert_list_to_map {V} (l : list (string * V)) (m : gmap string V) :
  NoDup l.*1 → (∀ k, k ∈ l.*1 → m !! k = None) →
  fold_left (λ fs kv, <[kv.1 := kv.2]> fs) l m = list_to_map l ∪ m.
Proof.
  revert m. induction l as [|[k v] l IH]; intros m Hnd Hfresh; simpl.
  - by rewrite (left_id_L ∅ (∪)).
  - rewrite fmap_cons in Hnd. apply NoDup_cons in Hnd as [Hk Hnd]. rewrite IH; [|done|].
    + rewrite <- insert_union_l. symmetry. apply insert_union_r.
      by apply not_elem_of_list_to_map_1.
    + intros k' Hk'. rewrite lookup_insert_ne; [|by intros ->].
      apply Hfresh. simpl. by right.
Qed.

Section extract_clean.
Context `{Platform} (umask : Z) (db : Store) (outputPath : string).

#[local] Instance clean_output : OutputFs (gmap string OutFile.t) := clean_dir umask.

(** What the extractor leaves for a row shown as [v]: at the joined path,
    the bytes of the blob, with the low nine bits of the mode. *)
Definition put (v : string * string * string * Z) (fs : gmap string OutFile.t)
    : gmap string OutFile.t :=
  match blob_content db v.1.2 with
  | Some content =>
      <[join [outputPath; v.1.1.1; v.1.1.2] :=
          {| OutFile.content := content; OutFile.perm := Z.land v.2 mode_0o777 |}]> fs
  | None => fs
  end.

Lemma extractFile_clean (st : ExtractState (gmap string OutFile.t)) (row : FileRow.t) :
  cache_coherent db (ex_cache st) →
  is_Some (blob_content db (FileRow.blobHash row)) →
  FileRow.mode row ≠ 0%Z →
  ∃ st', extractFile db outputPath st row = Ok st'
    ∧ cache_coherent db (ex_cache st')
    ∧ ex_fs st' = put (shown row) (ex_fs st).
Proof.
  intros Hcoh [c Hc] Hmode. unfold extractFile. simpl.
  destruct (getContent_returns db (ex_cache st) (FileRow.blobHash row))
    as [[content cache'] Hget].
  { intros compressed Hblob. unfold blob_content in Hc. rewrite Hblob in Hc. by eexists. }
  rewrite Hget. simpl.
  apply getContent_Ok in Hget as (Hcoh' & Hsome & Hcontent); [|done].
  destruct content as [c'|].
  - rewrite (Hcontent c' eq_refl) in Hc. injection Hc as ->.
    rewrite bool_decide_eq_true_2 by done.
    unfold clean_chmod, clean_writeFile. rewrite lookup_insert_eq. simpl.
    eexists. split_and!; [done | done |]. simpl.
    unfold put, shown. simpl. rewrite (Hcontent c eq_refl). by rewrite insert_insert_eq.
  - exfalso. unfold blob_content in Hc.
    destruct (getBlob (FileRow.blobHash row) db) as [compressed|] eqn:Hblob; [|done].
    assert (is_Some (None : option (list byte))) as [? ?]; [|done].
    apply Hsome. by eexists.
Qed.

Lemma extract_loop_clean (rows : list FileRow.t) (st : ExtractState (gmap string OutFile.t)) :
  cache_coherent db (ex_cache st) →
  (∀ row, row ∈ rows →
     is_Some (blob_content db (FileRow.blobHash row)) ∧ FileRow.mode row ≠ 0%Z) →
  ∃ st', foldlM (extractFile db outputPath) rows st = Ok st'
    ∧ ex_fs st' = fold_left (λ fs v, put v fs) (shown <$> rows) (ex_fs st).
Proof.
  revert st. induction rows as [|row rows IH]; intros st Hcoh Hrows; simpl.
  - by exists st.
  - destruct (Hrows row) as [Hblob Hmode]; [by left|].
    destruct (extractFile_clean st row Hcoh Hblob Hmode) as (st1 & -> & Hcoh1 & Hfs1).
    simpl. destruct (IH st1 Hcoh1) as (st' & Hloop & Hfs').
    { intros r Hr. apply Hrows. by right. }
    exists st'. split; [done|]. by rewrite Hfs', Hfs1.
Qed.

End extract_clean.

Lemma fmap_flat_map {A B C} (f : B → C) (g : A → list B) (l : list A) :
  f <$> flat_map g l = flat_map (λ x, f <$> g x) l.
Proof. induction l as [|a l IH]; simpl; [done|]. by rewrite fmap_app, IH. Qed.

Lemma flat_map_fmap_fmap {A B C D} (f : C → D) (h : A → B → C) (g : A → list B) (l : list A) :
  flat_map (λ x, (λ y, f (h x y)) <$> g x) l = f <$> flat_map (λ x, h x <$> g x) l.
Proof.
  rewrite fmap_flat_map. apply flat_map_ext_elem. intros x _.
  by rewrite <- list_fmap_compose.
Qed.

Section round_trip.
Context `{Platform} (readFileSync : string → option (list byte)) (level : Z).
Context (umask : Z) (outputPath : string).

(** The emitted files, each with the path of its package. *)
Definition emitted_pairs (scanned : list ScannedPackage.t) : list (string * FileEntry.t) :=
  flat_map (λ pkg, pair (ScannedPackage.path pkg) <$> ScannedPackage.files pkg) scanned.

(** Where the round trip puts an emitted file, and what it puts there. *)
Definition output_entry (x : string * FileEntry.t) : string * OutFile.t :=
  (join [outputPath; x.1; FileEntry.relativePath x.2],
   {| OutFile.content := content_of readFileSync x.2;
      OutFile.perm := Z.land (FileEntry.mode x.2) mode_0o777 |}).

Definition expected_output (scanned : list ScannedPackage.t) : list (string * OutFile.t) :=
  output_entry <$> emitted_pairs scanned.

Lemma expected_rows_pairs (scanned : list ScannedPackage.t) :
  expected_rows readFileSync scanned =
  (λ x, expected_row readFileSync x.1 x.2) <$> emitted_pairs scanned.
Proof. unfold expected_rows, emitted_pairs. by rewrite <- flat_map_fmap_fmap. Qed.

Lemma scanned_keys_pairs (scanned : list ScannedPackage.t) :
  scanned_keys scanned = (λ x, file_key x.1 x.2) <$> emitted_pairs scanned.
Proof. unfold scanned_keys, emitted_pairs. by rewrite <- flat_map_fmap_fmap. Qed.

Lemma emitted_pairs_files (scanned : list ScannedPackage.t) :
  snd <$> emitted_pairs scanned = flat_map ScannedPackage.files scanned.
Proof.
  unfold emitted_pairs. rewrite fmap_flat_map. apply flat_map_ext_elem. intros pkg _.
  rewrite <- list_fmap_compose. apply list_fmap_id.
Qed.

(** From a store with empty tables, [packFiles] and then [extractFiles]
    into a clean, empty directory leave exactly the expected output. *)
Lemma scanned_round_trip (scanned : list ScannedPackage.t) (store : Store) :
  packages store = [] → blobs store = [] → files store = [] →
  (∀ content, gunzipSync (gzipSync content level) = Some content) →
  Forall bindable scanned →
  readable readFileSync (flat_map ScannedPackage.files scanned) →
  collision_free readFileSync (flat_map ScannedPackage.files scanned) →
  (∀ f, f ∈ flat_map ScannedPackage.files scanned → FileEntry.mode f ≠ 0%Z) →
  NoDup (expected_output scanned).*1 →
  ∃ dedup db r,
    packFiles readFileSync level scanned store = Ok (dedup, db)
    ∧ @extractFiles _ _ (clean_dir umask) db outputPath ∅
      = Ok (r, list_to_map (expected_output scanned)).
Proof.
  intros Hpackages Hblobs Hfiles Hcodec Hbind Hread Hfree Hmode Hnd.
  set (st0 := {| pk_store := store; pk_processedFiles := 0; pk_deduplicatedCount := 0 |}).
  assert (getAllFiles store = []) as Hrows0.
  { rewrite getAllFiles_unfold. by rewrite Hfiles. }
  destruct (pack_packages_rows readFileSync level scanned st0) as (st' & Hloop & _ & Hrows).
  { split; simpl; rewrite ?Hpackages, ?Hfiles; [apply NoDup_nil_2|].
    by intros f ?%elem_of_nil. }
  { done. }
  { done. }
  { simpl. rewrite Hrows0. simpl. rewrite scanned_keys_pairs.
    unfold expected_output in Hnd. rewrite <- list_fmap_compose in Hnd.
    apply (NoDup_fmap_1 (λ k : string * string, join [outputPath; k.1; k.2])).
    by rewrite <- list_fmap_compose. }
  simpl in Hrows. rewrite Hrows0 in Hrows. simpl in Hrows.
  exists (pk_deduplicatedCount st'), (pk_store st').
  assert (∀ x, x ∈ emitted_pairs scanned →
    blob_content (pk_store st') (sha256_hex (content_of readFileSync x.2))
    = Some (content_of readFileSync x.2)) as Hcontent.
  { intros x Hx. apply (packFiles_blob_content readFileSync level scanned st0); try done.
    rewrite <- emitted_pairs_files. by apply list_elem_of_fmap_2. }
  destruct (extract_loop_clean umask (pk_store st') outputPath (getAllFiles (pk_store st'))
    {| ex_cache := ∅; ex_fs := ∅; ex_processedFiles := 0; ex_totalSize := 0 |})
    as (ex & Hex & Hfs).
  { apply cache_coherent_empty. }
  { intros row Hrow. apply (list_elem_of_fmap_2 shown) in Hrow.
    rewrite Hrows, expected_rows_pairs in Hrow.
    apply list_elem_of_fmap in Hrow as (x & Hshown & Hx).
    injection Hshown as _ _ -> ->. split.
    - rewrite (Hcontent x Hx). by eexists.
    - apply Hmode. rewrite <- emitted_pairs_files. by apply list_elem_of_fmap_2. }
  eexists. split.
  { unfold packFiles. fold st0. by rewrite Hloop. }
  unfold extractFiles. unfold clean_output in Hex. rewrite Hex. simpl. do 2 f_equal.
  rewrite Hfs. simpl. rewrite Hrows, expected_rows_pairs, fold_left_fmap.
  rewrite (fold_left_ext_elem _ (λ fs x, <[(output_entry x).1 := (output_entry x).2]> fs)).
  - rewrite <- (fold_left_fmap (λ fs kv, <[kv.1 := kv.2]> fs) output_entry).
    rewrite fold_left_insert_list_to_map; [|done|].
    + by rewrite (right_id_L ∅ (∪)).
    + intros k _. apply lookup_empty.
  - intros fs x Hx. unfold put. simpl. by rewrite (Hcontent x Hx).
Qed.

End round_trip.

(** ** Paths *)

Lemma append_assoc (a b c : string) : (a +:+ b) +:+ c = a +:+ (b +:+ c).
Proof.
  induction a as [|x a IH]; [done|].
  change (String x ((a +:+ b) +:+ c) = String x (a +:+ (b +:+ c))). by rewrite IH.
Qed.

Lemma append_nil_r (a : string) : a +:+ EmptyString = a.
Proof.
  induction a as [|x a IH]; [done|].
  change (String x (a +:+ EmptyString) = String x a). by rewrite IH.
Qed.

Lemma append_length (a b : string) :
  String.length (a +:+ b) = String.length a + String.length b.
Proof.
  induction a as [|x a IH]; [done|].
  change (S (String.length (a +:+ b)) = S (String.length a) + String.length b).
  by rewrite IH.
Qed.

Lemma append_nil_inv (a b : string) : a +:+ b = EmptyString → a = EmptyString ∧ b = EmptyString.
Proof. destruct a; [done|]. intros Heq. discriminate Heq. Qed.

Lemma append_ne_self (a b : string) : b ≠ EmptyString → a ≠ a +:+ b.
Proof.
  intros Hb Heq. apply (f_equal String.length) in Heq. rewrite append_length in Heq.
  destruct b; [done|]. simpl in Heq. lia.
Qed.

Lemma strip_prefix_append (p s : string) : strip_prefix p (p +:+ s) = Some s.
Proof.
  induction p as [|x p IH]; [done|].
  change (strip_prefix (String x p) (String x (p +:+ s)) = Some s).
  simpl. by rewrite decide_True.
Qed.

Lemma relative_below (base r : string) : relative base (base +:+ "/" +:+ r) = r.
Proof.
  unfold relative. rewrite decide_False by (by apply append_ne_self).
  by rewrite <- append_assoc, strip_prefix_append.
Qed.

Lemma join_two (a b : string) :
  a ≠ EmptyString → b ≠ EmptyString → join [a; b] = a +:+ "/" +:+ b.
Proof.
  intros Ha Hb. unfold join.
  by rewrite filter_cons_True, filter_cons_True by done.
Qed.

Lemma join_three (a b c : string) :
  a ≠ EmptyString → b ≠ EmptyString → c ≠ EmptyString →
  join [a; b; c] = a +:+ "/" +:+ b +:+ "/" +:+ c.
Proof.
  intros Ha Hb Hc. unfold join.
  by rewrite !filter_cons_True by done.
Qed.

Lemma join_two_ne (a b : string) : a ≠ EmptyString → join [a; b] ≠ EmptyString.
Proof.
  intros Ha. unfold join. rewrite filter_cons_True by done.
  destruct (filter _ [b]); simpl; [done|]. by intros [? _]%append_nil_inv.
Qed.

(** A directory entry name: not empty, no separator in it. *)
Fixpoint has_slash (s : string) : bool :=
  match s with
  | EmptyString => false
  | String c s' => bool_decide (c = "/"%char) || has_slash s'
  end.

Definition valid_name (s : string) : bool :=
  negb (bool_decide (s = EmptyString)) && negb (has_slash s).

Lemma valid_name_ne (s : string) : valid_name s → s ≠ EmptyString.
Proof. unfold valid_name. intros [Hs _]%andb_prop_elim. by case_bool_decide. Qed.

Lemma segments_from_no_slash (cur a b : string) :
  has_slash a = false → segments_from cur (a +:+ b) = segments_from (cur +:+ a) b.
Proof.
  revert cur. induction a as [|c a IH]; intros cur Ha.
  - by rewrite append_nil_r.
  - simpl in Ha. apply orb_false_iff in Ha as [Hc Ha]. apply bool_decide_eq_false in Hc.
    change (String c a +:+ b) with (String c (a +:+ b)). simpl.
    rewrite decide_False by done. rewrite IH by done.
    by rewrite append_assoc.
Qed.

Lemma segments_from_slash (cur a b : string) :
  segments_from cur (a +:+ String "/" b) = segments_from cur a ++ segments b.
Proof.
  revert cur. induction a as [|c a IH]; intros cur.
  - change (EmptyString +:+ String "/" b) with (String "/" b). simpl. done.
  - change (String c a +:+ String "/" b) with (String c (a +:+ String "/" b)). simpl.
    destruct (decide (c = "/"%char)).
    + by rewrite IH, (assoc_L (++)).
    + apply IH.
Qed.

Lemma segments_append_slash (a b : string) :
  segments (a +:+ "/" +:+ b) = segments a ++ segments b.
Proof. apply segments_from_slash. Qed.

Lemma segments_valid (name : string) : valid_name name → segments name = [name].
Proof.
  unfold valid_name. intros [Hne Hslash]%andb_prop_elim.
  apply negb_prop_elim, Is_true_false in Hslash.
  unfold segments. rewrite <- (append_nil_r name) at 1.
  rewrite segments_from_no_slash by done. simpl.
  change (EmptyString +:+ name) with name.
  case_decide; [|done]. by case_bool_decide.
Qed.

Lemma segments_join_name (dir name : string) :
  dir ≠ EmptyString → valid_name name →
  segments (join [dir; name]) = segments dir ++ [name].
Proof.
  intros Hdir Hname. rewrite join_two by (done || by apply valid_name_ne).
  by rewrite segments_append_slash, (segments_valid name).
Qed.

Lemma strip_segments_app (p l : list string) : strip_segments p (p ++ l) = Some l.
Proof. induction p as [|a p IH]; [done|]. simpl. by rewrite decide_True. Qed.

(** ** Well-formed trees *)

(** [st_mode] of a regular file: the file type bits [S_IFMT] hold
    [S_IFREG]. *)
Definition regular_mode (mode : Z) : bool := (Z.land mode 61440 =? 32768)%Z.

(** The names of a directory are distinct entry names, and regular files
    have the mode of a regular file. *)
Fixpoint wf_node (n : node) : bool :=
  match n with
  | File _ mode _ => regular_mode mode
  | Dir entries =>
      bool_decide (NoDup entries.*1)
      && forallb (λ '(name, c), valid_name name && wf_node c) entries
  | Symlink (Some t) => wf_node t
  | Symlink None => true
  end.

Lemma node_ind' (P : node → Prop) :
  (∀ content mode mtimeMs, P (File content mode mtimeMs)) →
  (∀ entries, Forall (λ e, P e.2) entries → P (Dir entries)) →
  P (Symlink None) →
  (∀ t, P t → P (Symlink (Some t))) →
  ∀ n, P n.
Proof.
  intros HF HD HS0 HS. fix IH 1. intros [content mode mtimeMs|entries|[t|]].
  - apply HF.
  - apply HD. induction entries as [|[name c] entries IHentries]; constructor.
    + apply IH.
    + apply IHentries.
  - apply HS, IH.
  - apply HS0.
Qed.

Lemma wf_node_Dir (entries : list (string * node)) :
  wf_node (Dir entries) →
  NoDup entries.*1 ∧ ∀ name c, (name, c) ∈ entries → valid_name name ∧ wf_node c.
Proof.
  simpl. intros [Hnd Hall]%andb_prop_elim. split; [by apply bool_decide_unpack in Hnd|].
  intros name c Hin. apply Is_true_true, forallb_forall with (x := (name, c)) in Hall.
  - by apply andb_prop_elim, Is_true_true.
  - by apply list_elem_of_In.
Qed.

Lemma regular_mode_ne_0 (mode : Z) : regular_mode mode → mode ≠ 0%Z.
Proof. intros Hm ->. done. Qed.

Lemma wf_node_follow (n n' : node) : wf_node n → follow n = Some n' → wf_node n'.
Proof.
  revert n'. induction n as [content mode mtimeMs|entries _| |t IH] using node_ind';
    intros n' Hwf; simpl; try (by intros [= <-]); try done.
  by apply IH.
Qed.

Lemma follow_idemp (n n' : node) : follow n = Some n' → follow n' = Some n'.
Proof.
  revert n'. induction n as [content mode mtimeMs|entries _| |t IH] using node_ind';
    intros n'; simpl; try (by intros [= <-]); try done.
  apply IH.
Qed.

Lemma lookup_entry_elem_of (entries : list (string * node)) (name : string) (c : node) :
  NoDup entries.*1 → (name, c) ∈ entries → lookup_entry name entries = Some c.
Proof.
  intros Hnd Hin. unfold lookup_entry.
  destruct (find_key_is_Some fst name entries) as [e He].
  { apply Exists_exists. by exists (name, c). }
  rewrite He. simpl. apply (find_key_Some fst) in He as [He Hname].
  by rewrite (key_inj_on fst entries e (name, c) Hnd He Hin Hname).
Qed.

Lemma lookup_entry_Some (entries : list (string * node)) (name : string) (c : node) :
  lookup_entry name entries = Some c → (name, c) ∈ entries.
Proof.
  unfold lookup_entry. destruct (find _ entries) as [e|] eqn:He; [|done].
  intros [= <-]. apply (find_key_Some fst) in He as [He <-]. by destruct e.
Qed.

Lemma resolve_app (n : node) (ps qs : list string) :
  resolve n (ps ++ qs) = resolve n ps ≫= λ n', resolve n' qs.
Proof.
  revert n. induction ps as [|p ps IH]; intros n; simpl.
  - destruct (follow n) as [n'|] eqn:Hn; simpl; [|by destruct qs; simpl; unfold child; rewrite ?Hn].
    destruct qs as [|q qs]; simpl; [by rewrite (follow_idemp n n')|].
    unfold child. by rewrite Hn, (follow_idemp n n').
  - destruct (child n p); [apply IH | done].
Qed.

Lemma NoDup_flat_map_keyed {X Y K} (tag : X → K) (key : Y → K) (g : X → list Y)
    (xs : list X) :
  NoDup (tag <$> xs) →
  (∀ x, x ∈ xs → NoDup (g x)) →
  (∀ x y, x ∈ xs → y ∈ g x → key y = tag x) →
  NoDup (flat_map g xs).
Proof.
  induction xs as [|x xs IH]; intros Hnd Hg Hkey; simpl; [apply NoDup_nil_2|].
  rewrite fmap_cons in Hnd. apply NoDup_cons in Hnd as [Hx Hnd].
  apply NoDup_app. split_and!.
  - apply Hg. by left.
  - intros y Hy Hy'. apply list_elem_of_In, in_flat_map in Hy' as (x' & Hx' & Hy').
    apply list_elem_of_In in Hx', Hy'. apply Hx.
    rewrite <- (Hkey x y) by (by left || done).
    rewrite (Hkey x' y) by (by right || done). by apply list_elem_of_fmap_2.
  - apply IH; [done | |].
    + intros x' Hx'. apply Hg. by right.
    + intros x' y Hx'. apply Hkey. by right.
Qed.

(** ** What [walkDir] emits *)

Lemma flat_map_flat_map {A B C} (f : B → list C) (g : A → list B) (l : list A) :
  flat_map f (flat_map g l) = flat_map (λ x, flat_map f (g x)) l.
Proof. induction l as [|a l IH]; simpl; [done|]. by rewrite flat_map_app, IH. Qed.

Lemma elem_of_flat_map {A B} (f : A → list B) (l : list A) (y : B) :
  y ∈ flat_map f l ↔ ∃ x, x ∈ l ∧ y ∈ f x.
Proof.
  rewrite list_elem_of_In, in_flat_map. split; intros (x & Hx & Hy); exists x.
  - by rewrite !list_elem_of_In.
  - by rewrite <- !list_elem_of_In.
Qed.

(** Every file that [walkEntry] emits for the entry [name] of [dir] lies
    at a path below [dir/name], which leads through the tree to a regular
    file with the mode that was emitted. *)
Lemma walkEntry_spec (n : node) (dir baseDir name : string) (f : FileEntry.t) :
  wf_node n → dir ≠ EmptyString → valid_name name →
  f ∈ walkEntry dir baseDir name n →
  ∃ r fp content mtimeMs,
    FileEntry.absolutePath f = dir +:+ "/" +:+ name +:+ r
    ∧ FileEntry.relativePath f = relative baseDir (FileEntry.absolutePath f)
    ∧ segments (FileEntry.absolutePath f) = segments dir ++ name :: fp
    ∧ resolve n fp = Some (File content (FileEntry.mode f) mtimeMs)
    ∧ regular_mode (FileEntry.mode f).
Proof.
  revert dir name.
  induction n as [content mode mtimeMs|entries IH| |t _] using node_ind';
    intros dir name Hwf Hdir Hname; simpl; try (by intros ?%elem_of_nil).
  - intros ->%list_elem_of_singleton. simpl.
    exists EmptyString, [], content, mtimeMs.
    rewrite append_nil_r, join_two by (done || by apply valid_name_ne).
    split_and!; try done.
    by rewrite segments_append_slash, (segments_valid name).
  - apply wf_node_Dir in Hwf as [Hnd Hentries].
    intros ([name' c] & Hin & Hf)%elem_of_flat_map.
    destruct (Hentries name' c Hin) as [Hname' Hc].
    rewrite Forall_forall in IH. specialize (IH (name', c) Hin). simpl in IH.
    destruct (IH (join [dir; name]) name' Hc) as (r & fp & content & mtimeMs & Habs & Hrel & Hseg & Hres & Hmode);
      [by apply join_two_ne | done | done |].
    exists ("/" +:+ name' +:+ r), (name' :: fp), content, mtimeMs.
    rewrite join_two in Habs by (done || by apply valid_name_ne).
    rewrite segments_join_name in Hseg by done.
    split_and!; try done.
    + by rewrite Habs, !append_assoc.
    + by rewrite Hseg, <- (assoc_L (++)).
    + simpl. unfold child. simpl. by rewrite (lookup_entry_elem_of entries name' c).
Qed.

Lemma walkEntry_NoDup (n : node) (dir baseDir name : string) :
  wf_node n → dir ≠ EmptyString → valid_name name →
  NoDup (FileEntry.absolutePath <$> walkEntry dir baseDir name n).
Proof.
  revert dir name.
  induction n as [content mode mtimeMs|entries IH| |t _] using node_ind';
    intros dir name Hwf Hdir Hname; simpl; try apply NoDup_nil_2.
  - apply NoDup_singleton.
  - pose proof Hwf as Hwf'. apply wf_node_Dir in Hwf as [Hnd Hentries].
    rewrite fmap_flat_map.
    apply (NoDup_flat_map_keyed fst
      (λ path, default EmptyString (segments path !! S (length (segments dir))))).
    + done.
    + intros [name' c] Hin. destruct (Hentries name' c Hin) as [Hname' Hc].
      rewrite Forall_forall in IH. apply (IH (name', c) Hin); [done | | done].
      by apply join_two_ne.
    + intros [name' c] path Hin (f & -> & Hf)%list_elem_of_fmap.
      destruct (Hentries name' c Hin) as [Hname' Hc].
      apply walkEntry_spec in Hf as (_ & fp & _ & _ & _ & _ & Hseg & _);
        [|done|by apply join_two_ne|done].
      rewrite Hseg, segments_join_name by done. simpl.
      rewrite <- (assoc_L (++)). simpl.
      rewrite lookup_app_r by lia.
      replace (S (length (segments dir)) - length (segments dir)) with 1 by lia. done.
Qed.

(** *** The walk of a directory and the files below it *)

Lemma concat_cons (a b : string) (l : list string) :
  String.concat "/" (a :: b :: l) = a +:+ "/" +:+ String.concat "/" (b :: l).
Proof. reflexivity. Qed.

Lemma concat_joined (a b : string) (l : list string) :
  String.concat "/" ((a +:+ "/" +:+ b) :: l) = String.concat "/" (a :: b :: l).
Proof. destruct l as [|c l]; [done|]. by rewrite !concat_cons, !append_assoc. Qed.

Lemma concat_valid_ne (name : string) (l : list string) :
  valid_name name → String.concat "/" (name :: l) ≠ EmptyString.
Proof.
  intros Hname%valid_name_ne. destruct l as [|b l]; [done|].
  rewrite concat_cons. by intros [? _]%append_nil_inv.
Qed.

Lemma segments_concat (l : list string) :
  Forall (λ name, valid_name name) l → segments (String.concat "/" l) = l.
Proof.
  induction l as [|a [|b l] IH]; intros Hl; [done | |].
  - apply Forall_cons in Hl as [Ha _]. by apply segments_valid.
  - apply Forall_cons in Hl as [Ha Hl]. rewrite concat_cons, segments_append_slash.
    by rewrite segments_valid, IH.
Qed.

Lemma plain_file_File (n : node) (fp : list string) (f : node) :
  plain_file n fp = Some f → isFile f = true.
Proof.
  revert n. induction fp as [|name fp IH]; intros n; simpl.
  - destruct n; try done. by intros [= <-].
  - destruct n as [| entries |]; try done.
    destruct (lookup_entry name entries) as [c|]; simpl; [apply IH | done].
Qed.

Lemma plain_file_valid (n : node) (fp : list string) (f : node) :
  wf_node n → plain_file n fp = Some f → Forall (λ name, valid_name name) fp.
Proof.
  revert n. induction fp as [|name fp IH]; intros n Hwf; simpl; [by constructor|].
  destruct n as [| entries |]; try done.
  destruct (lookup_entry name entries) as [c|] eqn:Hc; simpl; [|done].
  apply lookup_entry_Some in Hc. apply wf_node_Dir in Hwf as [_ Hentries].
  destruct (Hentries name c Hc) as [Hname Hwfc]. intros Hf. constructor; [done|].
  by apply (IH c).
Qed.

Lemma plain_file_resolve (n : node) (fp : list string) (f : node) :
  plain_file n fp = Some f → resolve n fp = Some f.
Proof.
  revert n. induction fp as [|name fp IH]; intros n; simpl.
  - destruct n; try done.
  - destruct n as [| entries |]; try done. unfold child. simpl.
    destruct (lookup_entry name entries) as [c|]; simpl; [apply IH | done].
Qed.

(** The entry that [walkDir] emits for the regular file [f] at the names
    [fp] below [dir]. *)
Definition entry_of (dir baseDir : string) (fp : list string) (f : node) : list FileEntry.t :=
  match f with
  | File content mode mtimeMs =>
      [ {| FileEntry.relativePath := relative baseDir (String.concat "/" (dir :: fp));
           FileEntry.absolutePath := String.concat "/" (dir :: fp);
           FileEntry.mode := mode;
           FileEntry.size := length content;
           FileEntry.mtime := mtimeMs |} ]
  | _ => []
  end.

Lemma walkEntry_files (n : node) (dir baseDir name : string) (e : FileEntry.t) :
  wf_node n → dir ≠ EmptyString → valid_name name →
  e ∈ walkEntry dir baseDir name n ↔
  ∃ fp f, plain_file n fp = Some f ∧ e ∈ entry_of dir baseDir (name :: fp) f.
Proof.
  revert dir name.
  induction n as [content mode mtimeMs|entries IH| |t _] using node_ind';
    intros dir name Hwf Hdir Hname; simpl.
  - rewrite join_two by (done || by apply valid_name_ne). split.
    + intros ->%list_elem_of_singleton. exists [], (File content mode mtimeMs).
      split; [done|]. by left.
    + intros ([|? ?] & f & Hf & He); [|done]. injection Hf as <-. exact He.
  - apply wf_node_Dir in Hwf as [Hnd Hentries]. rewrite elem_of_flat_map. split.
    + intros ([name' c] & Hin & He). destruct (Hentries name' c Hin) as [Hname' Hc].
      rewrite Forall_forall in IH.
      apply (IH (name', c) Hin) in He as (fp & f & Hf & He);
        [|done|by apply join_two_ne|done].
      exists (name' :: fp), f. split.
      * simpl. by rewrite (lookup_entry_elem_of entries name' c).
      * rewrite join_two in He by (done || by apply valid_name_ne).
        unfold entry_of in *. by rewrite concat_joined in He.
    + intros ([|name' fp] & f & Hf & He); [done|]. simpl in Hf.
      destruct (lookup_entry name' entries) as [c|] eqn:Hc; simpl in Hf; [|done].
      apply lookup_entry_Some in Hc. destruct (Hentries name' c Hc) as [Hname' Hwfc].
      exists (name', c). split; [done|]. rewrite Forall_forall in IH.
      apply (IH (name', c) Hc); [done|by apply join_two_ne|done|].
      exists fp, f. split; [done|].
      rewrite join_two by (done || by apply valid_name_ne).
      unfold entry_of in *. by rewrite concat_joined.
  - split; [by intros ?%elem_of_nil|]. by intros ([|? ?] & f & Hf & _).
  - split; [by intros ?%elem_of_nil|]. by intros ([|? ?] & f & Hf & _).
Qed.

(** What [walkDir(dir, dir)] emits: one entry for each regular file below
    the directory, with the names that lead to it as its relative path. *)
Lemma walkDir_files (entries : list (string * node)) (dir : string) (e : FileEntry.t) :
  wf_node (Dir entries) → dir ≠ EmptyString →
  e ∈ walkDir entries dir dir ↔
  ∃ fp content mode mtimeMs,
    plain_file (Dir entries) fp = Some (File content mode mtimeMs)
    ∧ e = {| FileEntry.relativePath := String.concat "/" fp;
             FileEntry.absolutePath := dir +:+ "/" +:+ String.concat "/" fp;
             FileEntry.mode := mode;
             FileEntry.size := length content;
             FileEntry.mtime := mtimeMs |}.
Proof.
  intros Hwf Hdir. pose proof Hwf as [Hnd Hentries]%wf_node_Dir.
  unfold walkDir. rewrite elem_of_flat_map. split.
  - intros ([name c] & Hin & He). destruct (Hentries name c Hin) as [Hname Hc].
    apply walkEntry_files in He as (fp & f & Hf & He); [|done..].
    pose proof (plain_file_File _ _ _ Hf) as Hfile.
    destruct f as [content mode mtimeMs| |]; try done.
    apply list_elem_of_singleton in He as ->.
    exists (name :: fp), content, mode, mtimeMs. split.
    + simpl. by rewrite (lookup_entry_elem_of entries name c).
    + rewrite concat_cons. by rewrite relative_below.
  - intros ([|name fp] & content & mode & mtimeMs & Hf & ->); [done|]. simpl in Hf.
    destruct (lookup_entry name entries) as [c|] eqn:Hc; simpl in Hf; [|done].
    apply lookup_entry_Some in Hc. destruct (Hentries name c Hc) as [Hname Hwfc].
    exists (name, c). split; [done|]. apply walkEntry_files; [done..|].
    exists fp, (File content mode mtimeMs). split; [done|].
    unfold entry_of. rewrite concat_cons, relative_below. by left.
Qed.

(** ** Package directories in the tree *)

(** The files of a package directory, as [scanPackages] walks it. *)
Definition walked (d : PackageDir.t) : list FileEntry.t :=
  walkDir (PackageDir.entries d) (PackageDir.path d) (PackageDir.path d).

(** The directory that [d] names is the one that the names [dp] lead to
    from the root, and its [relativePath] is its path below the root. *)
Definition placed_at (nodeModulesPath : string) (root : node) (dp : list string)
    (d : PackageDir.t) : Prop :=
  PackageDir.path d = nodeModulesPath +:+ "/" +:+ PackageDir.relativePath d
  ∧ PackageDir.relativePath d ≠ EmptyString
  ∧ segments (PackageDir.path d) = segments nodeModulesPath ++ dp
  ∧ resolve root dp = Some (Dir (PackageDir.entries d))
  ∧ wf_node (Dir (PackageDir.entries d)).

Lemma walkDir_NoDup (entries : list (string * node)) (dir baseDir : string) :
  wf_node (Dir entries) → dir ≠ EmptyString →
  NoDup (FileEntry.absolutePath <$> walkDir entries dir baseDir).
Proof.
  intros [Hnd Hentries]%wf_node_Dir Hdir. unfold walkDir. rewrite fmap_flat_map.
  apply (NoDup_flat_map_keyed fst
    (λ path, default EmptyString (segments path !! length (segments dir)))).
  - done.
  - intros [name c] Hin. destruct (Hentries name c Hin). by apply walkEntry_NoDup.
  - intros [name c] path Hin (f & -> & Hf)%list_elem_of_fmap.
    destruct (Hentries name c Hin).
    apply walkEntry_spec in Hf as (_ & fp & _ & _ & _ & _ & -> & _); [|done..].
    rewrite lookup_app_r by lia. by rewrite Nat.sub_diag.
Qed.

Section placed.
Context (nodeModulesPath : string) (root : node).
Hypothesis source_ne : nodeModulesPath ≠ EmptyString.

Lemma placed_path_ne (dp : list string) (d : PackageDir.t) :
  placed_at nodeModulesPath root dp d → PackageDir.path d ≠ EmptyString.
Proof.
  intros (Hpath & _). rewrite Hpath. intros [? _]%append_nil_inv. done.
Qed.

(** A walked file lies where its paths say, and the tree holds a regular
    file there. *)
Lemma placed_files (dp : list string) (d : PackageDir.t) (f : FileEntry.t) :
  placed_at nodeModulesPath root dp d → f ∈ walked d →
  FileEntry.absolutePath f =
    nodeModulesPath +:+ "/" +:+ PackageDir.relativePath d +:+ "/" +:+ FileEntry.relativePath f
  ∧ FileEntry.relativePath f ≠ EmptyString
  ∧ regular_mode (FileEntry.mode f)
  ∧ ∃ fp content mtimeMs,
      segments (FileEntry.absolutePath f) = segments nodeModulesPath ++ dp ++ fp
      ∧ resolve root (dp ++ fp) = Some (File content (FileEntry.mode f) mtimeMs).
Proof.
  intros Hplaced Hf. pose proof (placed_path_ne dp d Hplaced) as Hne.
  destruct Hplaced as (Hpath & Hrel & Hseg & Hres & Hwf).
  apply wf_node_Dir in Hwf as [Hnd Hentries].
  apply elem_of_flat_map in Hf as ([name c] & Hin & Hf).
  destruct (Hentries name c Hin) as [Hname Hc].
  apply walkEntry_spec in Hf
    as (r & fp & content & mtimeMs & Habs & Hrelf & Hsegf & Hresf & Hmode); [|done..].
  assert (FileEntry.relativePath f = name +:+ r) as Hrelf'.
  { rewrite Hrelf, Habs. apply relative_below. }
  split_and!.
  - by rewrite Habs, Hrelf', Hpath, !append_assoc.
  - rewrite Hrelf'. intros [-> _]%append_nil_inv. done.
  - done.
  - exists (name :: fp), content, mtimeMs. split.
    + by rewrite Hsegf, Hseg, <- (assoc_L (++)).
    + rewrite resolve_app, Hres. simpl. unfold child. simpl.
      by rewrite (lookup_entry_elem_of _ name c).
Qed.

(** Directories found under distinct names have no file path in common. *)
Lemma dirs_NoDup_keyed {X} (pre : list string) (es : list (string * X))
    (G : string * X → list PackageDir.t) :
  NoDup es.*1 →
  (∀ e, e ∈ es → NoDup (FileEntry.absolutePath <$> flat_map walked (G e))) →
  (∀ e d, e ∈ es → d ∈ G e →
     ∃ rest, placed_at nodeModulesPath root (pre ++ e.1 :: rest) d) →
  NoDup (FileEntry.absolutePath <$> flat_map walked (flat_map G es)).
Proof.
  intros Hnd Hinner Hplaced.
  rewrite flat_map_flat_map, fmap_flat_map.
  apply (NoDup_flat_map_keyed fst
    (λ path, default EmptyString
       (segments path !! (length (segments nodeModulesPath) + length pre)))).
  - done.
  - intros e He. by apply Hinner.
  - intros e path He (f & -> & Hf)%list_elem_of_fmap.
    apply elem_of_flat_map in Hf as (d & Hd & Hf).
    destruct (Hplaced e d He Hd) as [rest Hplaced'].
    destruct (placed_files _ d f Hplaced' Hf) as (_ & _ & _ & fp & _ & _ & -> & _).
    rewrite lookup_app_r by lia. rewrite <- (assoc_L (++)), lookup_app_r by lia.
    replace (length (segments nodeModulesPath) + length pre
             - length (segments nodeModulesPath) - length pre) with 0 by lia.
    done.
Qed.

End placed.

(** ** The two enumerations on a well-formed tree *)

Lemma readdir_Ok (path : string) (n : option node) (entries : list (string * node)) :
  readdir path n = Ok entries → ∃ c, n = Some c ∧ follow c = Some (Dir entries).
Proof.
  unfold readdir. destruct n as [c|]; [|done].
  destruct (follow c) as [[| |]|] eqn:Hc; try done. intros [= <-]. eauto.
Qed.

Lemma child_Some (n c : node) (name : string) :
  child n name = Some c → ∃ entries, follow n = Some (Dir entries) ∧ (name, c) ∈ entries.
Proof.
  unfold child. destruct (follow n) as [[| entries |]|]; try done.
  intros Hc%lookup_entry_Some. eauto.
Qed.

Section enumeration.
Context (nodeModulesPath : string) (root : node).
Hypothesis source_ne : nodeModulesPath ≠ EmptyString.

(** The directory with the listing [entries] lies at [path], which is
    [rel] below the root and is reached by the names [dp]. *)
Definition dir_at (path rel : string) (dp : list string) (entries : list (string * node))
    : Prop :=
  path = nodeModulesPath +:+ "/" +:+ rel
  ∧ rel ≠ EmptyString
  ∧ segments path = segments nodeModulesPath ++ dp
  ∧ resolve root dp = Some (Dir entries)
  ∧ wf_node (Dir entries).

Lemma dir_at_placed (dp : list string) (d : PackageDir.t) :
  dir_at (PackageDir.path d) (PackageDir.relativePath d) dp (PackageDir.entries d) →
  placed_at nodeModulesPath root dp d.
Proof. done. Qed.

Lemma dir_at_root_child (entries children : list (string * node)) (name : string) (c : node) :
  follow root = Some (Dir entries) → wf_node root →
  (name, c) ∈ entries → follow c = Some (Dir children) →
  valid_name name
  ∧ dir_at (join [nodeModulesPath; name]) name [name] children.
Proof.
  intros Hroot Hwf Hin Hc.
  pose proof (wf_node_follow _ _ Hwf Hroot) as [Hnd Hentries]%wf_node_Dir.
  destruct (Hentries name c Hin) as [Hname Hwfc]. split; [done|].
  split_and!.
  - apply join_two; [done | by apply valid_name_ne].
  - by apply valid_name_ne.
  - by apply segments_join_name.
  - simpl. unfold child. rewrite Hroot, (lookup_entry_elem_of entries name c) by done. done.
  - by apply (wf_node_follow c).
Qed.

Lemma dir_at_child (path rel : string) (dp : list string)
    (entries children : list (string * node)) (name : string) (c : node) :
  dir_at path rel dp entries →
  (name, c) ∈ entries → follow c = Some (Dir children) →
  valid_name name
  ∧ dir_at (join [path; name]) (rel +:+ "/" +:+ name) (dp ++ [name]) children.
Proof.
  intros (Hpath & Hrel & Hseg & Hres & Hwf) Hin Hc.
  pose proof Hwf as [Hnd Hentries]%wf_node_Dir.
  destruct (Hentries name c Hin) as [Hname Hwfc]. split; [done|].
  assert (path ≠ EmptyString) as Hne.
  { rewrite Hpath. by intros [? _]%append_nil_inv. }
  split_and!.
  - rewrite join_two, Hpath, !append_assoc by (done || by apply valid_name_ne). done.
  - by intros [? _]%append_nil_inv.
  - by rewrite segments_join_name, Hseg, <- (assoc_L (++)).
  - rewrite resolve_app, Hres. simpl. unfold child. simpl.
    by rewrite (lookup_entry_elem_of entries name c).
  - by apply (wf_node_follow c).
Qed.

(** *** Scope directories *)

Lemma scopedDirs_placed (fullPath rel : string) (dp : list string)
    (scopedEntries : list (string * node)) (joinRel : string → string → string)
    (e : string * node) (d : PackageDir.t) :
  dir_at fullPath rel dp scopedEntries →
  (∀ name, valid_name name → joinRel rel name = rel +:+ "/" +:+ name) →
  e ∈ scopedEntries →
  d ∈ (let '(scopedName, scopedNode) := e in
       match scopedNode with
       | Dir children =>
           [ {| PackageDir.path := join [fullPath; scopedName];
                PackageDir.relativePath := joinRel rel scopedName;
                PackageDir.entries := children |} ]
       | _ => []
       end) →
  placed_at nodeModulesPath root (dp ++ [e.1]) d.
Proof.
  intros Hat Hjoin He Hd. destruct e as [scopedName [| children |]];
    try (by apply elem_of_nil in Hd).
  apply list_elem_of_singleton in Hd as ->.
  destruct (dir_at_child _ _ _ _ children scopedName (Dir children) Hat He eq_refl)
    as [Hname Hat'].
  apply dir_at_placed. simpl. by rewrite Hjoin.
Qed.

Lemma scopedDirs_NoDup (fullPath rel : string) (dp : list string)
    (scopedEntries : list (string * node)) (joinRel : string → string → string) :
  dir_at fullPath rel dp scopedEntries →
  (∀ name, valid_name name → joinRel rel name = rel +:+ "/" +:+ name) →
  NoDup (FileEntry.absolutePath <$>
           flat_map walked (scopedDirs fullPath rel scopedEntries joinRel)).
Proof.
  intros Hat Hjoin. pose proof Hat as (_ & _ & _ & _ & [Hnd _]%wf_node_Dir).
  unfold scopedDirs.
  apply (dirs_NoDup_keyed nodeModulesPath root source_ne dp); [done | |].
  - intros e He.
    pose proof (scopedDirs_placed fullPath rel dp scopedEntries joinRel e) as Hplaced.
    destruct e as [scopedName [| children |]]; simpl; try apply NoDup_nil_2.
    rewrite app_nil_r.
    destruct (Hplaced _ Hat Hjoin He ltac:(by left)) as (Hp & _ & _ & _ & Hwf).
    apply walkDir_NoDup; [done|]. simpl in *. rewrite Hp.
    by intros [? _]%append_nil_inv.
  - intros e d He Hd. exists [].
    by apply (scopedDirs_placed fullPath rel dp scopedEntries joinRel).
Qed.

End enumeration.

Section layouts.
Context (nodeModulesPath : string) (root : node).
Hypothesis source_ne : nodeModulesPath ≠ EmptyString.
Hypothesis root_wf : wf_node root.

(** What a lemma about an enumeration establishes for its directories:
    each lies in the tree, and no path is walked twice. *)
Definition enumeration_ok (pre : list string) (dirs : list PackageDir.t) : Prop :=
  (∀ d, d ∈ dirs → ∃ rest, placed_at nodeModulesPath root (pre ++ rest) d)
  ∧ NoDup (FileEntry.absolutePath <$> flat_map walked dirs).

(** *** The flat layout *)

Lemma findPackageDirs_ok (dirs : list PackageDir.t) :
  findPackageDirs nodeModulesPath root = Ok dirs → enumeration_ok [] dirs.
Proof.
  unfold findPackageDirs.
  destruct (readdir nodeModulesPath (Some root)) as [entries|] eqn:Hreaddir; simpl; [|done].
  apply readdir_Ok in Hreaddir as (? & [= <-] & Hroot). intros [= <-].
  pose proof (wf_node_follow _ _ root_wf Hroot) as [Hnd _]%wf_node_Dir.
  set (G := λ e : string * node, let '(name, n) := e in _).
  assert (∀ e, e ∈ entries →
    (∀ d, d ∈ G e → ∃ rest, placed_at nodeModulesPath root ([] ++ e.1 :: rest) d)
    ∧ NoDup (FileEntry.absolutePath <$> flat_map walked (G e))) as Hentry.
  { intros [name n] He. unfold G.
    destruct n as [| children |]; try (split; [by intros d ?%elem_of_nil | apply NoDup_nil_2]).
    case_bool_decide; [split; [by intros d ?%elem_of_nil | apply NoDup_nil_2]|].
    destruct (dir_at_root_child nodeModulesPath root source_ne entries children name
                (Dir children) Hroot root_wf He eq_refl) as [Hname Hat].
    assert (∀ scopedName, valid_name scopedName →
      join [name; scopedName] = name +:+ "/" +:+ scopedName) as Hjoin.
    { intros scopedName Hs. apply join_two; by apply valid_name_ne. }
    destruct (startsWith name "@"); split.
    - intros d (e & He' & Hd)%elem_of_flat_map. exists [e.1].
      by apply (scopedDirs_placed nodeModulesPath root source_ne (join [nodeModulesPath; name]) name
                  [name] children (λ a b, join [a; b]) e d).
    - by apply (scopedDirs_NoDup nodeModulesPath root source_ne _ name [name]).
    - intros d ->%list_elem_of_singleton. exists []. by apply dir_at_placed.
    - simpl. rewrite app_nil_r. apply walkDir_NoDup; [by destruct Hat as (_&_&_&_&?)|].
      by apply join_two_ne. }
  split.
  - intros d (e & He & Hd)%elem_of_flat_map.
    destruct (Hentry e He) as [Hplaced _]. destruct (Hplaced d Hd) as [rest Hrest].
    by exists (e.1 :: rest).
  - apply (dirs_NoDup_keyed nodeModulesPath root source_ne []); [done | |].
    + intros e He. by destruct (Hentry e He).
    + intros e d He Hd. destruct (Hentry e He) as [Hplaced _]. by apply Hplaced.
Qed.

(** *** The symlink-farm layout *)

Lemma pnpmEntries_flat_map (pnpmPath : string) (entries : list (string * node))
    (dirs : list PackageDir.t) :
  pnpmEntries pnpmPath entries = Ok dirs →
  ∃ found : string * node → list PackageDir.t,
    dirs = flat_map found entries
    ∧ ∀ e, e ∈ entries → pnpmEntry pnpmPath e.1 e.2 = Ok (found e).
Proof.
  revert dirs. induction entries as [|[name n] entries IH]; intros dirs; simpl.
  - intros [= <-]. exists (λ _, []). split; [done|]. by intros e ?%elem_of_nil.
  - destruct (pnpmEntry pnpmPath name n) as [here|] eqn:Hhere; simpl; [|done].
    destruct (pnpmEntries pnpmPath entries) as [more|]; simpl; [|done].
    intros [= <-]. destruct (IH more eq_refl) as (found & -> & Hfound).
    exists (λ e, match pnpmEntry pnpmPath e.1 e.2 with Ok l => l | Err _ => [] end).
    split.
    + simpl. rewrite Hhere. f_equal. apply flat_map_ext_elem.
      intros e He. by rewrite (Hfound e He).
    + intros e [->|He]%elem_of_cons; simpl; [by rewrite Hhere|].
      by rewrite (Hfound e He).
Qed.

Lemma pnpm_rel (entryName innerName : string) :
  ((".pnpm" +:+ "/" +:+ entryName) +:+ "/" +:+ "node_modules") +:+ "/" +:+ innerName
  = ".pnpm/" +:+ entryName +:+ "/node_modules/" +:+ innerName.
Proof. by rewrite !append_assoc. Qed.

Lemma pnpmEntry_ok (pnpmPath : string) (entries : list (string * node))
    (name : string) (n : node) (found : list PackageDir.t) :
  dir_at nodeModulesPath root pnpmPath ".pnpm" [".pnpm"] entries →
  (name, n) ∈ entries →
  pnpmEntry pnpmPath name n = Ok found →
  (∀ d, d ∈ found → ∃ rest, placed_at nodeModulesPath root ([".pnpm"] ++ name :: rest) d)
  ∧ NoDup (FileEntry.absolutePath <$> flat_map walked found).
Proof.
  intros Hpnpm He. unfold pnpmEntry.
  destruct n as [| children |];
    try (intros [= <-]; split; [by intros d ?%elem_of_nil | apply NoDup_nil_2]).
  destruct (_ || _);
    [intros [= <-]; split; [by intros d ?%elem_of_nil | apply NoDup_nil_2]|].
  case_bool_decide;
    [|intros [= <-]; split; [by intros d ?%elem_of_nil | apply NoDup_nil_2]].
  destruct (readdir _ (child (Dir children) "node_modules")) as [innerEntries|] eqn:Hreaddir;
    simpl; [|done].
  intros [= <-].
  apply readdir_Ok in Hreaddir as (inner & Hchild & Hinner).
  apply child_Some in Hchild as (children' & [= <-] & Hin).
  destruct (dir_at_child nodeModulesPath root source_ne _ _ _ _ children name (Dir children)
              Hpnpm He eq_refl) as [Hname Hentry].
  destruct (dir_at_child nodeModulesPath root source_ne _ _ _ _ innerEntries "node_modules" inner
              Hentry Hin Hinner) as [_ Hmodules].
  pose proof Hmodules as (_ & _ & _ & _ & [Hnd _]%wf_node_Dir).
  unfold innerPackageDirs.
  match goal with |- context [flat_map ?g innerEntries] => set (G := g) end.
  assert (∀ e, e ∈ innerEntries →
    (∀ d, d ∈ G e → ∃ rest,
       placed_at nodeModulesPath root (([".pnpm"; name; "node_modules"]) ++ e.1 :: rest) d)
    ∧ NoDup (FileEntry.absolutePath <$> flat_map walked (G e))) as Hinnerentry.
  { intros [innerName innerNode] Hie. unfold G.
    destruct innerNode as [| packageEntries |];
      try (split; [by intros d ?%elem_of_nil | apply NoDup_nil_2]).
    case_bool_decide; [split; [by intros d ?%elem_of_nil | apply NoDup_nil_2]|].
    destruct (dir_at_child nodeModulesPath root source_ne _ _ _ _ packageEntries innerName
                (Dir packageEntries) Hmodules Hie eq_refl) as [Hinnername Hpkg].
    rewrite pnpm_rel in Hpkg.
    destruct (startsWith innerName "@"); split.
    - intros d (e & He' & Hd)%elem_of_flat_map. exists [e.1].
      by apply (scopedDirs_placed nodeModulesPath root source_ne _ _
                  [".pnpm"; name; "node_modules"; innerName] packageEntries
                  (λ a b, a +:+ "/" +:+ b) e d Hpkg).
    - by apply (scopedDirs_NoDup nodeModulesPath root source_ne _ _
                  [".pnpm"; name; "node_modules"; innerName]).
    - intros d ->%list_elem_of_singleton. exists []. by apply dir_at_placed.
    - simpl. rewrite app_nil_r. apply walkDir_NoDup; [by destruct Hpkg as (_&_&_&_&?)|].
      destruct Hpkg as (-> & _). by intros [? _]%append_nil_inv. }
  split.
  - intros d (e & Hie & Hd)%elem_of_flat_map.
    destruct (Hinnerentry e Hie) as [Hplaced _]. destruct (Hplaced d Hd) as [rest Hrest].
    by exists ("node_modules" :: e.1 :: rest).
  - apply (dirs_NoDup_keyed nodeModulesPath root source_ne [".pnpm"; name; "node_modules"]);
      [done | |].
    + intros e Hie. by destruct (Hinnerentry e Hie).
    + intros e d Hie Hd. destruct (Hinnerentry e Hie) as [Hplaced _]. by apply Hplaced.
Qed.

Lemma findPnpmPackageDirs_ok (dirs : list PackageDir.t) :
  findPnpmPackageDirs nodeModulesPath root = Ok dirs → enumeration_ok [] dirs.
Proof.
  unfold findPnpmPackageDirs.
  destruct (readdir _ (child root ".pnpm")) as [entries|] eqn:Hreaddir; simpl; [|done].
  apply readdir_Ok in Hreaddir as (pnpm & Hchild & Hpnpm).
  apply child_Some in Hchild as (rootEntries & Hroot & Hin).
  destruct (dir_at_root_child nodeModulesPath root source_ne rootEntries entries ".pnpm"
              pnpm Hroot root_wf Hin Hpnpm) as [_ Hat].
  pose proof Hat as (_ & _ & _ & _ & [Hnd _]%wf_node_Dir).
  intros (found & -> & Hfound)%pnpmEntries_flat_map. split.
  - intros d ([name n] & He & Hd)%elem_of_flat_map.
    destruct (pnpmEntry_ok _ entries name n _ Hat He (Hfound _ He)) as [Hplaced _].
    destruct (Hplaced d Hd) as [rest Hrest]. by exists (".pnpm" :: name :: rest).
  - apply (dirs_NoDup_keyed nodeModulesPath root source_ne [".pnpm"]); [done | |].
    + intros [name n] He. by destruct (pnpmEntry_ok _ entries name n _ Hat He (Hfound _ He)).
    + intros [name n] d He Hd.
      destruct (pnpmEntry_ok _ entries name n _ Hat He (Hfound _ He)) as [Hplaced _].
      by apply Hplaced.
Qed.

Lemma packageDirs_ok (dirs : list PackageDir.t) :
  packageDirs nodeModulesPath root = Ok dirs → enumeration_ok [] dirs.
Proof.
  unfold packageDirs. destruct (isPnpmStructure root).
  - apply findPnpmPackageDirs_ok.
  - apply findPackageDirs_ok.
Qed.

End layouts.

(** *** Which layout is scanned *)

(** A root with a child [.pnpm] that is, or links to, a directory is
    scanned through that directory alone. *)
Lemma layout_pnpm (nodeModulesPath : string) (root c : node)
    (entries : list (string * node)) :
  child root ".pnpm" = Some c → follow c = Some (Dir entries) →
  packageDirs nodeModulesPath root = pnpmEntries (join [nodeModulesPath; ".pnpm"]) entries.
Proof.
  intros Hchild Hc. unfold packageDirs, isPnpmStructure, findPnpmPackageDirs. simpl.
  rewrite Hchild. simpl. by rewrite Hc.
Qed.

(** A root without an entry named [.pnpm] is scanned as a flat layout. *)
Lemma layout_flat (nodeModulesPath : string) (root : node) :
  child root ".pnpm" = None →
  packageDirs nodeModulesPath root = findPackageDirs nodeModulesPath root.
Proof.
  intros Hchild. unfold packageDirs, isPnpmStructure. simpl. rewrite Hchild.
  rewrite bool_decide_eq_false_2; [done|]. by intros [? ?].
Qed.

(** The relative path of a package found under [.pnpm/<entry>] is the
    whole chain, with the child appended for a scoped package. *)
Lemma pnpm_relativePath (pnpmPath entry : string) (n : node) (found : list PackageDir.t)
    (d : PackageDir.t) :
  pnpmEntry pnpmPath entry n = Ok found → d ∈ found →
  ∃ pkg,
    PackageDir.relativePath d = ".pnpm/" +:+ entry +:+ "/node_modules/" +:+ pkg
    ∨ ∃ scopeChild,
        startsWith pkg "@" = true
        ∧ PackageDir.relativePath d =
            (".pnpm/" +:+ entry +:+ "/node_modules/" +:+ pkg) +:+ "/" +:+ scopeChild.
Proof.
  unfold pnpmEntry. destruct n as [| children |]; try (by intros [= <-] ?%elem_of_nil).
  destruct (_ || _); [by intros [= <-] ?%elem_of_nil|].
  case_bool_decide; [|by intros [= <-] ?%elem_of_nil].
  destruct (readdir _ _) as [innerEntries|]; simpl; [|done].
  intros [= <-]. unfold innerPackageDirs.
  intros ([pkg [| packageEntries |]] & _ & Hd)%elem_of_flat_map;
    try (by apply elem_of_nil in Hd).
  case_bool_decide; [by apply elem_of_nil in Hd|]. exists pkg.
  destruct (startsWith pkg "@") eqn:Hscoped.
  - right. unfold scopedDirs in Hd.
    apply elem_of_flat_map in Hd as ([scopeChild [| scopeEntries |]] & _ & Hd);
      try (by apply elem_of_nil in Hd).
    apply list_elem_of_singleton in Hd as ->. by exists scopeChild.
  - left. by apply list_elem_of_singleton in Hd as ->.
Qed.


(** *** The enumerations find the package directories, and only them *)

(** The scope-or-plain rule that both enumerations apply to an entry of
    a package-bearing directory at [base]. *)
Definition packages_in (skipped : string → bool) (base : string) (rel : string → string)
    (joinRel : string → string → string) (e : string * node) : list PackageDir.t :=
  let '(name, n) := e in
  match n with
  | Dir children =>
      if skipped name then []
      else if startsWith name "@"
           then scopedDirs (join [base; name]) (rel name) children joinRel
           else [ {| PackageDir.path := join [base; name];
                     PackageDir.relativePath := rel name;
                     PackageDir.entries := children |} ]
  | _ => []
  end.

Lemma packages_in_elem_of (skipped : string → bool) (skip : list string) (base : string)
    (rel : string → string) (joinRel : string → string → string)
    (entries : list (string * node)) (d : PackageDir.t) :
  (∀ name, skipped name = true ↔ name ∈ skip) →
  d ∈ flat_map (packages_in skipped base rel joinRel) entries ↔
  (∃ name children,
     (name, Dir children) ∈ entries ∧ (name ∉ skip) ∧ startsWith name "@" = false
     ∧ d = {| PackageDir.path := join [base; name];
              PackageDir.relativePath := rel name;
              PackageDir.entries := children |})
  ∨ (∃ scope members name children,
       (scope, Dir members) ∈ entries ∧ (scope ∉ skip) ∧ startsWith scope "@" = true
       ∧ (name, Dir children) ∈ members
       ∧ d = {| PackageDir.path := join [join [base; scope]; name];
                PackageDir.relativePath := joinRel (rel scope) name;
                PackageDir.entries := children |}).
Proof.
  intros Hskip. rewrite elem_of_flat_map. split.
  - intros ([name n] & Hin & Hd). simpl in Hd.
    destruct n as [| children |]; try (by apply elem_of_nil in Hd).
    destruct (skipped name) eqn:Hs; [by apply elem_of_nil in Hd|].
    assert (name ∉ skip) as Hname by (rewrite <- Hskip, Hs; done).
    destruct (startsWith name "@") eqn:Hscope.
    + right. apply elem_of_flat_map in Hd as ([scopedName c] & Hc & Hd).
      destruct c as [| scopedChildren |]; try (by apply elem_of_nil in Hd).
      apply list_elem_of_singleton in Hd as ->.
      by exists name, children, scopedName, scopedChildren.
    + left. apply list_elem_of_singleton in Hd as ->. by exists name, children.
  - intros [(name & children & Hin & Hname & Hscope & ->)
           |(scope & members & name & children & Hin & Hname & Hscope & Hc & ->)].
    + exists (name, Dir children). split; [done|]. simpl.
      destruct (skipped name) eqn:Hs; [by apply Hskip in Hs|].
      rewrite Hscope. by left.
    + exists (scope, Dir members). split; [done|]. simpl.
      destruct (skipped scope) eqn:Hs; [by apply Hskip in Hs|].
      rewrite Hscope. apply elem_of_flat_map. exists (name, Dir children).
      split; [done|]. by left.
Qed.

Lemma append_slash_ne (a b : string) : a +:+ "/" +:+ b ≠ EmptyString.
Proof. by intros [_ ?]%append_nil_inv. Qed.

Lemma concat_snoc (pre : list string) (name : string) :
  pre ≠ [] → String.concat "/" (pre ++ [name]) = String.concat "/" pre +:+ "/" +:+ name.
Proof.
  induction pre as [|a [|b pre] IH]; intros Hpre; [done | done |].
  change ((a :: b :: pre) ++ [name]) with (a :: b :: (pre ++ [name])).
  rewrite !concat_cons. change (b :: pre ++ [name]) with ((b :: pre) ++ [name]).
  by rewrite IH, !append_assoc.
Qed.

Section package_dirs.
Context (nodeModulesPath : string) (root : node).
Hypothesis source_ne : nodeModulesPath ≠ EmptyString.
Hypothesis root_wf : wf_node root.

(** The record of the package directory that [dp] leads to. *)
Definition dir_of (dp : list string) (children : list (string * node)) : PackageDir.t :=
  {| PackageDir.path := nodeModulesPath +:+ "/" +:+ String.concat "/" dp;
     PackageDir.relativePath := String.concat "/" dp;
     PackageDir.entries := children |}.

(** In a directory at [base], reached by [pre] and listed as [entries],
    the rule yields the records of the children that are packages. *)
Lemma packages_in_dir_of (skipped : string → bool) (skip : list string) (base : string)
    (pre : list string) (rel : string → string) (joinRel : string → string → string)
    (entries : list (string * node)) (d : PackageDir.t) :
  (∀ name, skipped name = true ↔ name ∈ skip) →
  base = (if decide (pre = []) then nodeModulesPath
          else nodeModulesPath +:+ "/" +:+ String.concat "/" pre) →
  (∀ name, rel name = String.concat "/" (pre ++ [name])) →
  (∀ scope name, valid_name scope → valid_name name →
     joinRel (rel scope) name = rel scope +:+ "/" +:+ name) →
  wf_node (Dir entries) →
  d ∈ flat_map (packages_in skipped base rel joinRel) entries ↔
  (∃ name children,
     (name, Dir children) ∈ entries ∧ (name ∉ skip) ∧ startsWith name "@" = false
     ∧ d = dir_of (pre ++ [name]) children)
  ∨ (∃ scope members name children,
       (scope, Dir members) ∈ entries ∧ (scope ∉ skip) ∧ startsWith scope "@" = true
       ∧ (name, Dir children) ∈ members
       ∧ d = dir_of (pre ++ [scope; name]) children).
Proof.
  intros Hskip Hbase Hrel HjoinRel [_ Hentries]%wf_node_Dir.
  rewrite (packages_in_elem_of skipped skip) by done.
  assert (base ≠ EmptyString) as Hbase_ne.
  { rewrite Hbase. case_decide; [done | apply append_slash_ne]. }
  assert (∀ name, valid_name name →
    join [base; name] = nodeModulesPath +:+ "/" +:+ String.concat "/" (pre ++ [name]))
    as Hpath.
  { intros name Hname. rewrite join_two by (done || by apply valid_name_ne).
    rewrite Hbase. case_decide as Hpre; [by subst pre|].
    by rewrite concat_snoc, !append_assoc by done. }
  assert (∀ scope name, valid_name scope → valid_name name →
    String.concat "/" (pre ++ [scope; name])
    = String.concat "/" (pre ++ [scope]) +:+ "/" +:+ name) as Hscoped.
  { intros scope name _ _.
    change (pre ++ [scope; name]) with (pre ++ [scope] ++ [name]).
    rewrite (assoc_L (++)). apply concat_snoc. by destruct pre. }
  split.
  - intros [(name & children & Hin & Hname & Hscope & ->)
           |(scope & members & name & children & Hin & Hname & Hscope & Hc & ->)].
    + left. exists name, children. split_and!; [done..|].
      destruct (Hentries _ _ Hin) as [Hvalid _]. unfold dir_of. by rewrite Hpath, Hrel.
    + right. exists scope, members, name, children. split_and!; [done..|].
      destruct (Hentries _ _ Hin) as [Hvalid [_ Hmembers]%wf_node_Dir].
      destruct (Hmembers _ _ Hc) as [Hvalid' _]. unfold dir_of.
      rewrite HjoinRel, Hrel, Hscoped by done.
      rewrite Hpath by done.
      rewrite join_two; [by rewrite !append_assoc | apply append_slash_ne
                        | by apply valid_name_ne].
  - intros [(name & children & Hin & Hname & Hscope & ->)
           |(scope & members & name & children & Hin & Hname & Hscope & Hc & ->)].
    + left. exists name, children. split_and!; [done..|].
      destruct (Hentries _ _ Hin) as [Hvalid _]. unfold dir_of. by rewrite Hpath, Hrel.
    + right. exists scope, members, name, children. split_and!; [done..|].
      destruct (Hentries _ _ Hin) as [Hvalid [_ Hmembers]%wf_node_Dir].
      destruct (Hmembers _ _ Hc) as [Hvalid' _]. unfold dir_of.
      rewrite HjoinRel, Hrel, Hscoped by done.
      rewrite Hpath by done.
      rewrite join_two; [by rewrite !append_assoc | apply append_slash_ne
                        | by apply valid_name_ne].
Qed.

Lemma pnpm_layout (farm : node) :
  child root ".pnpm" = Some farm → is_Some (follow farm) → isPnpmStructure root = true.
Proof.
  intros Hchild Hfarm. unfold isPnpmStructure. simpl. rewrite Hchild.
  by apply bool_decide_eq_true.
Qed.

Lemma findPackageDirs_elem_of (dirs : list PackageDir.t) (d : PackageDir.t) :
  isPnpmStructure root = false →
  findPackageDirs nodeModulesPath root = Ok dirs →
  d ∈ dirs ↔ ∃ dp, package_dir root dp (PackageDir.entries d)
                   ∧ d = dir_of dp (PackageDir.entries d).
Proof.
  intros Hflat. unfold findPackageDirs.
  destruct (readdir nodeModulesPath (Some root)) as [entries|] eqn:Hreaddir; simpl; [|done].
  apply readdir_Ok in Hreaddir as (? & [= <-] & Hroot). intros [= <-].
  pose proof (wf_node_follow _ _ root_wf Hroot) as Hwf.
  match goal with |- _ ↔ ?R => change (d ∈ flat_map
    (packages_in (λ name, bool_decide (name = ".bin" ∨ name = ".cache" ∨ name = ".pnpm"))
       nodeModulesPath (λ name, name) (λ a b, join [a; b])) entries ↔ R) end.
  rewrite (packages_in_dir_of _ [".bin"; ".cache"; ".pnpm"] _ []); [|..|done].
  - split.
    + intros [(name & children & Hin & Hname & Hscope & ->)
             |(scope & members & name & children & Hin & Hname & Hscope & Hc & ->)].
      * exists [name]. split; [|done].
        by apply (package_plain root [] entries [".bin"; ".cache"; ".pnpm"]); [constructor|..].
      * exists [scope; name]. split; [|done].
        by apply (package_scoped root [] entries [".bin"; ".cache"; ".pnpm"] scope members);
          [constructor|..].
    + intros (dp & Hdp & Hd).
      assert (∀ pre entries' skip, package_bearing root pre entries' skip →
        pre = [] ∧ entries' = entries ∧ skip = [".bin"; ".cache"; ".pnpm"]) as Hbearing.
      { intros pre entries' skip [entries'' _ Hroot'|farm ? ? ? ? ? Hchild Hfarm].
        - rewrite Hroot in Hroot'. by injection Hroot' as <-.
        - rewrite (pnpm_layout farm) in Hflat by (done || by eexists). done. }
      destruct Hdp as [pre entries' skip name children Hb Hin Hname Hscope
                      |pre entries' skip scope members name children Hb Hin Hname Hscope Hc];
        destruct (Hbearing _ _ _ Hb) as (-> & -> & ->).
      * left. by exists name, children.
      * right. by exists scope, members, name, children.
  - intros name. rewrite bool_decide_eq_true, !elem_of_cons, elem_of_nil. tauto.
  - done.
  - done.
  - intros scope name Hscope Hname. apply join_two; by apply valid_name_ne.
Qed.

(** The listing of [.pnpm/<entry>/node_modules], when [entry] is scanned. *)
Lemma pnpmEntry_elem_of (farmEntries : list (string * node)) (entry : string) (n : node)
    (found : list PackageDir.t) (d : PackageDir.t) :
  wf_node (Dir farmEntries) → (entry, n) ∈ farmEntries →
  pnpmEntry (join [nodeModulesPath; ".pnpm"]) entry n = Ok found →
  d ∈ found ↔
  ∃ entryEntries modules innerEntries,
    n = Dir entryEntries
    ∧ entry ≠ "node_modules" ∧ startsWith entry "." = false
    ∧ ("node_modules", modules) ∈ entryEntries ∧ follow modules = Some (Dir innerEntries)
    ∧ ((∃ name children,
          (name, Dir children) ∈ innerEntries ∧ (name ∉ [".bin"])
          ∧ startsWith name "@" = false
          ∧ d = dir_of ([".pnpm"; entry; "node_modules"] ++ [name]) children)
       ∨ (∃ scope members name children,
            (scope, Dir members) ∈ innerEntries ∧ (scope ∉ [".bin"])
            ∧ startsWith scope "@" = true
            ∧ (name, Dir children) ∈ members
            ∧ d = dir_of ([".pnpm"; entry; "node_modules"] ++ [scope; name]) children)).
Proof.
  intros [_ Hfarm]%wf_node_Dir Hin. destruct (Hfarm _ _ Hin) as [Hentry Hn].
  unfold pnpmEntry. destruct n as [| entryEntries |].
  1, 3: intros [= <-]; split; [by intros ?%elem_of_nil | by intros (? & ? & ? & ? & _)].
  destruct (bool_decide (entry = "node_modules")) eqn:Hmodules; simpl.
  { intros [= <-]. split; [by intros ?%elem_of_nil|].
    intros (? & ? & ? & _ & Hne & _). by apply bool_decide_eq_true in Hmodules. }
  apply bool_decide_eq_false in Hmodules.
  destruct (startsWith entry ".") eqn:Hdot; simpl.
  { intros [= <-]. split; [by intros ?%elem_of_nil|]. by intros (? & ? & ? & _ & _ & ? & _). }
  pose proof Hn as [Hnd Hentries]%wf_node_Dir.
  unfold child. simpl.
  destruct (lookup_entry "node_modules" entryEntries) as [modules|] eqn:Hlookup; simpl.
  2: { rewrite ?bool_decide_eq_false_2 by (by intros [? ?]). intros [= <-].
       split; [by intros ?%elem_of_nil|].
       intros (? & modules & ? & [= <-] & _ & _ & Hm & _).
       by rewrite (lookup_entry_elem_of _ _ _ Hnd Hm) in Hlookup. }
  apply lookup_entry_Some in Hlookup. destruct (Hentries _ _ Hlookup) as [_ Hwfm].
  destruct (follow modules) as [target|] eqn:Hfollow; simpl.
  2: { rewrite ?bool_decide_eq_false_2 by (by intros [? ?]). intros [= <-].
       split; [by intros ?%elem_of_nil|].
       intros (? & modules' & ? & [= <-] & _ & _ & Hm & Hf & _).
       assert (modules' = modules) as ->.
       { apply (lookup_entry_elem_of _ _ _ Hnd) in Hm, Hlookup. congruence. }
       congruence. }
  rewrite ?bool_decide_eq_true_2 by (by eexists).
  destruct target as [| innerEntries |]; simpl; try done. intros [= <-].
  pose proof (wf_node_follow _ _ Hwfm Hfollow) as Hinner.
  unfold innerPackageDirs.
  match goal with |- _ ↔ ?R => change (d ∈ flat_map
    (packages_in (λ name, bool_decide (name = ".bin"))
       (join [join [join [nodeModulesPath; ".pnpm"]; entry]; "node_modules"])
       (λ name, ".pnpm/" +:+ entry +:+ "/node_modules/" +:+ name)
       (λ a b, a +:+ "/" +:+ b)) innerEntries ↔ R) end.
  rewrite (packages_in_dir_of _ [".bin"] _ [".pnpm"; entry; "node_modules"]); [|..|done].
  - split.
    + intros Hd. exists entryEntries, modules, innerEntries. by split_and!.
    + intros (? & modules' & ? & [= <-] & _ & _ & Hm & Hf & Hd).
      assert (modules' = modules) as ->.
      { apply (lookup_entry_elem_of _ _ _ Hnd) in Hm, Hlookup. congruence. }
      rewrite Hfollow in Hf. by injection Hf as <-.
  - intros name. rewrite bool_decide_eq_true, elem_of_cons, elem_of_nil. tauto.
  - rewrite decide_False by done.
    rewrite (join_two nodeModulesPath ".pnpm") by done.
    rewrite (join_two _ entry); [|apply append_slash_ne|by apply valid_name_ne].
    rewrite (join_two _ "node_modules"); [|apply append_slash_ne|done].
    rewrite !concat_cons. simpl. by rewrite !append_assoc.
  - intros name. rewrite concat_snoc by done. rewrite !concat_cons. simpl.
    by rewrite !append_assoc.
  - done.
Qed.

Lemma findPnpmPackageDirs_elem_of (dirs : list PackageDir.t) (d : PackageDir.t) :
  findPnpmPackageDirs nodeModulesPath root = Ok dirs →
  d ∈ dirs ↔ ∃ dp, package_dir root dp (PackageDir.entries d)
                   ∧ d = dir_of dp (PackageDir.entries d).
Proof.
  unfold findPnpmPackageDirs.
  destruct (readdir _ (child root ".pnpm")) as [farmEntries|] eqn:Hreaddir; simpl; [|done].
  apply readdir_Ok in Hreaddir as (farm & Hchild & Hfarm).
  pose proof Hchild as (rootEntries & Hroot & Hin)%child_Some.
  pose proof (wf_node_follow _ _ root_wf Hroot) as [_ Hentries]%wf_node_Dir.
  destruct (Hentries _ _ Hin) as [_ Hwffarm].
  pose proof (wf_node_follow _ _ Hwffarm Hfarm) as Hwf.
  intros (found & -> & Hfound)%pnpmEntries_flat_map.
  rewrite elem_of_flat_map. split.
  - intros ([entry n] & He & Hd).
    apply (pnpmEntry_elem_of farmEntries entry n _ d Hwf He (Hfound _ He)) in Hd
      as (entryEntries & modules & innerEntries & -> & Hne & Hdot & Hm & Hf & Hd).
    pose proof (bearing_pnpm root farm farmEntries entry entryEntries modules innerEntries
                  Hchild Hfarm He Hne Hdot Hm Hf) as Hb.
    destruct Hd as [(name & children & Hc & Hname & Hscope & ->)
                   |(scope & members & name & children & Hc & Hname & Hscope & Hc' & ->)].
    + eexists. split; [|done]. by eapply package_plain.
    + eexists. split; [|done]. by eapply package_scoped.
  - intros (dp & Hdp & Hd).
    assert (∀ pre entries' skip, package_bearing root pre entries' skip →
      ∃ entry entryEntries modules,
        pre = [".pnpm"; entry; "node_modules"] ∧ skip = [".bin"]
        ∧ (entry, Dir entryEntries) ∈ farmEntries
        ∧ entry ≠ "node_modules" ∧ startsWith entry "." = false
        ∧ ("node_modules", modules) ∈ entryEntries
        ∧ follow modules = Some (Dir entries')) as Hbearing.
    { intros pre entries' skip
        [entries'' Hflat _|farm' farmEntries' entry entryEntries modules ? Hchild' Hfarm'].
      - rewrite (pnpm_layout farm) in Hflat by (done || by eexists). done.
      - rewrite Hchild in Hchild'. injection Hchild' as <-.
        rewrite Hfarm in Hfarm'. injection Hfarm' as <-.
        intros. by exists entry, entryEntries, modules. }
    destruct Hdp as [pre entries' skip name children Hb Hc Hname Hscope
                    |pre entries' skip scope members name children Hb Hc Hname Hscope Hc'];
      destruct (Hbearing _ _ _ Hb)
        as (entry & entryEntries & modules & -> & -> & He & Hne & Hdot & Hm & Hf);
      exists (entry, Dir entryEntries); (split; [done|]);
      apply (pnpmEntry_elem_of farmEntries entry (Dir entryEntries) _ d Hwf He (Hfound _ He));
      exists entryEntries, modules, entries'; split_and!; try done.
    + left. by exists name, children.
    + right. by exists scope, members, name, children.
Qed.

Lemma packageDirs_elem_of (dirs : list PackageDir.t) (d : PackageDir.t) :
  packageDirs nodeModulesPath root = Ok dirs →
  d ∈ dirs ↔ ∃ dp, package_dir root dp (PackageDir.entries d)
                   ∧ d = dir_of dp (PackageDir.entries d).
Proof.
  unfold packageDirs. destruct (isPnpmStructure root) eqn:Hlayout.
  - apply findPnpmPackageDirs_elem_of.
  - by apply findPackageDirs_elem_of.
Qed.

End package_dirs.

(** ** Round trip: from the tree to the output directory *)

Section tree_round_trip.
Context `{Platform} (nodeModulesPath : string) (root : node).
Hypothesis source_ne : nodeModulesPath ≠ EmptyString.
Hypothesis root_wf : wf_node root.

Lemma emitted_files_sublist (dirs : list PackageDir.t) :
  flat_map ScannedPackage.files (omap emitted_package dirs)
  `sublist_of` flat_map walked dirs.
Proof.
  induction dirs as [|d dirs IH]; simpl; [done|].
  unfold emitted_package at 1.
  destruct (manifest d) as [[]|]; simpl;
    try (by apply sublist_inserts_l); by apply sublist_app.
Qed.

Lemma emitted_pairs_origin (dirs : list PackageDir.t) (x : string * FileEntry.t) :
  x ∈ emitted_pairs (omap emitted_package dirs) →
  ∃ d, d ∈ dirs ∧ x.1 = PackageDir.relativePath d ∧ x.2 ∈ walked d.
Proof.
  unfold emitted_pairs. intros (pkg & Hpkg & Hx)%elem_of_flat_map.
  apply list_elem_of_omap in Hpkg as (d & Hd & Hemit).
  apply list_elem_of_fmap in Hx as (f & -> & Hf).
  exists d. split; [done|]. unfold emitted_package in Hemit.
  destruct (manifest d) as [[]|]; try done; by injection Hemit as <-.
Qed.

Lemma placed_node_at (dp : list string) (d : PackageDir.t) (f : FileEntry.t) :
  placed_at nodeModulesPath root dp d → f ∈ walked d →
  ∃ content mtimeMs,
    node_at nodeModulesPath root (FileEntry.absolutePath f)
    = Some (File content (FileEntry.mode f) mtimeMs).
Proof.
  intros Hplaced Hf.
  destruct (placed_files nodeModulesPath root source_ne dp d f Hplaced Hf)
    as (_ & _ & _ & fp & content & mtimeMs & Hseg & Hres).
  exists content, mtimeMs. unfold node_at. by rewrite Hseg, strip_segments_app.
Qed.

Lemma scanned_pairs_ok (dirs : list PackageDir.t) (x : string * FileEntry.t) :
  packageDirs nodeModulesPath root = Ok dirs →
  x ∈ emitted_pairs (omap emitted_package dirs) →
  FileEntry.absolutePath x.2 =
    nodeModulesPath +:+ "/" +:+ x.1 +:+ "/" +:+ FileEntry.relativePath x.2
  ∧ x.1 ≠ EmptyString
  ∧ FileEntry.relativePath x.2 ≠ EmptyString
  ∧ regular_mode (FileEntry.mode x.2)
  ∧ ∃ content mtimeMs,
      node_at nodeModulesPath root (FileEntry.absolutePath x.2)
      = Some (File content (FileEntry.mode x.2) mtimeMs).
Proof.
  intros [Hplaced _]%(packageDirs_ok nodeModulesPath root source_ne root_wf)
    (d & Hd & Hpath & Hf)%emitted_pairs_origin.
  destruct (Hplaced d Hd) as [dp Hdp]. simpl in Hdp.
  destruct (placed_files nodeModulesPath root source_ne dp d x.2 Hdp Hf)
    as (Habs & Hrel & Hmode & _).
  rewrite Hpath. split_and!; try done.
  - by destruct Hdp as (_ & ? & _).
  - by apply (placed_node_at dp d).
Qed.

Lemma scanned_paths_NoDup (dirs : list PackageDir.t) :
  packageDirs nodeModulesPath root = Ok dirs →
  NoDup (FileEntry.absolutePath <$>
           flat_map ScannedPackage.files (omap emitted_package dirs)).
Proof.
  intros [_ Hnd]%(packageDirs_ok nodeModulesPath root source_ne root_wf).
  apply (sublist_NoDup _ (FileEntry.absolutePath <$> flat_map walked dirs)); [done|].
  apply fmap_sublist, emitted_files_sublist.
Qed.

End tree_round_trip.

Lemma fmap_ext_elem {A B} (f g : A → B) (l : list A) :
  (∀ x, x ∈ l → f x = g x) → f <$> l = g <$> l.
Proof.
  induction l as [|a l IH]; intros Hfg; [done|]. rewrite !fmap_cons.
  rewrite Hfg by (by left). f_equal. apply IH. intros x Hx. apply Hfg. by right.
Qed.

Lemma join_under (a b c : string) :
  b ≠ EmptyString → c ≠ EmptyString →
  join [a; b; c] =
  (if decide (a = EmptyString) then EmptyString else a +:+ "/") +:+ (b +:+ "/" +:+ c).
Proof.
  intros Hb Hc. case_decide as Ha.
  - subst a. unfold join. rewrite filter_cons_False by (by intros []).
    by rewrite !filter_cons_True by done.
  - by rewrite join_three, !append_assoc.
Qed.

Lemma pack_unfold `{Platform} (env : PackEnv) (options : PackOptions.t)
    (root : node) (scan : ScanResult.t) :
  env_tree env = Some root →
  scanNodeModules (PackOptions.source options) root = Ok scan →
  ∃ store,
    packages store = [] ∧ blobs store = [] ∧ files store = []
    ∧ pack env options =
        packFiles (readFile (tree_view (PackOptions.source options) root))
          (PackOptions.compressionLevel options) (ScanResult.packages scan) store.
Proof.
  intros Htree Hscan. unfold pack, transaction. rewrite Htree, Hscan. simpl.
  match goal with |- context [packFiles _ _ _ ?store] => exists store end.
  split_and!; try done; by destruct (PackOptions.includeLockfile options), (env_lockfile env).
Qed.

Lemma scanNodeModules_Ok `{Platform} (nodeModulesPath : string) (root : node)
    (scan : ScanResult.t) :
  scanNodeModules nodeModulesPath root = Ok scan →
  ∃ dirs, packageDirs nodeModulesPath root = Ok dirs
          ∧ ScanResult.packages scan = omap emitted_package dirs.
Proof.
  unfold scanNodeModules. fold (packageDirs nodeModulesPath root).
  destruct (packageDirs nodeModulesPath root) as [dirs|]; simpl; [|done].
  intros [= <-]. exists dirs. split; [done|].
  unfold scanPackages. simpl. by rewrite scanPackages_spec.
Qed.

(** *** The emitted files are the files of the packages *)

Lemma emitted_pairs_elem_of `{Platform} (dirs : list PackageDir.t) (x : string * FileEntry.t) :
  x ∈ emitted_pairs (omap emitted_package dirs) ↔
  ∃ d, d ∈ dirs
       ∧ is_Some (parsePackageJson (lookup_entry "package.json" (PackageDir.entries d)))
       ∧ x.1 = PackageDir.relativePath d ∧ x.2 ∈ walked d.
Proof.
  unfold emitted_pairs. rewrite elem_of_flat_map. split.
  - intros (pkg & (d & Hd & Hemit)%list_elem_of_omap & (f & -> & Hf)%list_elem_of_fmap).
    exists d. rewrite parsePackageJson_manifest. unfold emitted_package in Hemit.
    destruct (manifest d) as [[]|]; try done; injection Hemit as <-; by split_and!.
  - intros (d & Hd & Hparse & Hpath & Hf). rewrite parsePackageJson_manifest in Hparse.
    destruct (emitted_package d) as [pkg|] eqn:Hemit.
    + exists pkg. split; [apply list_elem_of_omap; by exists d|].
      apply list_elem_of_fmap. exists x.2. unfold emitted_package in Hemit.
      destruct x as [p f]. simpl in *. subst p.
      destruct (manifest d) as [[]|]; try done; injection Hemit as <-; by split.
    + unfold emitted_package in Hemit.
      destruct (manifest d) as [[]|]; try done; by destruct Hparse.
Qed.

Section package_files.
Context `{Platform} (nodeModulesPath : string) (root : node).
Hypothesis source_ne : nodeModulesPath ≠ EmptyString.
Hypothesis root_wf : wf_node root.

(** Reading the walked path of a file of a package directory gives the
    bytes of that file. *)
Lemma placed_read (dp : list string) (d : PackageDir.t) (fp : list string)
    (content : list byte) (mode mtimeMs : Z) :
  placed_at nodeModulesPath root dp d →
  plain_file (Dir (PackageDir.entries d)) fp = Some (File content mode mtimeMs) →
  readFile (tree_view nodeModulesPath root)
    (PackageDir.path d +:+ "/" +:+ String.concat "/" fp) = Some content.
Proof.
  intros (_ & _ & Hseg & Hres & Hwf) Hf. simpl. unfold node_at.
  rewrite segments_append_slash, Hseg, <- (assoc_L (++)), strip_segments_app.
  rewrite (segments_concat fp) by (by eapply plain_file_valid).
  rewrite resolve_app, Hres. simpl.
  by rewrite (plain_file_resolve _ _ _ Hf).
Qed.

(** Reading a file of a package directory at the path that the names give
    returns its bytes. *)
Lemma package_file_read (dirs : list PackageDir.t) (dp : list string)
    (entries : list (string * node)) (fp : list string) (content : list byte)
    (mode mtimeMs : Z) :
  packageDirs nodeModulesPath root = Ok dirs →
  package_dir root dp entries →
  plain_file (Dir entries) fp = Some (File content mode mtimeMs) →
  readFile (tree_view nodeModulesPath root)
    ((nodeModulesPath +:+ "/" +:+ String.concat "/" dp) +:+ "/" +:+ String.concat "/" fp)
  = Some content.
Proof.
  intros Hdirs Hdp Hfile.
  pose proof (packageDirs_ok nodeModulesPath root source_ne root_wf dirs Hdirs)
    as [Hplaced _].
  set (d := dir_of nodeModulesPath dp entries).
  assert (d ∈ dirs) as Hd.
  { apply (packageDirs_elem_of nodeModulesPath root source_ne root_wf dirs d Hdirs).
    by exists dp. }
  destruct (Hplaced d Hd) as [dp' Hdp']. simpl in Hdp'.
  by apply (placed_read dp' d fp content mode mtimeMs).
Qed.

(** The files that the scan emits are the regular files of the package
    directories whose manifest is accepted. *)
Lemma emitted_pairs_files_of (dirs : list PackageDir.t) (x : string * FileEntry.t) :
  packageDirs nodeModulesPath root = Ok dirs →
  x ∈ emitted_pairs (omap emitted_package dirs) ↔
  ∃ dp entries fp content mode mtimeMs,
    package_dir root dp entries
    ∧ is_Some (parsePackageJson (lookup_entry "package.json" entries))
    ∧ plain_file (Dir entries) fp = Some (File content mode mtimeMs)
    ∧ x = (String.concat "/" dp,
           {| FileEntry.relativePath := String.concat "/" fp;
              FileEntry.absolutePath :=
                (nodeModulesPath +:+ "/" +:+ String.concat "/" dp)
                +:+ "/" +:+ String.concat "/" fp;
              FileEntry.mode := mode;
              FileEntry.size := length content;
              FileEntry.mtime := mtimeMs |}).
Proof.
  intros Hdirs. rewrite emitted_pairs_elem_of.
  pose proof (packageDirs_ok nodeModulesPath root source_ne root_wf dirs Hdirs)
    as [Hplaced _].
  split.
  - intros (d & Hd & Hparse & Hpath & Hf).
    destruct (Hplaced d Hd) as [dp' Hdp']. simpl in Hdp'.
    pose proof Hdp' as (_ & _ & _ & _ & Hwf).
    apply (packageDirs_elem_of nodeModulesPath root source_ne root_wf dirs d Hdirs) in Hd
      as (dp & Hdp & Hdir).
    apply walkDir_files in Hf as (fp & content & mode & mtimeMs & Hfile & Hentry);
      [|done|by apply (placed_path_ne nodeModulesPath root source_ne dp' d)].
    exists dp, (PackageDir.entries d), fp, content, mode, mtimeMs.
    split_and!; [done..|].
    destruct x as [p f]. simpl in *. subst p f. by rewrite Hdir.
  - intros (dp & entries & fp & content & mode & mtimeMs & Hdp & Hparse & Hfile & ->).
    set (d := dir_of nodeModulesPath dp entries).
    assert (d ∈ dirs) as Hd.
    { apply (packageDirs_elem_of nodeModulesPath root source_ne root_wf dirs d Hdirs).
      by exists dp. }
    destruct (Hplaced d Hd) as [dp' Hdp']. simpl in Hdp'.
    pose proof Hdp' as (_ & _ & _ & _ & Hwf).
    exists d. split_and!; [done..|]. simpl.
    apply walkDir_files; [done | apply append_slash_ne|].
    by exists fp, content, mode, mtimeMs.
Qed.

End package_files.

(** C1, amended. For a well-formed tree that the Scanner accepts, whose
    scanned manifests give a string or a number for [name] and [version],
    and on whose scanned files SHA-256 has no collision, [pack] and then
    [extractFiles] into a clean, empty directory succeed, and the output
    holds exactly the regular files of the tree that lie inside a package
    directory whose [package.json] is accepted: such a file, reached from
    the root by the names [dp] of its package directory and then the names
    [fp], is in the output at those names below the output path, with the
    same bytes and the low nine bits of its mode; and the output holds
    nothing else. A file beside the package directories is not in it. *)
Theorem pack_extract_round_trip `{Platform} (env : PackEnv) (options : PackOptions.t)
    (root : node) (scan : ScanResult.t) (outputPath : string) (umask : Z) :
  env_tree env = Some root →
  PackOptions.source options ≠ EmptyString →
  wf_node root →
  scanNodeModules (PackOptions.source options) root = Ok scan →
  Forall bindable (ScanResult.packages scan) →
  collision_free (readFile (tree_view (PackOptions.source options) root))
    (flat_map ScannedPackage.files (ScanResult.packages scan)) →
  (∀ content,
     gunzipSync (gzipSync content (PackOptions.compressionLevel options)) = Some content) →
  ∃ dedup db r fs,
    pack env options = Ok (dedup, db)
    ∧ @extractFiles _ _ (clean_dir umask) db outputPath ∅ = Ok (r, fs)
    ∧ ∀ path file,
        fs !! path = Some file ↔
        ∃ dp entries fp content mode mtimeMs,
          package_dir root dp entries
          ∧ is_Some (parsePackageJson (lookup_entry "package.json" entries))
          ∧ plain_file (Dir entries) fp = Some (File content mode mtimeMs)
          ∧ path = join [outputPath; String.concat "/" dp; String.concat "/" fp]
          ∧ file = {| OutFile.content := content;
                      OutFile.perm := Z.land mode mode_0o777 |}.
Proof.
  intros Htree Hsource Hwf Hscan Hbind Hfree Hcodec.
  set (source := PackOptions.source options) in *.
  set (read := readFile (tree_view source root)) in *.
  destruct (scanNodeModules_Ok _ _ _ Hscan) as (dirs & Hdirs & Hpackages).
  assert (∀ x, x ∈ emitted_pairs (ScanResult.packages scan) →
    FileEntry.absolutePath x.2 = source +:+ "/" +:+ x.1 +:+ "/" +:+ FileEntry.relativePath x.2
    ∧ x.1 ≠ EmptyString ∧ FileEntry.relativePath x.2 ≠ EmptyString
    ∧ regular_mode (FileEntry.mode x.2)
    ∧ ∃ content mtimeMs,
        node_at source root (FileEntry.absolutePath x.2)
        = Some (File content (FileEntry.mode x.2) mtimeMs)) as Hpairs.
  { intros x Hx. rewrite Hpackages in Hx. by apply (scanned_pairs_ok source root Hsource Hwf dirs). }
  assert (NoDup (expected_output read outputPath (ScanResult.packages scan)).*1) as Hnd.
  { pose proof (scanned_paths_NoDup source root Hsource Hwf dirs Hdirs) as Habs.
    rewrite <- Hpackages, <- emitted_pairs_files, <- list_fmap_compose in Habs.
    unfold expected_output. rewrite <- list_fmap_compose.
    set (X := λ x : string * FileEntry.t, x.1 +:+ "/" +:+ FileEntry.relativePath x.2).
    rewrite (fmap_ext_elem _ (String.app (source +:+ "/") ∘ X)) in Habs.
    2: { intros x Hx. destruct (Hpairs x Hx) as (Habs' & _). simpl. unfold X.
         by rewrite Habs', !append_assoc. }
    rewrite (fmap_ext_elem _
      (String.app (if decide (outputPath = EmptyString) then EmptyString
                   else outputPath +:+ "/") ∘ X)).
    2: { intros x Hx. destruct (Hpairs x Hx) as (_ & ? & ? & _). simpl.
         by apply join_under. }
    rewrite list_fmap_compose in Habs. apply NoDup_fmap_1 in Habs.
    rewrite list_fmap_compose. by apply NoDup_fmap_2; [apply _|]. }
  destruct (pack_unfold env options root scan Htree Hscan)
    as (store & Hp & Hb & Hf & Hpack).
  destruct (scanned_round_trip read (PackOptions.compressionLevel options) umask outputPath
              (ScanResult.packages scan) store) as (dedup & db & r & Hpacked & Hextract);
    try done.
  { intros f Hf'. rewrite <- emitted_pairs_files in Hf'.
    apply list_elem_of_fmap in Hf' as (x & -> & Hx).
    destruct (Hpairs x Hx) as (_ & _ & _ & _ & content & mtimeMs & Hnode).
    unfold read. simpl. rewrite Hnode. by eexists. }
  { intros f Hf'. rewrite <- emitted_pairs_files in Hf'.
    apply list_elem_of_fmap in Hf' as (x & -> & Hx).
    destruct (Hpairs x Hx) as (_ & _ & _ & Hmode & _). by apply regular_mode_ne_0. }
  exists dedup, db, r, (list_to_map (expected_output read outputPath (ScanResult.packages scan))).
  split_and!; [by rewrite Hpack | done |].
  intros path file. rewrite <- elem_of_list_to_map by done.
  unfold expected_output. rewrite list_elem_of_fmap. split.
  - intros (x & Hentry & Hx). rewrite Hpackages in Hx.
    apply (emitted_pairs_files_of source root Hsource Hwf dirs x Hdirs) in Hx
      as (dp & entries & fp & content & mode & mtimeMs & Hdp & Hparse & Hfile & ->).
    exists dp, entries, fp, content, mode, mtimeMs. split_and!; [done..| |].
    + by injection Hentry as -> _.
    + injection Hentry as _ ->. unfold content_of, read. simpl FileEntry.absolutePath.
      by rewrite (package_file_read source root Hsource Hwf dirs dp entries fp content
                    mode mtimeMs Hdirs Hdp Hfile).
  - intros (dp & entries & fp & content & mode & mtimeMs & Hdp & Hparse & Hfile & -> & ->).
    eexists. split; [|rewrite Hpackages;
      apply (emitted_pairs_files_of source root Hsource Hwf dirs _ Hdirs);
      by exists dp, entries, fp, content, mode, mtimeMs].
    unfold output_entry, content_of, read.
    cbn [fst snd FileEntry.absolutePath FileEntry.relativePath FileEntry.mode].
    by rewrite (package_file_read source root Hsource Hwf dirs dp entries fp content
                  mode mtimeMs Hdirs Hdp Hfile).
Qed.

(** ** The statements of the specification that the code does not meet *)

(** Every regular file of a tree, with its path below the root. *)
Fixpoint tree_files (prefix : string) (n : node) : list (string * list byte * Z) :=
  match n with
  | File content mode _ => [(prefix, content, mode)]
  | Dir entries => flat_map (λ '(name, c), tree_files (join [prefix; name]) c) entries
  | Symlink _ => []
  end.

(** C1 as stated: when every package directory has a manifest that
    parses, pack and then extractFiles into an empty directory give back
    every regular file of the tree, at its path, with its bytes and the
    low nine bits of its mode. *)
Definition stated_round_trip `{Platform} (env : PackEnv) (options : PackOptions.t)
    (outputPath : string) (umask : Z) : Prop :=
  ∀ root,
    env_tree env = Some root →
    (∀ dirs d, packageDirs (PackOptions.source options) root = Ok dirs → d ∈ dirs →
       is_Some (manifest d)) →
    ∃ dedup db r fs,
      pack env options = Ok (dedup, db)
      ∧ @extractFiles _ _ (clean_dir umask) db outputPath ∅ = Ok (r, fs)
      ∧ ∀ path content mode, (path, content, mode) ∈ tree_files EmptyString root →
          ∃ file, fs !! join [outputPath; path] = Some file
                  ∧ OutFile.content file = content
                  ∧ Z.land (OutFile.perm file) mode_0o777 = Z.land mode mode_0o777.

(** A regular file beside the packages, here [.package-lock.json] at the
    root, is not packed, so it is not restored. *)
Lemma root_file_not_restored :
  ¬ @stated_round_trip demo_platform (demo_env tree_with_root_file) demo_options "/out" 18.
Proof.
  intros Hclaim.
  destruct (Hclaim tree_with_root_file eq_refl) as (dedup & db & r & fs & Hpack & Hextract & Hall).
  - intros dirs d Hdirs Hd. vm_compute in Hdirs. injection Hdirs as <-.
    apply list_elem_of_singleton in Hd as ->. vm_compute. by eexists.
  - assert (@pack demo_platform (demo_env tree_with_root_file) demo_options
            = Ok (0, demo_snapshot)) as Hsnapshot by (vm_compute; reflexivity).
    rewrite Hpack in Hsnapshot. injection Hsnapshot as -> ->.
    assert (match @extractFiles demo_platform _ (clean_dir 18) demo_snapshot "/out" ∅ with
            | Ok (_, out) => out !! "/out/.package-lock.json"
            | Err _ => None
            end = None) as Hnone by (vm_compute; reflexivity).
    rewrite Hextract in Hnone.
    destruct (Hall ".package-lock.json" (bytes "{}") 33188%Z) as (file & Hfile & _).
    + simpl. right. right. left.
    + change (join ["/out"; ".package-lock.json"]) with "/out/.package-lock.json" in Hfile.
      rewrite Hnone in Hfile. discriminate Hfile.
Qed.

(** What the amended statement asks of the manifests cannot be dropped: a
    package whose manifest names it [5] is packed, under the text that
    the column keeps for the number, and a package whose manifest names
    it [true] makes [pack] fail, as better-sqlite3 binds no boolean. *)
Lemma numeric_name_packed :
  ∃ dedup db,
    @pack demo_platform (demo_env tree_numeric_name) demo_options = Ok (dedup, db)
    ∧ packages db = [(1, {| PackageInfo.name := "5.0"; PackageInfo.version := "0.0.0";
                            PackageInfo.path := "a" |})].
Proof. vm_compute. eexists _, _. split; reflexivity. Qed.

Lemma boolean_name_not_packed :
  @pack demo_platform (demo_env tree_boolean_name) demo_options = Err BindError.
Proof. vm_compute. reflexivity. Qed.

(** C3 as stated: [N > 0] files of the tree with the same bytes leave
    exactly one row of [blobs] for them and a count of at least [N - 1]. *)
Definition stated_deduplication `{Platform} (env : PackEnv) (options : PackOptions.t)
    : Prop :=
  ∀ root dedup db content,
    env_tree env = Some root →
    pack env options = Ok (dedup, db) →
    0 < length (filter (λ x, x.1.2 = content) (tree_files EmptyString root)) →
    length (filter (λ b, BlobInfo.hash b = sha256_hex content) (blobs db)) = 1
    ∧ length (filter (λ x, x.1.2 = content) (tree_files EmptyString root)) - 1 ≤ dedup.

(** Two files with the same bytes in directories without a manifest:
    nothing is packed, [blobs] stays empty and the count is 0. *)
Lemma unpacked_copies_not_deduplicated :
  ¬ @stated_deduplication demo_platform (demo_env tree_without_manifests) demo_options.
Proof.
  intros Hclaim.
  assert (∃ db, @pack demo_platform (demo_env tree_without_manifests) demo_options = Ok (0, db)
                ∧ blobs db = []) as (db & Hpack & Hblobs).
  { vm_compute. eexists. split; reflexivity. }
  destruct (Hclaim tree_without_manifests 0 db (bytes "same") eq_refl Hpack) as [Hone _].
  - vm_compute. lia.
  - rewrite Hblobs in Hone. discriminate Hone.
Qed.

(** ** The theorems at work on small inputs *)

Definition demo_scan : ScanResult.t :=
  match @scanNodeModules demo_platform "/proj/node_modules" tree_with_root_file with
  | Ok scan => scan
  | Err _ => {| ScanResult.packages := []; ScanResult.totalFiles := 0; ScanResult.totalSize := 0 |}
  end.

Lemma demo_codec (level : Z) (content : list byte) :
  @gunzipSync demo_platform (@gzipSync demo_platform content level) = Some content.
Proof. reflexivity. Defined.

Lemma demo_sha256_inj (a b : list byte) :
  @sha256_hex demo_platform a = @sha256_hex demo_platform b → a = b.
Proof.
  simpl. intros Heq%(inj (String.app "sha256:")).
  apply (f_equal String.list_byte_of_string) in Heq.
  by rewrite !String.list_byte_of_string_of_list_byte in Heq.
Defined.

Lemma pack_extract_round_trip_witness :
  wf_node tree_with_root_file
  ∧ @scanNodeModules demo_platform "/proj/node_modules" tree_with_root_file = Ok demo_scan
  ∧ ∃ dedup db r fs,
      @pack demo_platform (demo_env tree_with_root_file) demo_options = Ok (dedup, db)
      ∧ @extractFiles demo_platform _ (clean_dir 18) db "/out" ∅ = Ok (r, fs)
      ∧ ∀ path file,
          fs !! path = Some file ↔
          ∃ dp entries fp content mode mtimeMs,
            package_dir tree_with_root_file dp entries
            ∧ is_Some (@parsePackageJson demo_platform (lookup_entry "package.json" entries))
            ∧ plain_file (Dir entries) fp = Some (File content mode mtimeMs)
            ∧ path = join ["/out"; String.concat "/" dp; String.concat "/" fp]
            ∧ file = {| OutFile.content := content;
                        OutFile.perm := Z.land mode mode_0o777 |}.
Proof.
  assert (wf_node tree_with_root_file) as Hwf by (vm_compute; exact I).
  assert (@scanNodeModules demo_platform "/proj/node_modules" tree_with_root_file
          = Ok demo_scan) as Hscan by (vm_compute; reflexivity).
  split; [exact Hwf|]. split; [exact Hscan|].
  apply (@pack_extract_round_trip demo_platform (demo_env tree_with_root_file) demo_options
           tree_with_root_file demo_scan "/out" 18).
  - reflexivity.
  - discriminate.
  - exact Hwf.
  - exact Hscan.
  - repeat constructor; eexists; reflexivity.
  - intros f g _ _. apply demo_sha256_inj.
  - intros content. apply demo_codec.
Defined.

Lemma pack_digest_correct_witness :
  (∀ content, @gunzipSync demo_platform (@gzipSync demo_platform content 6) = Some content)
  ∧ @pack demo_platform (demo_env tree_with_root_file) demo_options = Ok (0, demo_snapshot)
  ∧ NoDup (BlobInfo.hash <$> blobs demo_snapshot).
Proof.
  assert (@pack demo_platform (demo_env tree_with_root_file) demo_options
          = Ok (0, demo_snapshot)) as Hpack by (vm_compute; reflexivity).
  split; [exact (demo_codec 6)|]. split; [exact Hpack|].
  exact (proj1 (@pack_digest_correct demo_platform (demo_env tree_with_root_file)
                  demo_options 0 demo_snapshot (demo_codec 6) Hpack)).
Defined.

(** Two packages that hold the same manifest and the same [x.js]. *)
Definition tree_with_copies : node :=
  Dir [ ("a", Dir [ ("package.json", regular manifest_a); ("x.js", regular "same") ]);
        ("b", Dir [ ("package.json", regular manifest_a); ("x.js", regular "same") ]) ].

Definition snapshot_with_copies : Store :=
  match @pack demo_platform (demo_env tree_with_copies) demo_options with
  | Ok (_, db) => db
  | Err _ => Store_new
  end.

Lemma pack_deduplication_witness :
  @pack demo_platform (demo_env tree_with_copies) demo_options = Ok (2, snapshot_with_copies)
  ∧ copies (readFile (tree_view "/proj/node_modules" tree_with_copies)) (bytes "same")
      (@emitted_files demo_platform "/proj/node_modules" tree_with_copies) = 2
  ∧ length (filter (λ b, BlobInfo.hash b = @sha256_hex demo_platform (bytes "same"))
              (blobs snapshot_with_copies)) = 1.
Proof.
  assert (@pack demo_platform (demo_env tree_with_copies) demo_options
          = Ok (2, snapshot_with_copies)) as Hpack by (vm_compute; reflexivity).
  assert (copies (readFile (tree_view "/proj/node_modules" tree_with_copies)) (bytes "same")
            (@emitted_files demo_platform "/proj/node_modules" tree_with_copies) = 2)
    as Hcopies by (vm_compute; reflexivity).
  split; [exact Hpack|]. split; [exact Hcopies|].
  refine (proj1 (@pack_deduplication demo_platform (demo_env tree_with_copies) demo_options
                   tree_with_copies 2 snapshot_with_copies (bytes "same") eq_refl Hpack _)).
  change (PackOptions.source demo_options) with "/proj/node_modules".
  rewrite Hcopies. lia.
Defined.

(** The restored tree after [a/index.js] was edited and
    [a/package.json] was deleted, with the database beside it. *)
Definition disk_after_edit : FsView :=
  tree_view "/proj"
    (Dir [ ("node_modules.db", regular "SQLite format 3");
           ("node_modules", Dir [ ("a", Dir [ ("index.js", regular "HELLO") ]) ]) ]).

Definition demo_status_options : StatusOptions.t :=
  {| StatusOptions.db := "/proj/node_modules.db";
     StatusOptions.nodeModules := "/proj/node_modules" |}.

Lemma status_classification_witness :
  existsSync disk_after_edit "/proj/node_modules.db" = true
  ∧ existsSync disk_after_edit "/proj/node_modules" = true
  ∧ ∃ r, @status demo_platform disk_after_edit demo_snapshot demo_status_options = Ok r
      ∧ StatusResult.onlyInDb r = ["a/package.json"]
      ∧ StatusResult.modified r = ["a/index.js"]
      ∧ StatusResult.unchanged r = 0.
Proof.
  split; [reflexivity|]. split; [reflexivity|].
  destruct (@status_classification demo_platform disk_after_edit demo_snapshot
              demo_status_options eq_refl eq_refl) as (r & Hr & Hdb & Hmod & Hun).
  exists r. split; [exact Hr|]. rewrite Hdb, Hmod, Hun. split_and!; reflexivity.
Defined.

Lemma status_partition_witness :
  existsSync disk_after_edit "/proj/node_modules.db" = true
  ∧ existsSync disk_after_edit "/proj/node_modules" = true
  ∧ ∃ r, @status demo_platform disk_after_edit demo_snapshot demo_status_options = Ok r
      ∧ length (StatusResult.onlyInDb r) + length (StatusResult.modified r)
          + StatusResult.unchanged r = 2
      ∧ StatusResult.onlyInFs r = [].
Proof.
  split; [reflexivity|]. split; [reflexivity|].
  exact (@status_partition demo_platform disk_after_edit demo_snapshot
           demo_status_options eq_refl eq_refl).
Defined.

Lemma scan_manifest_tolerance_witness :
  (∃ dirs, packageDirs "/proj/node_modules" tree_null_manifest = Ok dirs
           ∧ ∃ scan, @scanNodeModules demo_platform "/proj/node_modules" tree_null_manifest
                     = Ok scan
                     ∧ ScanResult.packages scan = omap (@emitted_package demo_platform) dirs).
Proof.
  eexists. split; [reflexivity|].
  refine (proj1 (@scan_manifest_tolerance demo_platform "/proj/node_modules"
                   tree_null_manifest _ eq_refl)).
Defined.

(** [demo_snapshot] without the blob of [a/index.js]. *)
Definition snapshot_missing_blob : Store :=
  {| metadata := metadata demo_snapshot; packages := packages demo_snapshot;
     blobs := take 1 (blobs demo_snapshot); files := files demo_snapshot |}.

Definition output_missing_blob : gmap string OutFile.t :=
  match @extractFiles demo_platform _ (clean_dir 18) snapshot_missing_blob "/out" ∅ with
  | Ok (_, fs) => fs
  | Err _ => ∅
  end.

Lemma extractFiles_totals_witness :
  @extractFiles demo_platform _ (clean_dir 18) snapshot_missing_blob "/out" ∅
  = Ok ({| ExtractResult.totalFiles := 2; ExtractResult.totalSize := 30 |},
        output_missing_blob)
  ∧ length (getAllFiles snapshot_missing_blob) = 2
  ∧ ∃ writes,
      @extractFiles demo_platform _ (@recording _ (clean_dir 18)) snapshot_missing_blob
        "/out" (∅, [])
      = Ok ({| ExtractResult.totalFiles := 2; ExtractResult.totalSize := 30 |},
            (output_missing_blob, writes))
      ∧ Forall2 (@write_of demo_platform snapshot_missing_blob "/out")
          (filter (blob_found snapshot_missing_blob) (getAllFiles snapshot_missing_blob))
          writes
      ∧ sum_list (length ∘ snd <$> writes) = 30.
Proof.
  assert (@extractFiles demo_platform _ (clean_dir 18) snapshot_missing_blob "/out" ∅
          = Ok ({| ExtractResult.totalFiles := 2; ExtractResult.totalSize := 30 |},
                output_missing_blob)) as Hextract by (vm_compute; reflexivity).
  split; [exact Hextract|].
  destruct (proj1 (@extractFiles_totals demo_platform _ (clean_dir 18)
                     snapshot_missing_blob "/out" ∅) _ _ Hextract)
    as (Hfiles & _ & writes & Hrecorded & Hwrites & Hsize).
  split; [exact (eq_sym Hfiles)|].
  exists writes. split; [exact Hrecorded|]. split; [exact Hwrites | exact (eq_sym Hsize)].
Defined.

(** * Further properties *)



(** * The store, statement by statement *)

(** ** metadata *)

Lemma find_replaced (rows : list (string * string)) (key value key' : string) :
  find (λ kv, bool_decide (kv.1 = key')) (filter (λ kv, kv.1 ≠ key) rows ++ [(key, value)]) =
  if decide (key' = key) then Some (key, value)
  else find (λ kv, bool_decide (kv.1 = key')) rows.
Proof.
  induction rows as [|[k v] rows IH]; simpl.
  - case_bool_decide; case_decide; congruence.
  - rewrite filter_cons. simpl. destruct (decide (k ≠ key)) as [Hk|Hk]; simpl.
    + case_bool_decide as Hk'; [|done]. subst k. by rewrite decide_False.
    + apply dec_stable in Hk. subst k. rewrite IH.
      case_decide; [done|]. by rewrite bool_decide_eq_false_2 by congruence.
Qed.

(** X1. After [setMetadata key value], [getMetadata] returns [value] for
    [key] and what it returned before for every other key. *)
Theorem getMetadata_setMetadata (db : Store) (key value key' : string) :
  getMetadata key' (setMetadata key value db) =
  if decide (key' = key) then Some value else getMetadata key' db.
Proof.
  unfold getMetadata, setMetadata. simpl. rewrite find_replaced. by case_decide.
Qed.

Lemma filter_replaced (rows : list (string * string)) (key value : string) :
  filter (λ kv, kv.1 ≠ key) (filter (λ kv, kv.1 ≠ key) rows ++ [(key, value)])
  = filter (λ kv, kv.1 ≠ key) rows.
Proof.
  rewrite filter_app, filter_cons_False, filter_nil, app_nil_r by (simpl; tauto).
  induction rows as [|kv rows IH]; [done|].
  rewrite filter_cons. case_decide.
  - rewrite filter_cons_True by done. by rewrite IH.
  - done.
Qed.

(** X2. A second [setMetadata] on a key replaces the first: the store is
    the one that the second call alone would give, and the table holds
    exactly one row for the key. *)
Theorem setMetadata_overwrite (db : Store) (key first second : string) :
  setMetadata key second (setMetadata key first db) = setMetadata key second db
  ∧ filter (λ kv, kv.1 = key) (metadata (setMetadata key second db)) = [(key, second)].
Proof.
  split.
  - unfold setMetadata. simpl. by rewrite filter_replaced.
  - unfold setMetadata. simpl. rewrite filter_app, filter_cons_True, filter_nil by done.
    rewrite (filter_key_absent fst); [done|].
    intros (kv & [Hkv _]%list_elem_of_filter & Hkey)%Exists_exists. done.
Qed.

Lemma setMetadata_NoDup (key value : string) (db : Store) :
  NoDup (metadata db).*1 → NoDup (metadata (setMetadata key value db)).*1.
Proof.
  intros Hnd. unfold setMetadata. simpl. rewrite fmap_app. apply NoDup_app. split_and!.
  - apply (sublist_NoDup _ (metadata db).*1); [done|]. apply fmap_sublist, sublist_filter.
  - intros k (kv & Hk & [Hkv _]%list_elem_of_filter)%list_elem_of_fmap.
    intros Hk'%list_elem_of_singleton. simpl in Hk'. congruence.
  - apply NoDup_singleton.
Qed.

(** ** blobs *)

Lemma hasBlob_getBlob (hash : string) (db : Store) :
  hasBlob hash db = true ↔ is_Some (getBlob hash db).
Proof.
  unfold hasBlob, getBlob. rewrite bool_decide_eq_true, fmap_is_Some. split.
  - apply find_key_is_Some.
  - intros [b Hb]. apply (find_key_Some BlobInfo.hash) in Hb as [Hin Hhash].
    apply Exists_exists. eauto.
Qed.

Lemma find_app {A} (p : A → bool) (l k : list A) :
  find p (l ++ k) = match find p l with Some x => Some x | None => find p k end.
Proof. induction l as [|a l IH]; simpl; [done|]. by destruct (p a). Qed.

(** X3. [getBlob] after [insertBlob]: a digest that was stored keeps its
    content (the first write wins), the digest of the new blob now gives
    its content, and any other digest is still absent. *)
Theorem getBlob_insertBlob (blob : BlobInfo.t) (db : Store) (hash : string) :
  getBlob hash (insertBlob blob db) =
  match getBlob hash db with
  | Some content => Some content
  | None => if decide (hash = BlobInfo.hash blob) then Some (BlobInfo.content blob) else None
  end.
Proof.
  unfold insertBlob. destruct (hasBlob (BlobInfo.hash blob) db) eqn:Hhas.
  - destruct (getBlob hash db) as [content|] eqn:Hget; [done|].
    case_decide as Hhash; [|done]. subst hash.
    apply hasBlob_getBlob in Hhas as [? Hsome]. congruence.
  - unfold getBlob. simpl. rewrite find_app. destruct (find _ (blobs db)); simpl; [done|].
    case_bool_decide; case_decide; done || congruence.
Qed.

(** ** files *)

(** The columns of [UNIQUE(package_id, relative_path)]. *)
Definition record_key (r : FileRecord.t) : nat * string :=
  (FileRecord.packageId r, FileRecord.relativePath r).

Lemma same_file_key_spec (a b : FileRecord.t) :
  same_file_key a b = true ↔ record_key a = record_key b.
Proof.
  unfold same_file_key, record_key. rewrite bool_decide_eq_true.
  split; [by intros [-> ->] | by intros [= -> ->]].
Qed.

Lemma insertFile_conflict `{Platform} (file : FileRecord.t) (db : Store) :
  record_key file ∈ record_key <$> (files db).*2 →
  files (insertFile file db) =
  (λ row, if decide (record_key row.2 = record_key file) then (row.1, file) else row) <$> files db.
Proof.
  intros Hin. unfold insertFile. simpl. rewrite bool_decide_eq_true_2.
  - apply list_fmap_ext. intros _ row _. simpl.
    destruct (same_file_key row.2 file) eqn:Hsame.
    + apply same_file_key_spec in Hsame. by rewrite decide_True.
    + rewrite decide_False; [done|]. intros Hk%same_file_key_spec. congruence.
  - apply list_elem_of_fmap in Hin as (r & Hr & (row & -> & Hrow)%list_elem_of_fmap).
    apply Exists_exists. exists row. split; [done|]. by apply Is_true_true, same_file_key_spec.
Qed.

Lemma insertFile_fresh `{Platform} (file : FileRecord.t) (db : Store) :
  record_key file ∉ record_key <$> (files db).*2 →
  files (insertFile file db) = files db ++ [(next_id "files" (files db), file)].
Proof.
  intros Hnot. unfold insertFile. simpl. rewrite bool_decide_eq_false_2; [done|].
  intros (row & Hrow & Hsame%Is_true_true%same_file_key_spec)%Exists_exists.
  apply Hnot. rewrite <- Hsame. by apply list_elem_of_fmap_2, list_elem_of_fmap_2.
Qed.

(** The ids and the keys of [files] after [insertFile]: a conflict leaves
    both columns as they were. *)
Lemma insertFile_columns `{Platform} (file : FileRecord.t) (db : Store) :
  (files (insertFile file db)).*1 =
    (files db).*1 ++ (if decide (record_key file ∈ record_key <$> (files db).*2) then []
                      else [next_id "files" (files db)])
  ∧ record_key <$> (files (insertFile file db)).*2 =
    (record_key <$> (files db).*2)
    ++ (if decide (record_key file ∈ record_key <$> (files db).*2) then [] else [record_key file]).
Proof.
  case_decide as Hin.
  - rewrite insertFile_conflict, !app_nil_r by done. split.
    + rewrite <- list_fmap_compose. apply list_fmap_ext. intros _ row _. simpl. by case_decide.
    + rewrite <- !list_fmap_compose. apply list_fmap_ext. intros _ row _. simpl.
      by case_decide.
  - rewrite insertFile_fresh by done. by rewrite !fmap_app.
Qed.

Lemma insertFile_NoDup `{Platform} (file : FileRecord.t) (db : Store) :
  NoDup (files db).*1 → NoDup (record_key <$> (files db).*2) →
  NoDup (files (insertFile file db)).*1
  ∧ NoDup (record_key <$> (files (insertFile file db)).*2).
Proof.
  intros Hids Hkeys. destruct (insertFile_columns file db) as [-> ->].
  case_decide as Hin; rewrite ?app_nil_r; [done|]. split.
  - apply NoDup_app. split_and!; [done | | apply NoDup_singleton].
    intros id Hid ->%list_elem_of_singleton. by apply next_id_fresh in Hid.
  - apply NoDup_app. split_and!; [done | | apply NoDup_singleton].
    by intros k Hk ->%list_elem_of_singleton.
Qed.

(** X4. [insertFile] on a store whose (package_id, relative_path) pairs
    are unique and that holds the package and the blob the record refers
    to (with foreign keys enforced, SQLite rejects the statement
    otherwise): the count of [files] grows by one when the pair is new and
    stays when it is not; afterwards exactly one row has the pair, it
    carries the new record, under the id of the row it replaced if there
    was one and otherwise under an id above every id of the table (which
    one, AUTOINCREMENT decides); every other row and every other table is
    unchanged, and the pairs stay unique. *)
Theorem insertFile_upsert `{Platform} (file : FileRecord.t) (db : Store) :
  FileRecord.packageId file ∈ (packages db).*1 →
  hasBlob (FileRecord.blobHash file) db = true →
  NoDup (record_key <$> (files db).*2) →
  getTotalFileCount (insertFile file db) =
    getTotalFileCount db
    + (if decide (record_key file ∈ record_key <$> (files db).*2) then 0 else 1)
  ∧ NoDup (record_key <$> (files (insertFile file db)).*2)
  ∧ (∃ id,
       filter (λ row, record_key row.2 = record_key file) (files (insertFile file db))
       = [(id, file)]
       ∧ (∀ oldId old, (oldId, old) ∈ files db → record_key old = record_key file → id = oldId)
       ∧ (record_key file ∉ record_key <$> (files db).*2 →
            ∀ other, other ∈ (files db).*1 → other < id))
  ∧ filter (λ row, record_key row.2 ≠ record_key file) (files (insertFile file db))
    = filter (λ row, record_key row.2 ≠ record_key file) (files db)
  ∧ metadata (insertFile file db) = metadata db
  ∧ packages (insertFile file db) = packages db
  ∧ blobs (insertFile file db) = blobs db.
Proof.
  intros _ _ Hkeys.
  assert (NoDup (record_key <$> (files (insertFile file db)).*2)) as Hkeys'.
  { destruct (insertFile_columns file db) as [_ ->].
    case_decide; rewrite ?app_nil_r; [done|].
    apply NoDup_app. split_and!; [done | | apply NoDup_singleton].
    by intros k Hk ->%list_elem_of_singleton. }
  split_and!; try done.
  - unfold getTotalFileCount. rewrite <- !(length_fmap fst).
    destruct (insertFile_columns file db) as [-> _]. rewrite length_app.
    by case_decide.
  - destruct (decide (record_key file ∈ record_key <$> (files db).*2)) as [Hin|Hnot].
    + pose proof Hin as (r & Hr & (old & -> & Hold)%list_elem_of_fmap)%list_elem_of_fmap.
      exists old.1. split_and!.
      * rewrite <- list_fmap_compose in Hkeys'.
        assert ((old.1, file) ∈ files (insertFile file db)) as Hnew.
        { rewrite insertFile_conflict by done. apply list_elem_of_fmap. exists old.
          split; [|done]. by rewrite decide_True. }
        exact (filter_key_unique (record_key ∘ snd) _ (old.1, file) Hkeys' Hnew).
      * intros oldId' old' Hold' Hk'. rewrite <- list_fmap_compose in Hkeys.
        assert (old = (oldId', old')) as ->; [|done].
        apply (key_inj_on (record_key ∘ snd) (files db)); [done..|]. simpl. congruence.
      * intros Hnot. by destruct Hnot.
    + exists (next_id "files" (files db)). split_and!; [| |by intros _ other ?%(next_id_above "files")].
      * rewrite insertFile_fresh, filter_app, filter_cons_True, filter_nil by done.
        assert (filter (λ row : nat * FileRecord.t, record_key row.2 = record_key file)
                  (files db) = []) as ->; [|done].
        apply (filter_key_absent (record_key ∘ snd) (record_key file)).
        intros (row & Hrow & Hk)%Exists_exists. apply Hnot. simpl in Hk. rewrite <- Hk.
        by apply list_elem_of_fmap_2, list_elem_of_fmap_2.
      * intros oldId old Hold Hk. exfalso. apply Hnot. rewrite <- Hk.
        apply list_elem_of_fmap_2. by apply (list_elem_of_fmap_2 snd) in Hold.
  - destruct (decide (record_key file ∈ record_key <$> (files db).*2)) as [Hin|Hnot].
    + rewrite insertFile_conflict by done. clear.
      induction (files db) as [|row rows IH]; [done|]. rewrite fmap_cons, !filter_cons.
      simpl. destruct (decide (record_key row.2 = record_key file)) as [Hk|Hk]; simpl.
      * rewrite !decide_False by tauto. done.
      * rewrite !decide_True by done. by rewrite IH.
    + rewrite insertFile_fresh, filter_app, filter_cons_False, filter_nil, app_nil_r by
        (done || simpl; tauto). done.
Qed.

(** ** packages and the join *)

(** X5. With unique package ids, the rows of [getAllFiles] that belong to
    the package [id] are the rows of [getFilesByPackage id], each with the
    path that [getPackageById id] gives; for an id without a package the
    join has no row. *)
Theorem getAllFiles_by_package (db : Store) (id : nat) :
  NoDup (packages db).*1 →
  filter (λ row, FileRow.packageId row = id) (getAllFiles db) =
  match getPackageById id db with
  | Some info => (λ f, joined_row f (id, info)) <$> getFilesByPackage id db
  | None => []
  end.
Proof.
  intros Hids. rewrite getAllFiles_unfold. unfold getFilesByPackage, getPackageById.
  assert (∀ (f : nat * FileRecord.t) (ps : list (nat * PackageInfo.t)),
    FileRecord.packageId f.2 ≠ id →
    filter (λ row, FileRow.packageId row = id) (joined_row f <$> ps) = []) as Hother.
  { intros f ps Hid. induction ps as [|p ps IHp]; [done|].
    by rewrite fmap_cons, filter_cons_False. }
  destruct (find _ (packages db)) as [p|] eqn:Hfind; simpl.
  - apply (find_key_Some fst) in Hfind as [Hin Hp].
    assert (filter (λ q : nat * PackageInfo.t, q.1 = id) (packages db) = [p]) as Hone.
    { rewrite <- Hp. by apply (filter_key_unique fst). }
    induction (files db) as [|f rows IH]; [done|].
    cbn [flat_map]. rewrite filter_app, IH, filter_cons. clear IH.
    destruct (decide (FileRecord.packageId f.2 = id)) as [Hid|Hid].
    + rewrite Hid, Hone, fmap_cons, fmap_nil, filter_cons_True by done.
      rewrite fmap_cons. destruct p as [pid info]. simpl in Hp. by subst pid.
    + by rewrite Hother.
  - apply (find_key_None fst) in Hfind.
    assert (filter (λ q : nat * PackageInfo.t, q.1 = id) (packages db) = []) as Hnone.
    { by apply (filter_key_absent fst). }
    induction (files db) as [|f rows IH]; [done|].
    cbn [flat_map]. rewrite filter_app, IH. clear IH.
    destruct (decide (FileRecord.packageId f.2 = id)) as [Hid|Hid].
    + by rewrite Hid, Hnone.
    + by rewrite Hother.
Qed.

(** X6. With unique package ids, [getPackageById] on the id that
    [insertPackage] returned gives the inserted package, and on any other
    id what it gave before. *)
Theorem getPackageById_insertPackage `{Platform} (pkg : PackageInfo.t) (db : Store) (id' : nat) :
  NoDup (packages db).*1 →
  getPackageById id' (insertPackage pkg db).2 =
  if decide (id' = (insertPackage pkg db).1) then Some pkg else getPackageById id' db.
Proof.
  intros Hids. unfold insertPackage, getPackageById.
  destruct (find (λ row, bool_decide (row.2 = pkg)) (packages db)) as [row|] eqn:Hfind; simpl.
  - case_decide as Hid; [|done]. subst id'.
    apply (find_key_Some snd) in Hfind as [Hin Hrow].
    destruct (find_key_is_Some fst row.1 (packages db)) as [row' Hrow'].
    { apply Exists_exists. by exists row. }
    rewrite Hrow'. apply (find_key_Some fst) in Hrow' as [Hin' Hid].
    rewrite (key_inj_on fst (packages db) row' row Hids Hin' Hin Hid). simpl. by rewrite Hrow.
  - rewrite find_app. simpl. case_decide as Hid.
    + subst id'. rewrite bool_decide_eq_true_2 by done.
      destruct (find (λ row, bool_decide (row.1 = _)) (packages db)) as [row|] eqn:Hrow;
        [|done].
      apply (find_key_Some fst) in Hrow as [Hin Hid]. exfalso.
      apply (next_id_fresh "packages" (packages db)). rewrite <- Hid. by apply list_elem_of_fmap_2.
    + rewrite bool_decide_eq_false_2 by congruence.
      by destruct (find (λ row, bool_decide (row.1 = _)) (packages db)).
Qed.

(** ** The constraints of the schema *)

(** What [CREATE_TABLES_SQL] declares: the primary keys, the two UNIQUE
    constraints and the two REFERENCES. *)
Definition constraints_ok (db : Store) : Prop :=
  NoDup (metadata db).*1
  ∧ NoDup (packages db).*1
  ∧ NoDup (packages db).*2
  ∧ NoDup (BlobInfo.hash <$> blobs db)
  ∧ NoDup (files db).*1
  ∧ NoDup (record_key <$> (files db).*2)
  ∧ ∀ f, f ∈ files db →
      FileRecord.packageId f.2 ∈ (packages db).*1
      ∧ FileRecord.blobHash f.2 ∈ BlobInfo.hash <$> blobs db.

Lemma constraints_ok_empty :
  constraints_ok {| metadata := []; packages := []; blobs := []; files := [] |}.
Proof.
  unfold constraints_ok. simpl. split_and!; try apply NoDup_nil_2.
  by intros f ?%elem_of_nil.
Qed.

Lemma constraints_ok_setMetadata (key value : string) (db : Store) :
  constraints_ok db → constraints_ok (setMetadata key value db).
Proof.
  intros (Hm & Hrest). split; [by apply setMetadata_NoDup | exact Hrest].
Qed.

Lemma constraints_ok_insertPackage `{Platform} (info : PackageInfo.t) (db : Store) :
  constraints_ok db → constraints_ok (insertPackage info db).2.
Proof.
  intros (Hm & Hids & Htriples & Hb & Hfids & Hkeys & Hrefs). unfold insertPackage.
  destruct (find _ (packages db)) as [row|] eqn:Hfind; [done|].
  unfold constraints_ok. cbn [metadata packages blobs files snd].
  apply (find_key_None snd) in Hfind.
  split_and!; try done.
  - rewrite fmap_app. apply NoDup_app. split_and!; [done | | apply NoDup_singleton].
    intros id Hid ->%list_elem_of_singleton. by apply next_id_fresh in Hid.
  - rewrite fmap_app. apply NoDup_app. split_and!; [done | | apply NoDup_singleton].
    intros p (row & Hp & Hrow)%list_elem_of_fmap Hp'%list_elem_of_singleton.
    apply Hfind, Exists_exists. exists row. split; [done|]. simpl in Hp'. congruence.
  - intros f Hf. destruct (Hrefs f Hf) as [Hp Hh]. split; [|done].
    rewrite fmap_app. apply elem_of_app. by left.
Qed.

Lemma constraints_ok_insertBlob (blob : BlobInfo.t) (db : Store) :
  constraints_ok db → constraints_ok (insertBlob blob db).
Proof.
  intros (Hm & Hids & Htriples & Hb & Hfids & Hkeys & Hrefs).
  pose proof (insertBlob_NoDup blob db Hb) as Hb'. revert Hb'. unfold insertBlob.
  destruct (hasBlob _ db); [done|].
  unfold constraints_ok. cbn [metadata packages blobs files]. intros Hb'.
  split_and!; try done.
  intros f Hf. destruct (Hrefs f Hf) as [Hp Hh]. split; [done|].
  rewrite fmap_app. apply elem_of_app. by left.
Qed.

Lemma constraints_ok_insertFile `{Platform} (file : FileRecord.t) (db : Store) :
  FileRecord.packageId file ∈ (packages db).*1 →
  hasBlob (FileRecord.blobHash file) db = true →
  constraints_ok db → constraints_ok (insertFile file db).
Proof.
  intros Hp Hh%hasBlob_true (Hm & Hids & Htriples & Hb & Hfids & Hkeys & Hrefs).
  destruct (insertFile_NoDup file db Hfids Hkeys) as [Hfids' Hkeys'].
  split_and!; try done.
  intros f [->|Hf]%insertFile_elem_of; [done | by apply Hrefs].
Qed.

Section constraints_of_pack.
Context `{Platform} (readFileSync : string → option (list byte)) (level : Z).

Lemma packFile_constraints_ok (packageId : nat) (st st' : PackState) (file : FileEntry.t) :
  packageId ∈ (packages (pk_store st)).*1 →
  constraints_ok (pk_store st) →
  packFile readFileSync level packageId st file = Ok st' →
  constraints_ok (pk_store st') ∧ packages (pk_store st') = packages (pk_store st).
Proof.
  intros Hid Hok (content & _ & -> & _)%packFile_Ok. split.
  - apply constraints_ok_insertFile.
    + by rewrite packages_insertBlob.
    + exact (hasBlob_insertBlob (blob_of level content) (pk_store st)).
    + by apply constraints_ok_insertBlob.
  - by rewrite packages_insertFile, packages_insertBlob.
Qed.

Lemma packFiles_constraints_ok (scanned : list ScannedPackage.t) (st st' : PackState) :
  constraints_ok (pk_store st) →
  foldlM (packPackage readFileSync level) scanned st = Ok st' →
  constraints_ok (pk_store st').
Proof.
  intros Hok Hloop.
  apply (foldlM_invariant _ (λ _ st, constraints_ok (pk_store st)) ) with (done := [])
    in Hloop; [done| |done].
  clear. intros _ pkg st st' Hok (name & version & _ & _ & Hfiles)%packPackage_Ok.
  simpl in Hfiles.
  set (info := {| PackageInfo.name := name; PackageInfo.version := version;
                  PackageInfo.path := ScannedPackage.path pkg |}) in *.
  apply (foldlM_invariant _ (λ _ b,
           constraints_ok (pk_store b)
           ∧ (insertPackage info (pk_store st)).1 ∈ (packages (pk_store b)).*1))
    with (done := []) in Hfiles; [by destruct Hfiles | |].
  - intros _ file b b' [Hb Hid] Hstep.
    destruct (packFile_constraints_ok _ _ _ _ Hid Hb Hstep) as [Hb' Hpk].
    split; [done|]. by rewrite Hpk.
  - simpl. split; [by apply constraints_ok_insertPackage|].
    apply (list_elem_of_fmap_2 fst _ (_, info)), insertPackage_elem_of.
Qed.

End constraints_of_pack.

(** X7. Every snapshot that [pack] produces satisfies what the schema
    declares: the primary keys and the two UNIQUE constraints hold, and
    every row of [files] refers to a row of [packages] and to a row of
    [blobs]. *)
Theorem pack_constraints `{Platform} (env : PackEnv) (options : PackOptions.t)
    (dedup : nat) (db : Store) :
  pack env options = Ok (dedup, db) → constraints_ok db.
Proof.
  unfold pack, transaction. destruct (env_tree env) as [root|]; [|done].
  destruct (scanNodeModules _ root) as [scan|]; simpl; [|done].
  intros (st & Hloop & _ & <-)%packFiles_Ok.
  apply packFiles_constraints_ok in Hloop; [done|]. simpl.
  assert (∀ store, constraints_ok store →
    constraints_ok (if PackOptions.includeLockfile options then
                      match env_lockfile env with
                      | Some lockfileContent =>
                          setMetadata "lockfile_hash" (hashString lockfileContent) store
                      | None => store
                      end
                    else store)) as Hlock.
  { intros store Hstore. destruct (PackOptions.includeLockfile options); [|done].
    destruct (env_lockfile env); [|done]. by apply constraints_ok_setMetadata. }
  apply Hlock. do 4 apply constraints_ok_setMetadata. apply constraints_ok_empty.
Qed.


(** * The scanner, function by function *)

Lemma fold_left_count {A} (g : A → nat) (l : list A) (n : nat) :
  fold_left (λ count x, count + g x) l n = n + sum_list (g <$> l).
Proof.
  revert n. induction l as [|a l IH]; intros n; [simpl; lia|].
  rewrite fmap_cons. cbn [fold_left sum_list_with]. rewrite IH. unfold id. lia.
Qed.

Lemma length_flat_map {A B} (g : A → list B) (l : list A) :
  length (flat_map g l) = sum_list ((λ x, length (g x)) <$> l).
Proof. induction l as [|a l IH]; simpl; [done|]. by rewrite length_app, IH. Qed.

Lemma countDir_sum (entries : list (string * node)) :
  countDir entries = sum_list ((λ e, countEntry e.2) <$> entries).
Proof.
  unfold countDir.
  rewrite (fold_left_ext_elem _ (λ count e, count + countEntry e.2)).
  - by rewrite fold_left_count.
  - by intros c [name n] _.
Qed.

Lemma countEntry_walkEntry (n : node) (dir baseDir name : string) :
  countEntry n = length (walkEntry dir baseDir name n).
Proof.
  revert dir name.
  induction n as [content mode mtimeMs|entries IH| |t _] using node_ind';
    intros dir name; try done.
  change (countEntry (Dir entries)) with (countDir entries).
  rewrite countDir_sum. simpl. rewrite length_flat_map. f_equal.
  apply fmap_ext_elem. intros [name' c] Hin. simpl.
  rewrite Forall_forall in IH. apply (IH (name', c) Hin).
Qed.

Lemma countDir_walkDir (entries : list (string * node)) (dir baseDir : string) :
  countDir entries = length (walkDir entries dir baseDir).
Proof.
  rewrite countDir_sum. unfold walkDir. rewrite length_flat_map. f_equal.
  apply fmap_ext_elem. intros [name c] _. apply countEntry_walkEntry.
Qed.

(** X8. [countFiles] counts what [walkDir] would emit for the same
    directory (regular files, through directories but not through links),
    and fails as [readdir] does when the path is not a directory. *)
Theorem countFiles_walkDir (nodeModulesPath : string) (root : node) (dir baseDir : string) :
  countFiles nodeModulesPath root =
  match readdir nodeModulesPath (Some root) with
  | Ok entries => Ok (length (walkDir entries dir baseDir))
  | Err e => Err e
  end.
Proof.
  unfold countFiles. destruct (readdir _ _) as [entries|]; simpl; [|done].
  by rewrite (countDir_walkDir entries dir baseDir).
Qed.

Section totals_of_scan.
Context `{Platform}.

Lemma scanPackage_totals (st : ScanState) (d : PackageDir.t) :
  sc_totalFiles (scanPackage st d) =
    sc_totalFiles st + length (flat_map ScannedPackage.files (option_list (emitted_package d)))
  ∧ sc_totalSize (scanPackage st d) =
    sc_totalSize st
    + sum_list (FileEntry.size <$> flat_map ScannedPackage.files (option_list (emitted_package d))).
Proof.
  unfold scanPackage, emitted_package. rewrite parsePackageJson_manifest.
  destruct (manifest d) as [v|]; [|simpl; lia].
  unfold scanFiles. rewrite scanFiles_spec.
  destruct v; simpl; rewrite ?app_nil_r; lia.
Qed.

Lemma scanPackages_totals (dirs : list PackageDir.t) (st : ScanState) :
  sc_totalFiles (fold_left scanPackage dirs st) =
    sc_totalFiles st + length (flat_map ScannedPackage.files (omap emitted_package dirs))
  ∧ sc_totalSize (fold_left scanPackage dirs st) =
    sc_totalSize st
    + sum_list (FileEntry.size <$> flat_map ScannedPackage.files (omap emitted_package dirs)).
Proof.
  revert st. induction dirs as [|d dirs IH]; intros st; [simpl; lia|].
  assert (omap emitted_package (d :: dirs)
          = option_list (emitted_package d) ++ omap emitted_package dirs) as ->.
  { simpl. by destruct (emitted_package d). }
  cbn [fold_left].
  destruct (IH (scanPackage st d)) as [-> ->].
  destruct (scanPackage_totals st d) as [-> ->].
  rewrite flat_map_app, length_app, fmap_app, sum_list_with_app. lia.
Qed.

End totals_of_scan.

(** A scan that returns: the directories it went through, its packages,
    and its two totals. *)
Lemma scanNodeModules_totals `{Platform} (nodeModulesPath : string) (root : node)
    (scan : ScanResult.t) :
  scanNodeModules nodeModulesPath root = Ok scan →
  ∃ dirs,
    packageDirs nodeModulesPath root = Ok dirs
    ∧ ScanResult.packages scan = omap emitted_package dirs
    ∧ ScanResult.totalFiles scan =
        length (flat_map ScannedPackage.files (omap emitted_package dirs))
    ∧ ScanResult.totalSize scan =
        sum_list (FileEntry.size <$> flat_map ScannedPackage.files (omap emitted_package dirs)).
Proof.
  unfold scanNodeModules. fold (packageDirs nodeModulesPath root).
  destruct (packageDirs nodeModulesPath root) as [dirs|]; simpl; [|done].
  intros [= <-]. exists dirs. unfold scanPackages. simpl.
  rewrite scanPackages_spec. simpl.
  destruct (scanPackages_totals dirs
    {| sc_packages := []; sc_totalFiles := 0; sc_totalSize := 0; sc_packageCount := 0 |})
    as [-> ->].
  done.
Qed.

(** X9. In the result of a scan, [totalFiles] is the number of files of
    its packages and [totalSize] is the sum of their sizes. *)
Theorem scan_totals `{Platform} (nodeModulesPath : string) (root : node) (scan : ScanResult.t) :
  scanNodeModules nodeModulesPath root = Ok scan →
  ScanResult.totalFiles scan = length (flat_map ScannedPackage.files (ScanResult.packages scan))
  ∧ ScanResult.totalSize scan =
      sum_list (FileEntry.size <$> flat_map ScannedPackage.files (ScanResult.packages scan)).
Proof.
  intros (dirs & _ & -> & -> & ->)%scanNodeModules_totals. done.
Qed.

(** ** What a walk emits *)

(** [walkEntry] reports of each file what [stat] finds in the tree at its
    path: the size, the mode and the time. *)
Lemma walkEntry_stat (n : node) (dir baseDir name : string) (f : FileEntry.t) :
  wf_node n → dir ≠ EmptyString → valid_name name →
  f ∈ walkEntry dir baseDir name n →
  ∃ fp content,
    segments (FileEntry.absolutePath f) = segments dir ++ name :: fp
    ∧ resolve n fp = Some (File content (FileEntry.mode f) (FileEntry.mtime f))
    ∧ FileEntry.size f = length content.
Proof.
  revert dir name.
  induction n as [content mode mtimeMs|entries IH| |t _] using node_ind';
    intros dir name Hwf Hdir Hname; simpl; try (by intros ?%elem_of_nil).
  - intros ->%list_elem_of_singleton. simpl. exists [], content.
    split_and!; try done. by apply segments_join_name.
  - apply wf_node_Dir in Hwf as [Hnd Hentries].
    intros ([name' c] & Hin & Hf)%elem_of_flat_map.
    destruct (Hentries name' c Hin) as [Hname' Hc].
    rewrite Forall_forall in IH. specialize (IH (name', c) Hin). simpl in IH.
    destruct (IH (join [dir; name]) name' Hc) as (fp & content & Hseg & Hres & Hsize);
      [by apply join_two_ne | done | done |].
    exists (name' :: fp), content.
    rewrite segments_join_name in Hseg by done.
    split_and!; try done.
    + by rewrite Hseg, <- (assoc_L (++)).
    + simpl. unfold child. simpl. by rewrite (lookup_entry_elem_of entries name' c).
Qed.

(** X10. The files that [walkDir(dir, dir)] emits for a well-formed
    directory have distinct, non-empty relative paths; each absolute path
    is [dir] joined with the relative path, which leads through the
    directory to a regular file with the reported mode, time and size. *)
Theorem walkDir_paths (entries : list (string * node)) (dir : string) :
  wf_node (Dir entries) → dir ≠ EmptyString →
  NoDup (FileEntry.relativePath <$> walkDir entries dir dir)
  ∧ ∀ f, f ∈ walkDir entries dir dir →
      FileEntry.relativePath f ≠ EmptyString
      ∧ FileEntry.absolutePath f = join [dir; FileEntry.relativePath f]
      ∧ ∃ content,
          resolve (Dir entries) (segments (FileEntry.relativePath f))
          = Some (File content (FileEntry.mode f) (FileEntry.mtime f))
          ∧ FileEntry.size f = length content.
Proof.
  intros Hwf Hdir.
  assert (∀ f, f ∈ walkDir entries dir dir →
    FileEntry.relativePath f ≠ EmptyString
    ∧ FileEntry.absolutePath f = dir +:+ "/" +:+ FileEntry.relativePath f
    ∧ ∃ fp content,
        segments (FileEntry.absolutePath f) = segments dir ++ fp
        ∧ resolve (Dir entries) fp
          = Some (File content (FileEntry.mode f) (FileEntry.mtime f))
        ∧ FileEntry.size f = length content) as Hfiles.
  { intros f ([name c] & Hin & Hf)%elem_of_flat_map.
    pose proof Hwf as [Hnd Hentries]%wf_node_Dir.
    destruct (Hentries name c Hin) as [Hname Hc].
    destruct (walkEntry_spec c dir dir name f Hc Hdir Hname Hf)
      as (r & _ & _ & _ & Habs & Hrel & _).
    destruct (walkEntry_stat c dir dir name f Hc Hdir Hname Hf)
      as (fp & content & Hseg & Hres & Hsize).
    assert (FileEntry.relativePath f = name +:+ r) as Hrel'.
    { rewrite Hrel, Habs. apply relative_below. }
    split_and!.
    - rewrite Hrel'. intros [-> _]%append_nil_inv. done.
    - by rewrite Habs, Hrel'.
    - exists (name :: fp), content. split_and!; [done | | done].
      simpl. unfold child. simpl. by rewrite (lookup_entry_elem_of entries name c). }
  split.
  - pose proof (walkDir_NoDup entries dir dir Hwf Hdir) as Habs.
    rewrite (fmap_ext_elem _ (String.app (dir +:+ "/") ∘ FileEntry.relativePath)) in Habs.
    + rewrite list_fmap_compose in Habs. by apply NoDup_fmap_1 in Habs.
    + intros f Hf. destruct (Hfiles f Hf) as (_ & -> & _). simpl. by rewrite append_assoc.
  - intros f Hf. destruct (Hfiles f Hf) as (Hne & Habs & fp & content & Hseg & Hres & Hsize).
    split_and!; [done | by rewrite join_two | ].
    exists content. split; [|done].
    rewrite Habs, segments_append_slash in Hseg. apply app_inv_head in Hseg. by rewrite Hseg.
Qed.

(** ** The flat layout *)

Lemma sum_list_le {A} (g h : A → nat) (l : list A) :
  (∀ x, x ∈ l → g x ≤ h x) → sum_list (g <$> l) ≤ sum_list (h <$> l).
Proof.
  induction l as [|a l IH]; intros Hgh; [done|]. rewrite !fmap_cons. simpl.
  pose proof (Hgh a ltac:(by left)). pose proof (IH (λ x Hx, Hgh x ltac:(by right))). lia.
Qed.

(** The directories that [scopedDirs] yields hold no more files than the
    scope directory they are in. *)
Lemma scopedDirs_count (fullPath rel : string) (children : list (string * node))
    (joinRel : string → string → string) :
  length (flat_map walked (scopedDirs fullPath rel children joinRel)) ≤ countDir children.
Proof.
  unfold scopedDirs. rewrite flat_map_flat_map, length_flat_map, countDir_sum.
  apply sum_list_le. intros [scopedName c] _. destruct c as [| cc |]; simpl; try lia.
  rewrite app_nil_r. unfold walked. simpl.
  change (fold_left _ cc 0) with (countDir cc). by rewrite <- countDir_walkDir.
Qed.

(** X11. In the flat layout [countFiles] succeeds whenever the scan does,
    and the scan never reports more files than [countFiles] counts. *)
Theorem scan_within_count `{Platform} (nodeModulesPath : string) (root : node)
    (scan : ScanResult.t) :
  isPnpmStructure root = false →
  scanNodeModules nodeModulesPath root = Ok scan →
  ∃ count, countFiles nodeModulesPath root = Ok count ∧ ScanResult.totalFiles scan ≤ count.
Proof.
  intros Hflat. unfold scanNodeModules, countFiles, findPackageDirs. rewrite Hflat.
  destruct (readdir nodeModulesPath (Some root)) as [entries|]; simpl; [|done].
  intros [= <-]. eexists. split; [done|]. unfold scanPackages. simpl.
  match goal with |- context [fold_left scanPackage ?dirs ?st] =>
    destruct (scanPackages_totals dirs st) as [-> _]; set (found := dirs) end.
  simpl. etrans; [apply sublist_length, emitted_files_sublist|].
  unfold found. rewrite flat_map_flat_map, length_flat_map, countDir_sum.
  apply sum_list_le. intros [name n] _. destruct n as [| children |]; simpl; try lia.
  change (fold_left _ children 0) with (countDir children).
  case_bool_decide; [simpl; lia|].
  destruct (startsWith name "@").
  - apply scopedDirs_count.
  - simpl. rewrite app_nil_r. unfold walked. simpl. by rewrite <- countDir_walkDir.
Qed.

Lemma emitted_package_Some `{Platform} (d : PackageDir.t) (pkg : ScannedPackage.t) :
  emitted_package d = Some pkg →
  is_Some (parsePackageJson (lookup_entry "package.json" (PackageDir.entries d)))
  ∧ ScannedPackage.path pkg = PackageDir.relativePath d
  ∧ ScannedPackage.files pkg = walked d.
Proof.
  rewrite parsePackageJson_manifest. unfold emitted_package.
  destruct (manifest d) as [[]|]; try done; intros [= <-]; by split_and!.
Qed.

(** X12. In the flat layout every package of the scan comes from a
    directory entry of the root (never a link or a file) other than
    [.bin], [.cache] and [.pnpm]: for a name without [@] the package has
    that name as its path and the walk of that directory as its files; for
    a scope [@name] it comes from a directory entry of the scope, with the
    path [@name/child]. Its manifest was accepted. *)
Theorem flat_scan_packages `{Platform} (nodeModulesPath : string) (root : node)
    (entries : list (string * node)) (scan : ScanResult.t) (pkg : ScannedPackage.t) :
  isPnpmStructure root = false →
  follow root = Some (Dir entries) →
  scanNodeModules nodeModulesPath root = Ok scan →
  pkg ∈ ScanResult.packages scan →
  ∃ name children,
    (name, Dir children) ∈ entries
    ∧ name ≠ ".bin" ∧ name ≠ ".cache" ∧ name ≠ ".pnpm"
    ∧ if startsWith name "@"
      then ∃ scopedName scopedChildren,
             (scopedName, Dir scopedChildren) ∈ children
             ∧ ScannedPackage.path pkg = join [name; scopedName]
             ∧ is_Some (parsePackageJson (lookup_entry "package.json" scopedChildren))
             ∧ ScannedPackage.files pkg =
                 walkDir scopedChildren (join [join [nodeModulesPath; name]; scopedName])
                   (join [join [nodeModulesPath; name]; scopedName])
      else ScannedPackage.path pkg = name
           ∧ is_Some (parsePackageJson (lookup_entry "package.json" children))
           ∧ ScannedPackage.files pkg =
               walkDir children (join [nodeModulesPath; name]) (join [nodeModulesPath; name]).
Proof.
  intros Hflat Hroot (dirs & Hdirs & ->)%scanNodeModules_Ok.
  intros (d & Hd & Hemit)%list_elem_of_omap.
  apply emitted_package_Some in Hemit as (Hparse & Hpath & Hfiles).
  unfold packageDirs in Hdirs. rewrite Hflat in Hdirs. unfold findPackageDirs in Hdirs.
  simpl in Hdirs. rewrite Hroot in Hdirs. simpl in Hdirs. injection Hdirs as <-.
  apply elem_of_flat_map in Hd as ([name n] & Hin & Hd).
  destruct n as [| children |]; try (by apply elem_of_nil in Hd).
  case_bool_decide as Hskip; [by apply elem_of_nil in Hd|].
  exists name, children. split_and!; [done | tauto..|].
  destruct (startsWith name "@").
  - apply elem_of_flat_map in Hd as ([scopedName c] & Hc & Hd).
    destruct c as [| scopedChildren |]; try (by apply elem_of_nil in Hd).
    apply list_elem_of_singleton in Hd as ->. by exists scopedName, scopedChildren.
  - by apply list_elem_of_singleton in Hd as ->.
Qed.

(** ** The symlink-farm layout *)

Lemma pnpmEntry_found (pnpmPath entry : string) (n : node) (found : list PackageDir.t)
    (d : PackageDir.t) :
  pnpmEntry pnpmPath entry n = Ok found → d ∈ found →
  isDirectory n = true
  ∧ entry ≠ "node_modules" ∧ startsWith entry "." = false
  ∧ ∃ inner,
      inner ≠ ".bin"
      ∧ (PackageDir.relativePath d = ".pnpm/" +:+ entry +:+ "/node_modules/" +:+ inner
         ∨ ∃ scopedName,
             startsWith inner "@" = true
             ∧ PackageDir.relativePath d =
                 (".pnpm/" +:+ entry +:+ "/node_modules/" +:+ inner) +:+ "/" +:+ scopedName).
Proof.
  unfold pnpmEntry. destruct n as [| children |]; try (by intros [= <-] ?%elem_of_nil).
  destruct (bool_decide (entry = "node_modules")) eqn:Hmodules; simpl;
    [by intros [= <-] ?%elem_of_nil|].
  destruct (startsWith entry ".") eqn:Hdot; simpl; [by intros [= <-] ?%elem_of_nil|].
  apply bool_decide_eq_false in Hmodules.
  case_bool_decide; [|by intros [= <-] ?%elem_of_nil].
  destruct (readdir _ _) as [innerEntries|]; simpl; [|done].
  intros [= <-]. unfold innerPackageDirs.
  intros ([inner [| packageEntries |]] & _ & Hd)%elem_of_flat_map;
    try (by apply elem_of_nil in Hd).
  case_bool_decide as Hbin; [by apply elem_of_nil in Hd|].
  split_and!; try done. exists inner. split; [done|].
  destruct (startsWith inner "@") eqn:Hscoped.
  - right. unfold scopedDirs in Hd.
    apply elem_of_flat_map in Hd as ([scopedName [| scopedEntries |]] & _ & Hd);
      try (by apply elem_of_nil in Hd).
    apply list_elem_of_singleton in Hd as ->. by exists scopedName.
  - left. by apply list_elem_of_singleton in Hd as ->.
Qed.

(** X13. When [.pnpm] is a directory, every package of the scan has a
    path [.pnpm/<entry>/node_modules/<inner>], with [/<child>] appended
    for a scoped [inner], where [entry] is a directory entry of [.pnpm]
    other than [node_modules] whose name does not start with a dot, and
    [inner] is not [.bin]: nothing outside [.pnpm] is scanned. *)
Theorem pnpm_scan_packages `{Platform} (nodeModulesPath : string) (root c : node)
    (entries : list (string * node)) (scan : ScanResult.t) (pkg : ScannedPackage.t) :
  child root ".pnpm" = Some c → follow c = Some (Dir entries) →
  scanNodeModules nodeModulesPath root = Ok scan →
  pkg ∈ ScanResult.packages scan →
  ∃ entry n inner,
    (entry, n) ∈ entries ∧ isDirectory n = true
    ∧ entry ≠ "node_modules" ∧ startsWith entry "." = false
    ∧ inner ≠ ".bin"
    ∧ (ScannedPackage.path pkg = ".pnpm/" +:+ entry +:+ "/node_modules/" +:+ inner
       ∨ ∃ scopedName,
           startsWith inner "@" = true
           ∧ ScannedPackage.path pkg =
               (".pnpm/" +:+ entry +:+ "/node_modules/" +:+ inner) +:+ "/" +:+ scopedName).
Proof.
  intros Hchild Hc (dirs & Hdirs & ->)%scanNodeModules_Ok.
  intros (d & Hd & Hemit)%list_elem_of_omap.
  apply emitted_package_Some in Hemit as (_ & -> & _).
  rewrite (layout_pnpm nodeModulesPath root c entries Hchild Hc) in Hdirs.
  apply pnpmEntries_flat_map in Hdirs as (found & -> & Hfound).
  apply elem_of_flat_map in Hd as ([entry n] & Hin & Hd).
  destruct (pnpmEntry_found _ entry n _ d (Hfound _ Hin) Hd)
    as (Hdir & Hmodules & Hdot & inner & Hbin & Hrel).
  by exists entry, n, inner.
Qed.

(** * The packer, from the outside *)

(** ** Metadata *)

Lemma packFiles_metadata `{Platform} (readFileSync : string → option (list byte)) (level : Z)
    (scanned : list ScannedPackage.t) (st st' : PackState) :
  foldlM (packPackage readFileSync level) scanned st = Ok st' →
  metadata (pk_store st') = metadata (pk_store st).
Proof.
  intros Hloop.
  apply (packFiles_invariant readFileSync level
           (λ _ s, metadata (pk_store s) = metadata (pk_store st)) scanned st st');
    try done.
  - intros _ s info Hs. simpl. unfold insertPackage. by destruct (find _ _).
  - intros _ s s1 packageId file Hs (content & _ & -> & _)%packFile_Ok.
    simpl. unfold insertBlob. by destruct (hasBlob _ _).
Qed.

(** X14. A snapshot that [pack] produced records the schema version, the
    time and the node version of the run and the source path; it records
    the digest of the lock file exactly when the option asks for it and
    the file exists. *)
Theorem pack_metadata `{Platform} (env : PackEnv) (options : PackOptions.t)
    (dedup : nat) (db : Store) :
  pack env options = Ok (dedup, db) →
  getMetadata "schema_version" db = Some "1"
  ∧ getMetadata "created_at" db = Some (env_now env)
  ∧ getMetadata "node_version" db = Some (env_version env)
  ∧ getMetadata "source_path" db = Some (PackOptions.source options)
  ∧ getMetadata "lockfile_hash" db =
      (if PackOptions.includeLockfile options then hashString <$> env_lockfile env else None).
Proof.
  unfold pack, transaction. destruct (env_tree env) as [root|]; [|done].
  destruct (scanNodeModules _ root) as [scan|]; simpl; [|done].
  intros (st & Hloop & _ & <-)%packFiles_Ok.
  apply packFiles_metadata in Hloop. simpl in Hloop.
  unfold getMetadata at 1 2 3 4 5. rewrite Hloop.
  destruct (PackOptions.includeLockfile options); [destruct (env_lockfile env)|];
    split_and!; reflexivity.
Qed.

(** ** Counts *)

Lemma packFiles_counts `{Platform} (readFileSync : string → option (list byte)) (level : Z)
    (scanned : list ScannedPackage.t) (st st' : PackState) :
  blobs (pk_store st) = [] → pk_deduplicatedCount st = 0 →
  foldlM (packPackage readFileSync level) scanned st = Ok st' →
  length (blobs (pk_store st')) + pk_deduplicatedCount st'
  = length (flat_map ScannedPackage.files scanned).
Proof.
  intros Hblobs Hdedup Hloop.
  apply (packFiles_invariant readFileSync level
           (λ done s, length (blobs (pk_store s)) + pk_deduplicatedCount s = length done)
           scanned st st'); try done.
  - intros done s info Hs. simpl. unfold insertPackage. by destruct (find _ _).
  - intros done s s1 packageId file Hs (content & _ & -> & _ & ->)%packFile_Ok.
    rewrite length_app. simpl. unfold insertBlob. simpl.
    destruct (hasBlob _ _); simpl; rewrite ?length_app; simpl; lia.
  - by rewrite Hblobs, Hdedup.
Qed.

(** X15. After [pack], the number of blobs plus the reported number of
    deduplicated files is the number of files that the scan found. *)
Theorem pack_counts `{Platform} (env : PackEnv) (options : PackOptions.t) (root : node)
    (scan : ScanResult.t) (dedup : nat) (db : Store) :
  env_tree env = Some root →
  scanNodeModules (PackOptions.source options) root = Ok scan →
  pack env options = Ok (dedup, db) →
  (getBlobStats db).1.1 + dedup = ScanResult.totalFiles scan.
Proof.
  intros Htree Hscan Hpack.
  destruct (pack_unfold env options root scan Htree Hscan) as (store & _ & Hblobs & _ & Heq).
  rewrite Heq in Hpack. apply packFiles_Ok in Hpack as (st & Hloop & <- & <-).
  apply packFiles_counts in Hloop; [|done..]. simpl. rewrite Hloop.
  unfold scanNodeModules in Hscan.
  destruct (if isPnpmStructure root then _ else _) as [dirs|]; simpl in Hscan; [|done].
  injection Hscan as <-. unfold scanPackages. simpl. rewrite scanPackages_spec. simpl.
  by destruct (scanPackages_totals dirs
    {| sc_packages := []; sc_totalFiles := 0; sc_totalSize := 0; sc_packageCount := 0 |})
    as [-> _].
Qed.

(** ** The rows of a packed tree *)

Lemma packFiles_bindable `{Platform} (readFileSync : string → option (list byte)) (level : Z)
    (scanned : list ScannedPackage.t) (st st' : PackState) :
  foldlM (packPackage readFileSync level) scanned st = Ok st' → Forall bindable scanned.
Proof.
  revert st. induction scanned as [|pkg scanned IH]; intros st; simpl; [by constructor|].
  destruct (packPackage readFileSync level st pkg) as [st1|] eqn:Hpkg; simpl; [|done].
  intros Hloop. constructor; [|by eapply IH].
  apply packPackage_Ok in Hpkg as (name & version & Hname & Hversion & _).
  split; by eexists.
Qed.

Lemma getAllFiles_length (db : Store) :
  store_wf db → length (getAllFiles db) = length (files db).
Proof.
  intros [Hids Hrefs]. rewrite getAllFiles_unfold.
  induction (files db) as [|f rows IH]; [done|].
  cbn [flat_map]. rewrite length_app, length_fmap, IH.
  - assert (FileRecord.packageId f.2 ∈ (packages db).*1) as (p & Hp & Hin)%list_elem_of_fmap
      by (apply Hrefs; by left).
    rewrite Hp. by rewrite (filter_key_unique fst (packages db) p Hids Hin).
  - intros g Hg. apply Hrefs. by right.
Qed.

Section packed_tree.
Context `{Platform} (nodeModulesPath : string) (root : node).
Hypothesis source_ne : nodeModulesPath ≠ EmptyString.
Hypothesis root_wf : wf_node root.

Lemma placed_stat (dp : list string) (d : PackageDir.t) (f : FileEntry.t) :
  placed_at nodeModulesPath root dp d → f ∈ walked d →
  ∃ content,
    node_at nodeModulesPath root (FileEntry.absolutePath f)
    = Some (File content (FileEntry.mode f) (FileEntry.mtime f))
    ∧ FileEntry.size f = length content.
Proof.
  intros Hplaced Hf. pose proof (placed_path_ne nodeModulesPath root source_ne dp d Hplaced) as Hne.
  destruct Hplaced as (Hpath & Hrel & Hseg & Hres & Hwf).
  apply wf_node_Dir in Hwf as [Hnd Hentries].
  apply elem_of_flat_map in Hf as ([name c] & Hin & Hf).
  destruct (Hentries name c Hin) as [Hname Hc].
  apply walkEntry_stat in Hf as (fp & content & Hsegf & Hresf & Hsize); [|done..].
  exists content. split; [|done]. unfold node_at.
  rewrite Hsegf, Hseg, <- (assoc_L (++)), strip_segments_app, resolve_app, Hres. simpl.
  unfold child. simpl. by rewrite (lookup_entry_elem_of _ name c).
Qed.

(** What the tree holds for each emitted file: the paths the scanner
    reports lead to it, and [stat] reported its size and time. *)
Lemma emitted_stat (scan : ScanResult.t) (x : string * FileEntry.t) :
  scanNodeModules nodeModulesPath root = Ok scan →
  x ∈ emitted_pairs (ScanResult.packages scan) →
  FileEntry.absolutePath x.2 =
    nodeModulesPath +:+ "/" +:+ x.1 +:+ "/" +:+ FileEntry.relativePath x.2
  ∧ x.1 ≠ EmptyString
  ∧ FileEntry.relativePath x.2 ≠ EmptyString
  ∧ ∃ content,
      node_at nodeModulesPath root (FileEntry.absolutePath x.2)
      = Some (File content (FileEntry.mode x.2) (FileEntry.mtime x.2))
      ∧ FileEntry.size x.2 = length content.
Proof.
  intros (dirs & Hdirs & ->)%scanNodeModules_Ok Hx.
  destruct (scanned_pairs_ok nodeModulesPath root source_ne root_wf dirs x Hdirs Hx)
    as (Habs & Hpath & Hrel & _).
  split_and!; try done.
  apply emitted_pairs_origin in Hx as (d & Hd & _ & Hf).
  destruct (packageDirs_ok nodeModulesPath root source_ne root_wf dirs Hdirs) as [Hplaced _].
  destruct (Hplaced d Hd) as [dp Hdp]. by apply (placed_stat dp d).
Qed.

Lemma emitted_keys_NoDup (scan : ScanResult.t) :
  scanNodeModules nodeModulesPath root = Ok scan →
  NoDup (scanned_keys (ScanResult.packages scan)).
Proof.
  intros Hscan. pose proof Hscan as (dirs & Hdirs & Hpackages)%scanNodeModules_Ok.
  pose proof (scanned_paths_NoDup nodeModulesPath root source_ne root_wf dirs Hdirs) as Habs.
  rewrite <- Hpackages, <- emitted_pairs_files, <- list_fmap_compose in Habs.
  rewrite scanned_keys_pairs.
  rewrite (fmap_ext_elem _
    ((λ k : string * string, nodeModulesPath +:+ "/" +:+ k.1 +:+ "/" +:+ k.2)
     ∘ (λ x, file_key x.1 x.2))) in Habs.
  - rewrite list_fmap_compose in Habs. by apply NoDup_fmap_1 in Habs.
  - intros x Hx. destruct (emitted_stat scan x Hscan Hx) as (Habs' & _). simpl. by rewrite Habs'.
Qed.

Lemma pack_tree_rows (env : PackEnv) (options : PackOptions.t) (scan : ScanResult.t)
    (dedup : nat) (db : Store) :
  env_tree env = Some root →
  PackOptions.source options = nodeModulesPath →
  scanNodeModules nodeModulesPath root = Ok scan →
  pack env options = Ok (dedup, db) →
  store_wf db
  ∧ shown <$> getAllFiles db
    = expected_rows (readFile (tree_view nodeModulesPath root)) (ScanResult.packages scan).
Proof.
  intros Htree Hsource Hscan Hpack.
  destruct (pack_unfold env options root scan Htree) as (store & Hp & Hb & Hf & Heq);
    [by rewrite Hsource|].
  rewrite Heq, Hsource in Hpack. apply packFiles_Ok in Hpack as (st & Hloop & _ & <-).
  assert (getAllFiles store = []) as Hrows0.
  { rewrite getAllFiles_unfold. by rewrite Hf. }
  destruct (pack_packages_rows (readFile (tree_view nodeModulesPath root))
              (PackOptions.compressionLevel options) (ScanResult.packages scan)
              {| pk_store := store; pk_processedFiles := 0; pk_deduplicatedCount := 0 |})
    as (st' & Hloop' & Hwf & Hrows).
  - split; simpl; rewrite ?Hp, ?Hf; [apply NoDup_nil_2 | by intros f ?%elem_of_nil].
  - by apply packFiles_bindable in Hloop.
  - intros f Hf'. rewrite <- emitted_pairs_files in Hf'.
    apply list_elem_of_fmap in Hf' as (x & -> & Hx).
    destruct (emitted_stat scan x Hscan Hx) as (_ & _ & _ & content & Hnode & _).
    simpl. rewrite Hnode. by eexists.
  - simpl. rewrite Hrows0. simpl. by apply emitted_keys_NoDup.
  - rewrite Hloop in Hloop'. injection Hloop' as <-. simpl in Hrows.
    by rewrite Hrows0 in Hrows.
Qed.

End packed_tree.

(** X16. After [pack] of a well-formed tree the snapshot has one row of
    [files] for each file that the scan found, and each of them joins a
    package: [getTotalFileCount] and the length of [getAllFiles] are the
    scan's [totalFiles]. *)
Theorem pack_file_count `{Platform} (env : PackEnv) (options : PackOptions.t) (root : node)
    (scan : ScanResult.t) (dedup : nat) (db : Store) :
  env_tree env = Some root →
  PackOptions.source options ≠ EmptyString →
  wf_node root →
  scanNodeModules (PackOptions.source options) root = Ok scan →
  pack env options = Ok (dedup, db) →
  getTotalFileCount db = ScanResult.totalFiles scan
  ∧ length (getAllFiles db) = ScanResult.totalFiles scan.
Proof.
  intros Htree Hsource Hwf Hscan Hpack.
  destruct (pack_tree_rows _ root Hsource Hwf env options scan dedup db Htree eq_refl Hscan Hpack)
    as [Hstore Hrows].
  assert (length (getAllFiles db) = ScanResult.totalFiles scan) as Hlen.
  { rewrite <- (length_fmap shown), Hrows, expected_rows_pairs, length_fmap.
    rewrite <- (length_fmap snd), emitted_pairs_files.
    destruct (scanNodeModules_totals _ _ _ Hscan) as (dirs & _ & Hpk & Hfiles & _).
    by rewrite Hfiles, Hpk. }
  split; [|done]. unfold getTotalFileCount. by rewrite <- getAllFiles_length.
Qed.

(** ** Status after pack *)

Lemma in_bucket_all `{Platform} (fs : FsView) (nodeModulesPath : string) (b : bucket)
    (rows : list FileRow.t) :
  (∀ row, row ∈ rows → classify fs nodeModulesPath row = Unchanged) →
  in_bucket fs nodeModulesPath b rows = if decide (b = Unchanged) then rows else [].
Proof.
  intros Hrows. unfold in_bucket. induction rows as [|row rows IH]; [by case_decide|].
  rewrite filter_cons, IH by (intros r Hr; apply Hrows; by right).
  rewrite (Hrows row) by (by left). destruct (decide (Unchanged = b)) as [<-|Hb].
  - by rewrite decide_True.
  - by rewrite !decide_False by congruence.
Qed.

(** X17. [status] right after [pack], on a disk that holds the database
    and every regular file of the well-formed tree that was packed,
    reports every row as unchanged and nothing else. *)
Theorem pack_then_status_clean `{Platform} (env : PackEnv) (options : PackOptions.t)
    (root : node) (dedup : nat) (db : Store) (fs : FsView) (statusOptions : StatusOptions.t) :
  env_tree env = Some root →
  PackOptions.source options ≠ EmptyString →
  wf_node root →
  pack env options = Ok (dedup, db) →
  StatusOptions.nodeModules statusOptions = PackOptions.source options →
  existsSync fs (StatusOptions.db statusOptions) = true →
  existsSync fs (PackOptions.source options) = true →
  (∀ path content mode mtimeMs,
     node_at (PackOptions.source options) root path = Some (File content mode mtimeMs) →
     existsSync fs path = true ∧ readFile fs path = Some content) →
  status fs db statusOptions =
    Ok {| StatusResult.onlyInDb := []; StatusResult.onlyInFs := [];
          StatusResult.modified := []; StatusResult.unchanged := getTotalFileCount db |}.
Proof.
  intros Htree Hsource Hwf Hpack Hnm Hdb Hsrc Hfs.
  destruct (pack_Ok _ _ _ _ Hpack) as (root' & scan & _ & Htree' & Hscan & _).
  rewrite Htree in Htree'. injection Htree' as <-.
  destruct (pack_tree_rows _ root Hsource Hwf env options scan dedup db Htree eq_refl Hscan Hpack)
    as [Hstore Hrows].
  assert (∀ row, row ∈ getAllFiles db →
    classify fs (PackOptions.source options) row = Unchanged) as Hall.
  { intros row Hrow. apply (list_elem_of_fmap_2 shown) in Hrow.
    rewrite Hrows, expected_rows_pairs in Hrow.
    apply list_elem_of_fmap in Hrow as (x & Hshown & Hx).
    destruct (emitted_stat _ root Hsource Hwf scan x Hscan Hx)
      as (Habs & Hpath & Hrel & content & Hnode & _).
    destruct (Hfs _ _ _ _ Hnode) as [Hexists Hread].
    injection Hshown as Hpp Hrp Hhash _.
    unfold classify, joined. rewrite Hpp, Hrp.
    rewrite (join_two x.1), (join_two (PackOptions.source options)); try done.
    - rewrite <- Habs, Hexists, Hread, Hhash. unfold content_of. simpl. rewrite Hnode.
      by rewrite decide_True.
    - by intros [? _]%append_nil_inv. }
  unfold status. rewrite Hdb, Hnm, Hsrc. simpl.
  rewrite getAllFiles_initSchema, status_loop_buckets. simpl.
  rewrite !in_bucket_all by done. simpl.
  unfold getTotalFileCount. by rewrite <- getAllFiles_length.
Qed.

(** ** Sizes *)

Section sizes_of_pack.
Context `{Platform} (readFileSync : string → option (list byte)) (level : Z).

(** The recorded sizes of the blobs: every compressed size is the length
    of the stored bytes, and the original sizes add up to no more than the
    bytes of the files packed so far, to exactly as much while no file was
    deduplicated. *)
Definition sizes_ok (done : list FileEntry.t) (st : PackState) : Prop :=
  (∀ b, b ∈ blobs (pk_store st) → BlobInfo.compressedSize b = length (BlobInfo.content b))
  ∧ sum_list (BlobInfo.originalSize <$> blobs (pk_store st))
    ≤ sum_list (length ∘ content_of readFileSync <$> done)
  ∧ (pk_deduplicatedCount st = 0 →
     sum_list (BlobInfo.originalSize <$> blobs (pk_store st))
     = sum_list (length ∘ content_of readFileSync <$> done)).

Lemma packFiles_sizes_ok (scanned : list ScannedPackage.t) (st st' : PackState) :
  blobs (pk_store st) = [] →
  foldlM (packPackage readFileSync level) scanned st = Ok st' →
  sizes_ok (flat_map ScannedPackage.files scanned) st'.
Proof.
  intros Hblobs Hloop.
  apply (packFiles_invariant readFileSync level sizes_ok scanned st st'); try done.
  - intros done s info Hs. unfold sizes_ok. simpl. unfold insertPackage.
    by destruct (find _ _).
  - intros done s s1 packageId file (Hc & Hle & Heq)
      (content & Hread & Hstore & _ & Hdedup)%packFile_Ok.
    unfold sizes_ok. rewrite Hstore, Hdedup, fmap_app, sum_list_with_app. simpl.
    unfold content_of at 2 4. rewrite Hread. simpl.
    unfold insertBlob. destruct (hasBlob _ _); simpl.
    + split_and!; [done | lia | done].
    + rewrite fmap_app, sum_list_with_app. simpl. split_and!; [|lia|lia].
      intros b [?| ->%list_elem_of_singleton]%elem_of_app; [by apply Hc | done].
  - unfold sizes_ok. rewrite Hblobs. simpl. split_and!; [|lia|done].
    by intros b ?%elem_of_nil.
Qed.

End sizes_of_pack.

(** X18. After [pack] of a well-formed tree the original sizes that
    [getBlobStats] adds up are at most the scan's [totalSize], and exactly
    that when nothing was deduplicated; the compressed sizes add up to the
    bytes stored. *)
Theorem pack_sizes `{Platform} (env : PackEnv) (options : PackOptions.t) (root : node)
    (scan : ScanResult.t) (dedup : nat) (db : Store) :
  env_tree env = Some root →
  PackOptions.source options ≠ EmptyString →
  wf_node root →
  scanNodeModules (PackOptions.source options) root = Ok scan →
  pack env options = Ok (dedup, db) →
  let '(_, totalOriginalSize, totalCompressedSize) := getBlobStats db in
  totalOriginalSize ≤ ScanResult.totalSize scan
  ∧ (dedup = 0 → totalOriginalSize = ScanResult.totalSize scan)
  ∧ totalCompressedSize = sum_list (length ∘ BlobInfo.content <$> blobs db).
Proof.
  intros Htree Hsource Hwf Hscan Hpack.
  destruct (pack_unfold env options root scan Htree Hscan) as (store & _ & Hblobs & _ & Heq).
  rewrite Heq in Hpack. apply packFiles_Ok in Hpack as (st & Hloop & <- & <-).
  apply packFiles_sizes_ok in Hloop as (Hc & Hle & Hsame); [|done].
  assert (sum_list (length ∘ content_of (readFile (tree_view (PackOptions.source options) root))
                      <$> flat_map ScannedPackage.files (ScanResult.packages scan))
          = ScanResult.totalSize scan) as Htotal.
  { destruct (scanNodeModules_totals _ _ _ Hscan) as (dirs & _ & Hpk & _ & ->).
    rewrite <- Hpk. f_equal. apply fmap_ext_elem. intros f Hf.
    rewrite <- emitted_pairs_files in Hf. apply list_elem_of_fmap in Hf as (x & -> & Hx).
    destruct (emitted_stat _ root Hsource Hwf scan x Hscan Hx)
      as (_ & _ & _ & content & Hnode & Hsize).
    simpl. unfold content_of. simpl. by rewrite Hnode, Hsize. }
  rewrite Htotal in Hle, Hsame. unfold getBlobStats. split_and!; [done | done |].
  f_equal. apply fmap_ext_elem. intros b Hb. by apply Hc.
Qed.

(** * The extractor, from the outside *)

Section extract_more.
Context `{Platform} `{OutputFs F} (store : Store) (outputPath : string).

(** ** The blob cache *)

(** The cache holds nothing of 100 KiB or more, and only blobs of the rows
    seen so far. *)
Definition cache_small (done : list FileRow.t) (cache : gmap string (list byte)) : Prop :=
  ∀ hash content, cache !! hash = Some content →
    (Z.of_nat (length content) < 100 * 1024)%Z
    ∧ ∃ row, row ∈ done ∧ FileRow.blobHash row = hash.

Lemma getContent_small (done : list FileRow.t) (cache cache' : gmap string (list byte))
    (row : FileRow.t) (content : option (list byte)) :
  cache_small done cache →
  getContent store cache (FileRow.blobHash row) = Ok (content, cache') →
  cache_small (done ++ [row]) cache'.
Proof.
  intros Hsmall. unfold getContent.
  assert (cache_small (done ++ [row]) cache) as Hsmall'.
  { intros hash c Hc. destruct (Hsmall hash c Hc) as (Hlt & r & Hr & Hhash).
    split; [done|]. exists r. split; [|done]. apply elem_of_app. by left. }
  destruct (cache !! FileRow.blobHash row); [by intros [= <- <-]|].
  destruct (getBlob _ store) as [compressed|]; [|by intros [= <- <-]].
  destruct (decompress compressed) as [c|]; [|done].
  intros [= <- <-]. case_bool_decide as Hlt; [|done].
  intros hash c' Hlook. destruct (decide (FileRow.blobHash row = hash)) as [<-|Hne].
  - rewrite lookup_insert_eq in Hlook. injection Hlook as <-. split; [done|].
    exists row. split; [|done]. apply elem_of_app. right. by apply list_elem_of_singleton.
  - rewrite lookup_insert_ne in Hlook by done. by apply Hsmall'.
Qed.

Lemma extractFile_small (done : list FileRow.t) (st st' : ExtractState F) (row : FileRow.t) :
  cache_small done (ex_cache st) →
  extractFile store outputPath st row = Ok st' →
  cache_small (done ++ [row]) (ex_cache st').
Proof.
  intros Hsmall. unfold extractFile.
  destruct (mkdir _ (ex_fs st)) as [fs1|]; simpl; [|done].
  destruct (getContent store (ex_cache st) (FileRow.blobHash row))
    as [[content cache']|] eqn:Hget; simpl; [|done].
  apply (getContent_small done) in Hget; [|done].
  destruct content as [c|]; [|by intros [= <-]].
  destruct (writeFile _ c fs1) as [fs2|]; simpl; [|done]. by intros [= <-].
Qed.

End extract_more.

(** X19. Whatever the loop of the extractor leaves in its blob cache,
    starting from an empty one, is the decompressed content of the blob
    of one of the rows, and is shorter than 100 KiB. *)
Theorem extract_cache_bound `{Platform} `{OutputFs F} (store : Store) (outputPath : string)
    (rows : list FileRow.t) (st st' : ExtractState F) :
  ex_cache st = ∅ →
  foldlM (extractFile store outputPath) rows st = Ok st' →
  ∀ hash content, ex_cache st' !! hash = Some content →
    blob_content store hash = Some content
    ∧ (Z.of_nat (length content) < 100 * 1024)%Z
    ∧ ∃ row, row ∈ rows ∧ FileRow.blobHash row = hash.
Proof.
  intros Hempty Hloop hash content Hlook.
  assert (cache_coherent store (ex_cache st') ∧ cache_small rows (ex_cache st'))
    as [Hcoh Hsmall].
  { apply (foldlM_invariant _
      (λ done s, cache_coherent store (ex_cache s) ∧ cache_small done (ex_cache s)))
      with (done := []) in Hloop; [done | |].
    - intros done row s s' [Hc Hs] Hstep. split.
      + by apply (extractFile_Ok store outputPath s s' row Hc) in Hstep as (? & _).
      + by apply (extractFile_small store outputPath done s s' row).
    - rewrite Hempty. split; [apply cache_coherent_empty|].
      intros h c Hc. by rewrite lookup_empty in Hc. }
  destruct (Hsmall hash content Hlook). split_and!; [by apply Hcoh | done..].
Qed.

(** ** A blob that does not decompress *)

Section extract_errors.
Context `{Platform} `{OutputFs F} (store : Store) (outputPath : string).
Hypothesis mkdir_total : ∀ path fs, is_Ok (mkdir path fs).
Hypothesis writeFile_total : ∀ path data fs, is_Ok (writeFile path data fs).

Definition corrupt (row : FileRow.t) : Prop :=
  ∃ compressed,
    getBlob (FileRow.blobHash row) store = Some compressed ∧ decompress compressed = None.

Lemma extractFile_Err (st : ExtractState F) (row : FileRow.t) (e : error) :
  extractFile store outputPath st row = Err e → e = ZlibError.
Proof.
  unfold extractFile.
  destruct (mkdir_total (dirname
    (join [outputPath; FileRow.packagePath row; FileRow.relativePath row])) (ex_fs st))
    as [fs1 ->]. simpl.
  unfold getContent. destruct (ex_cache st !! FileRow.blobHash row) as [cached|]; simpl.
  - destruct (writeFile_total
      (join [outputPath; FileRow.packagePath row; FileRow.relativePath row]) cached fs1)
      as [fs2 ->]. done.
  - destruct (getBlob _ store) as [compressed|]; simpl; [|done].
    destruct (decompress compressed) as [c|]; simpl; [|by intros [= <-]].
    destruct (writeFile_total
      (join [outputPath; FileRow.packagePath row; FileRow.relativePath row]) c fs1)
      as [fs2 ->]. done.
Qed.

Lemma extractFile_corrupt (st : ExtractState F) (row : FileRow.t) :
  cache_coherent store (ex_cache st) → corrupt row →
  extractFile store outputPath st row = Err ZlibError.
Proof.
  intros Hcoh (compressed & Hblob & Hdec). unfold extractFile.
  destruct (mkdir_total (dirname
    (join [outputPath; FileRow.packagePath row; FileRow.relativePath row])) (ex_fs st))
    as [fs1 ->]. simpl.
  unfold getContent. destruct (ex_cache st !! FileRow.blobHash row) as [cached|] eqn:Hc.
  - apply Hcoh in Hc. unfold blob_content in Hc. rewrite Hblob in Hc. simpl in Hc. congruence.
  - by rewrite Hblob, Hdec.
Qed.

Lemma extract_loop_corrupt (rows : list FileRow.t) (st : ExtractState F) :
  cache_coherent store (ex_cache st) →
  (∃ row, row ∈ rows ∧ corrupt row) →
  foldlM (extractFile store outputPath) rows st = Err ZlibError.
Proof.
  revert st. induction rows as [|row rows IH]; intros st Hcoh (bad & Hin & Hbad).
  - by apply elem_of_nil in Hin.
  - simpl. apply elem_of_cons in Hin as [->|Hin].
    + by rewrite extractFile_corrupt.
    + destruct (extractFile store outputPath st row) as [st1|e] eqn:Hstep; simpl.
      * apply IH; [|by exists bad].
        by apply extractFile_Ok in Hstep as (? & _).
      * by apply extractFile_Err in Hstep as ->.
Qed.

End extract_errors.

(** X20. When the output accepts every [mkdir] and [writeFile] and some
    row refers to a stored blob that does not decompress, [extractFiles]
    fails with the error of [gunzipSync]. *)
Theorem extractFiles_corrupt_blob `{Platform} `{OutputFs F} (store : Store)
    (outputPath : string) (fs : F) (row : FileRow.t) (compressed : list byte) :
  (∀ path fs, is_Ok (mkdir path fs)) →
  (∀ path data fs, is_Ok (writeFile path data fs)) →
  row ∈ getAllFiles store →
  getBlob (FileRow.blobHash row) store = Some compressed →
  decompress compressed = None →
  extractFiles store outputPath fs = Err ZlibError.
Proof.
  intros Hmkdir Hwrite Hrow Hblob Hdec. unfold extractFiles.
  rewrite (extract_loop_corrupt store outputPath Hmkdir Hwrite); [done | |].
  - apply cache_coherent_empty.
  - exists row. split; [done|]. by exists compressed.
Qed.

(** ** What unpack reports *)

Lemma filter_all {A} (P : A → Prop) `{∀ x, Decision (P x)} (l : list A) :
  (∀ x, x ∈ l → P x) → filter P l = l.
Proof.
  induction l as [|a l IH]; intros Hall; [done|].
  rewrite filter_cons_True by (apply Hall; by left).
  f_equal. apply IH. intros x Hx. apply Hall. by right.
Qed.

(** X21. [extractFiles] on a snapshot that [pack] produced from a
    well-formed tree, when it returns, reports the totals of the scan:
    as many files and as many bytes. The codec is assumed to invert itself
    at the level in use, and SHA-256 to have no collision on the files. *)
Theorem extractFiles_reports_scan_totals `{Platform} `{OutputFs F} (env : PackEnv)
    (options : PackOptions.t) (root : node) (scan : ScanResult.t) (dedup : nat) (db : Store)
    (outputPath : string) (fs fs' : F) (r : ExtractResult.t) :
  env_tree env = Some root →
  PackOptions.source options ≠ EmptyString →
  wf_node root →
  scanNodeModules (PackOptions.source options) root = Ok scan →
  collision_free (readFile (tree_view (PackOptions.source options) root))
    (flat_map ScannedPackage.files (ScanResult.packages scan)) →
  (∀ content,
     gunzipSync (gzipSync content (PackOptions.compressionLevel options)) = Some content) →
  pack env options = Ok (dedup, db) →
  extractFiles db outputPath fs = Ok (r, fs') →
  ExtractResult.totalFiles r = ScanResult.totalFiles scan
  ∧ ExtractResult.totalSize r = ScanResult.totalSize scan.
Proof.
  intros Htree Hsource Hwf Hscan Hfree Hcodec Hpack Hextract.
  set (read := readFile (tree_view (PackOptions.source options) root)) in *.
  destruct (pack_tree_rows _ root Hsource Hwf env options scan dedup db Htree eq_refl Hscan Hpack)
    as [Hstore Hrows]. fold read in Hrows.
  destruct (pack_unfold env options root scan Htree Hscan) as (store & _ & Hblobs & _ & Heq).
  rewrite Heq in Hpack. apply packFiles_Ok in Hpack as (st & Hloop & _ & Hdb).
  fold read in Hloop.
  assert (readable read (flat_map ScannedPackage.files (ScanResult.packages scan))) as Hread.
  { intros f Hf. rewrite <- emitted_pairs_files in Hf.
    apply list_elem_of_fmap in Hf as (x & -> & Hx).
    destruct (emitted_stat _ root Hsource Hwf scan x Hscan Hx)
      as (_ & _ & _ & content & Hnode & _).
    unfold read. simpl. rewrite Hnode. by eexists. }
  assert (∀ x, x ∈ emitted_pairs (ScanResult.packages scan) →
    blob_content db (sha256_hex (content_of read x.2)) = Some (content_of read x.2)
    ∧ length (content_of read x.2) = FileEntry.size x.2) as Hcontent.
  { intros x Hx. split.
    - rewrite <- Hdb.
      apply (packFiles_blob_content read (PackOptions.compressionLevel options)
               (ScanResult.packages scan)
               {| pk_store := store; pk_processedFiles := 0; pk_deduplicatedCount := 0 |} st);
        try done.
      rewrite <- emitted_pairs_files. by apply list_elem_of_fmap_2.
    - destruct (emitted_stat _ root Hsource Hwf scan x Hscan Hx)
        as (_ & _ & _ & content & Hnode & ->).
      unfold content_of, read. simpl. by rewrite Hnode. }
  unfold extractFiles in Hextract.
  destruct (foldlM (extractFile db outputPath) _ _) as [ex|] eqn:Hex;
    simpl in Hextract; [|done].
  injection Hextract as <- _. simpl.
  apply extract_loop_Ok in Hex as [_ ->]; [|apply cache_coherent_empty]. simpl.
  destruct (scanNodeModules_totals _ _ _ Hscan) as (dirs & _ & Hpk & -> & ->).
  rewrite <- Hpk, <- emitted_pairs_files. split.
  - by rewrite <- (length_fmap shown), Hrows, expected_rows_pairs, !length_fmap.
  - pose (g := λ v : string * string * string * Z,
                 from_option length 0 (blob_content db v.1.2)).
    rewrite filter_all.
    2: { intros row Hin. apply (list_elem_of_fmap_2 shown) in Hin.
         rewrite Hrows, expected_rows_pairs in Hin.
         apply list_elem_of_fmap in Hin as (x & Hshown & Hx).
         injection Hshown as _ _ Hhash _. destruct (Hcontent x Hx) as [Hblob _].
         unfold blob_found. apply Is_true_true, bool_decide_eq_true.
         rewrite Hhash. unfold blob_content in Hblob.
         destruct (getBlob _ db); [done | by simpl in Hblob]. }
    rewrite (fmap_ext_elem _ (g ∘ shown)) by done.
    rewrite list_fmap_compose, Hrows, expected_rows_pairs, <- !list_fmap_compose.
    apply (f_equal sum_list), fmap_ext_elem. intros x Hx. simpl. unfold g. simpl.
    destruct (Hcontent x Hx) as [-> <-]. done.
Qed.

(** ** Status after extraction *)

Lemma join_nested (a b c : string) :
  c ≠ EmptyString → join [a; join [b; c]] = join [a; b; c].
Proof.
  intros Hc. destruct (decide (b = EmptyString)) as [->|Hb].
  - assert (join [EmptyString; c] = c) as ->.
    { unfold join. rewrite filter_cons_False by (by intros []).
      by rewrite filter_cons_True by done. }
    unfold join. destruct (decide (a = EmptyString)) as [->|Ha].
    + rewrite !filter_cons_False by (by intros []). done.
    + rewrite (filter_cons_True _ a) by done. rewrite (filter_cons_True _ a) by done.
      rewrite (filter_cons_False _ EmptyString) by (by intros []). done.
  - rewrite (join_two b c) by done.
    assert (b +:+ "/" +:+ c ≠ EmptyString) as Hbc by (by intros [? _]%append_nil_inv).
    unfold join. destruct (decide (a = EmptyString)) as [->|Ha].
    + rewrite !(filter_cons_False _ EmptyString) by (by intros []).
      by rewrite !filter_cons_True by done.
    + by rewrite !filter_cons_True by done.
Qed.

Section extract_status.
Context `{Platform} (umask : Z) (db : Store) (outputPath : string).

(** Where [extractFile] writes a row. *)
Definition out_path (row : FileRow.t) : string :=
  join [outputPath; FileRow.packagePath row; FileRow.relativePath row].

(** The output holds the bytes of the row's blob at the row's path. *)
Definition holds (fs : gmap string OutFile.t) (row : FileRow.t) : Prop :=
  ∃ file, fs !! out_path row = Some file
          ∧ blob_content db (FileRow.blobHash row) = Some (OutFile.content file).

Lemma extractFile_clean_step (st st' : ExtractState (gmap string OutFile.t))
    (row : FileRow.t) :
  cache_coherent db (ex_cache st) →
  is_Some (blob_content db (FileRow.blobHash row)) →
  @extractFile _ _ (clean_dir umask) db outputPath st row = Ok st' →
  cache_coherent db (ex_cache st')
  ∧ holds (ex_fs st') row
  ∧ ∀ path, path ≠ out_path row → ex_fs st' !! path = ex_fs st !! path.
Proof.
  intros Hcoh [c Hc]. unfold extractFile. simpl.
  destruct (getContent db (ex_cache st) (FileRow.blobHash row))
    as [[content cache']|] eqn:Hget; simpl; [|done].
  apply getContent_Ok in Hget as (Hcoh' & Hsome & Hcontent); [|done].
  destruct content as [c'|].
  - rewrite (Hcontent c' eq_refl) in Hc. injection Hc as ->.
    fold (out_path row). intros [= <-]. simpl. split; [done|].
    unfold clean_chmod, clean_writeFile. rewrite lookup_insert_eq. simpl.
    unfold holds. case_bool_decide; split.
    + eexists. rewrite lookup_insert_eq. split; [done|]. by apply Hcontent.
    + intros path Hpath. by rewrite !lookup_insert_ne.
    + eexists. rewrite lookup_insert_eq. split; [done|]. by apply Hcontent.
    + intros path Hpath. by rewrite lookup_insert_ne.
  - exfalso. unfold blob_content in Hc.
    destruct (getBlob (FileRow.blobHash row) db) as [compressed|] eqn:Hblob; [|done].
    assert (is_Some (None : option (list byte))) as [? ?]; [|done].
    apply Hsome. by eexists.
Qed.

Lemma extract_loop_holds (rows : list FileRow.t)
    (st st' : ExtractState (gmap string OutFile.t)) :
  cache_coherent db (ex_cache st) →
  (∀ row, row ∈ rows → is_Some (blob_content db (FileRow.blobHash row))) →
  NoDup (out_path <$> rows) →
  foldlM (@extractFile _ _ (clean_dir umask) db outputPath) rows st = Ok st' →
  ∀ row, row ∈ rows → holds (ex_fs st') row.
Proof.
  intros Hcoh Hblobs Hnd Hloop.
  apply (foldlM_invariant _
    (λ done s, cache_coherent db (ex_cache s)
               ∧ ((∀ row, row ∈ done → is_Some (blob_content db (FileRow.blobHash row))) →
                  NoDup (out_path <$> done) →
                  ∀ row, row ∈ done → holds (ex_fs s) row)))
    with (done := []) in Hloop.
  - destruct Hloop as [_ Hholds]. by apply Hholds.
  - clear. intros done row s s' [Hcoh Hdone] Hstep.
    split; [by apply (extractFile_Ok db outputPath s s' row Hcoh) in Hstep as (? & _)|].
    intros Hblobs. rewrite fmap_app. intros (Hnd & Hdisj & _)%NoDup_app.
    destruct (extractFile_clean_step s s' row Hcoh) as (_ & Hnew & Hother); [|done|].
    { apply Hblobs, elem_of_app. right. by apply list_elem_of_singleton. }
    intros r [Hr| ->%list_elem_of_singleton]%elem_of_app; [|done].
    destruct (Hdone (λ r' Hr', Hblobs r' ltac:(apply elem_of_app; by left)) Hnd r Hr)
      as (file & Hfile & Hblob).
    exists file. split; [|done].
    rewrite Hother; [done|]. intros Heq. apply (Hdisj (out_path r)).
    + by apply list_elem_of_fmap_2.
    + rewrite Heq. simpl. by left.
  - split; [done|]. by intros _ _ row ?%elem_of_nil.
Qed.

End extract_status.

(** [status] right after [extractFiles] into a clean directory, on a disk
    that holds the database and the files that were written: when every
    row's blob decompresses to bytes with the row's digest, no two rows are
    written to the same path and no relative path is empty, every row is
    reported as unchanged and nothing else. *)
Lemma extract_status_rows `{Platform} (db : Store) (umask : Z) (outputPath : string)
    (before after : gmap string OutFile.t) (r : ExtractResult.t) (fs : FsView)
    (options : StatusOptions.t) :
  (∀ row, row ∈ getAllFiles db →
     ∃ content, blob_content db (FileRow.blobHash row) = Some content
                ∧ sha256_hex content = FileRow.blobHash row) →
  NoDup ((λ row, join [outputPath; FileRow.packagePath row; FileRow.relativePath row])
           <$> getAllFiles db) →
  (∀ row, row ∈ getAllFiles db → FileRow.relativePath row ≠ EmptyString) →
  @extractFiles _ _ (clean_dir umask) db outputPath before = Ok (r, after) →
  StatusOptions.nodeModules options = outputPath →
  existsSync fs (StatusOptions.db options) = true →
  existsSync fs outputPath = true →
  (∀ path file, after !! path = Some file →
     existsSync fs path = true ∧ readFile fs path = Some (OutFile.content file)) →
  status fs db options =
    Ok {| StatusResult.onlyInDb := []; StatusResult.onlyInFs := [];
          StatusResult.modified := []; StatusResult.unchanged := length (getAllFiles db) |}.
Proof.
  intros Hdigests Hnd Hrel Hextract Hnm Hdb Hout Hfs.
  unfold extractFiles in Hextract.
  destruct (foldlM _ _ _) as [ex|] eqn:Hex; simpl in Hextract; [|done].
  injection Hextract as _ <-.
  assert (∀ row, row ∈ getAllFiles db → holds db outputPath (ex_fs ex) row) as Hholds.
  { apply (extract_loop_holds umask db outputPath (getAllFiles db)
             {| ex_cache := ∅; ex_fs := before; ex_processedFiles := 0; ex_totalSize := 0 |});
      [apply cache_coherent_empty | | done | done].
    intros r' Hr'. destruct (Hdigests r' Hr') as (c & -> & _). by eexists. }
  assert (∀ row, row ∈ getAllFiles db → classify fs outputPath row = Unchanged) as Hall.
  { intros row Hrow. destruct (Hholds row Hrow) as (file & Hfile & Hblob).
    destruct (Hdigests row Hrow) as (content & Hcontent & Hsha).
    rewrite Hblob in Hcontent. injection Hcontent as <-.
    destruct (Hfs _ _ Hfile) as [Hexists Hread]. unfold out_path in Hexists, Hread.
    unfold classify, joined. rewrite join_nested by by apply Hrel.
    by rewrite Hexists, Hread, decide_True. }
  unfold status. rewrite Hdb, Hnm, Hout. simpl.
  rewrite getAllFiles_initSchema, status_loop_buckets. simpl.
  rewrite !in_bucket_all by done. done.
Qed.


(** No two emitted files are written to the same path of the output. *)
Lemma emitted_output_NoDup `{Platform} (nodeModulesPath : string) (root : node)
    (scan : ScanResult.t) (outputPath : string) :
  nodeModulesPath ≠ EmptyString → wf_node root →
  scanNodeModules nodeModulesPath root = Ok scan →
  NoDup ((λ x : string * FileEntry.t, join [outputPath; x.1; FileEntry.relativePath x.2])
           <$> emitted_pairs (ScanResult.packages scan)).
Proof.
  intros Hsource Hwf Hscan.
  pose proof Hscan as (dirs & Hdirs & Hpackages)%scanNodeModules_Ok.
  pose proof (scanned_paths_NoDup nodeModulesPath root Hsource Hwf dirs Hdirs) as Habs.
  rewrite <- Hpackages, <- emitted_pairs_files, <- list_fmap_compose in Habs.
  set (X := λ x : string * FileEntry.t, x.1 +:+ "/" +:+ FileEntry.relativePath x.2).
  rewrite (fmap_ext_elem _ (String.app (nodeModulesPath +:+ "/") ∘ X)) in Habs.
  2: { intros x Hx. rewrite Hpackages in Hx.
       destruct (scanned_pairs_ok nodeModulesPath root Hsource Hwf dirs x Hdirs Hx)
         as (Habs' & _). simpl. unfold X. by rewrite Habs', !append_assoc. }
  rewrite (fmap_ext_elem _
    (String.app (if decide (outputPath = EmptyString) then EmptyString
                 else outputPath +:+ "/") ∘ X)).
  2: { intros x Hx. rewrite Hpackages in Hx.
       destruct (scanned_pairs_ok nodeModulesPath root Hsource Hwf dirs x Hdirs Hx)
         as (_ & ? & ? & _). simpl. by apply join_under. }
  rewrite list_fmap_compose in Habs. apply NoDup_fmap_1 in Habs.
  rewrite list_fmap_compose. by apply NoDup_fmap_2; [apply _|].
Qed.

(** X22. [status] right after unpacking a snapshot of [pack]: when [pack]
    of a well-formed tree gave the snapshot and [extractFiles] wrote it
    into a clean directory, then on a disk that holds the database and
    the files that were written, [status] against that directory reports
    every row as unchanged and nothing else. The codec is assumed to
    invert itself at the level in use, and SHA-256 to have no collision on
    the files. *)
Theorem extract_then_status_clean `{Platform} (env : PackEnv) (options : PackOptions.t)
    (root : node) (scan : ScanResult.t) (dedup : nat) (db : Store) (umask : Z)
    (outputPath : string) (before after : gmap string OutFile.t) (r : ExtractResult.t)
    (fs : FsView) (statusOptions : StatusOptions.t) :
  env_tree env = Some root →
  PackOptions.source options ≠ EmptyString →
  wf_node root →
  scanNodeModules (PackOptions.source options) root = Ok scan →
  collision_free (readFile (tree_view (PackOptions.source options) root))
    (flat_map ScannedPackage.files (ScanResult.packages scan)) →
  (∀ content,
     gunzipSync (gzipSync content (PackOptions.compressionLevel options)) = Some content) →
  pack env options = Ok (dedup, db) →
  @extractFiles _ _ (clean_dir umask) db outputPath before = Ok (r, after) →
  StatusOptions.nodeModules statusOptions = outputPath →
  existsSync fs (StatusOptions.db statusOptions) = true →
  existsSync fs outputPath = true →
  (∀ path file, after !! path = Some file →
     existsSync fs path = true ∧ readFile fs path = Some (OutFile.content file)) →
  status fs db statusOptions =
    Ok {| StatusResult.onlyInDb := []; StatusResult.onlyInFs := [];
          StatusResult.modified := []; StatusResult.unchanged := length (getAllFiles db) |}.
Proof.
  intros Htree Hsource Hwf Hscan Hfree Hcodec Hpack Hextract Hnm Hdb Hout Hfs.
  set (read := readFile (tree_view (PackOptions.source options) root)) in *.
  destruct (pack_tree_rows _ root Hsource Hwf env options scan dedup db Htree eq_refl Hscan Hpack)
    as [Hstore Hrows]. fold read in Hrows. rewrite expected_rows_pairs in Hrows.
  assert (∀ row, row ∈ getAllFiles db →
    ∃ x, x ∈ emitted_pairs (ScanResult.packages scan)
         ∧ shown row = expected_row read x.1 x.2) as Hrow.
  { intros row Hin. apply (list_elem_of_fmap_2 shown) in Hin. rewrite Hrows in Hin.
    apply list_elem_of_fmap in Hin as (x & Hshown & Hx). by exists x. }
  assert (readable read (flat_map ScannedPackage.files (ScanResult.packages scan))) as Hread.
  { intros f Hf. rewrite <- emitted_pairs_files in Hf.
    apply list_elem_of_fmap in Hf as (x & -> & Hx).
    destruct (emitted_stat _ root Hsource Hwf scan x Hscan Hx)
      as (_ & _ & _ & content & Hnode & _).
    unfold read. simpl. rewrite Hnode. by eexists. }
  apply (extract_status_rows db umask outputPath before after r fs statusOptions); try done.
  - intros row (x & Hx & Hshown)%Hrow. injection Hshown as _ _ Hhash _.
    exists (content_of read x.2). rewrite Hhash. split; [|done].
    destruct (pack_unfold env options root scan Htree Hscan) as (store & _ & Hblobs & _ & Heq).
    rewrite Heq in Hpack. apply packFiles_Ok in Hpack as (st & Hloop & _ & <-).
    apply (packFiles_blob_content read (PackOptions.compressionLevel options)
             (ScanResult.packages scan)
             {| pk_store := store; pk_processedFiles := 0; pk_deduplicatedCount := 0 |} st);
      try done.
    rewrite <- emitted_pairs_files. by apply list_elem_of_fmap_2.
  - change (λ row, join [outputPath; FileRow.packagePath row; FileRow.relativePath row])
      with ((λ v : string * string * string * Z, join [outputPath; v.1.1.1; v.1.1.2])
            ∘ shown).
    rewrite list_fmap_compose, Hrows, <- list_fmap_compose.
    by apply (emitted_output_NoDup (PackOptions.source options) root).
  - intros row (x & Hx & Hshown)%Hrow. injection Hshown as _ -> _ _.
    by destruct (emitted_stat _ root Hsource Hwf scan x Hscan Hx) as (_ & _ & ? & _).
Qed.


(** * Sizes as text *)

Lemma Qle_bool_1024 (q : Q) (b : Z) (d : positive) :
  (q == b # d)%Q → Qle_bool 1024 q = bool_decide (1024 * Z.pos d ≤ b)%Z.
Proof.
  intros ->. unfold Qle_bool. simpl.
  destruct (bool_decide_reflect (1024 * Z.pos d ≤ b)%Z) as [Hle|Hgt].
  - apply Z.leb_le. lia.
  - apply Z.leb_gt. lia.
Qed.

Lemma Qdiv_1024 (q : Q) (b : Z) (d : positive) :
  (q == b # d)%Q → (q / 1024 == b # (d * 1024))%Q.
Proof.
  intros ->. unfold Qdiv, Qmult, Qinv, Qeq. simpl. lia.
Qed.

Lemma toFixed1_quotient (q : Q) (b : Z) (d : positive) :
  (q == b # d)%Q → (0 ≤ b)%Z →
  toFixed1 q =
  pretty (((20 * b + Z.pos d) / (2 * Z.pos d)) / 10)%Z
  +:+ "." +:+ pretty (((20 * b + Z.pos d) / (2 * Z.pos d)) mod 10)%Z.
Proof.
  intros Hq Hb. unfold toFixed1.
  assert (Qle_bool 0 q = true) as ->.
  { rewrite Hq. unfold Qle_bool. simpl. apply Z.leb_le. lia. }
  assert (Qfloor (Qabs q * 10 + (1 # 2)) = ((20 * b + Z.pos d) / (2 * Z.pos d))%Z) as ->; [|done].
  rewrite Hq. rewrite Qabs_pos by (unfold Qle; simpl; lia).
  assert ((b # d) * 10 + (1 # 2) == (20 * b + Z.pos d) # (2 * d))%Q as ->.
  { unfold Qeq, Qplus, Qmult. simpl. lia. }
  done.
Qed.

(** X23. [formatBytes] of a byte count below [2^53] picks the largest
    unit among B, KB, MB, GB whose size does not exceed the count (B for a
    count below 1024, GB for any count of 1024^3 and more) and prints the
    count divided by that unit, rounded to the nearest tenth with ties
    upwards, with one decimal. *)
Theorem formatBytes_spec (bytes : Z) :
  (0 ≤ bytes < 2 ^ 53)%Z →
  ∃ k : nat,
    k ≤ 3
    ∧ (k = 0 ∨ (1024 ^ Z.of_nat k ≤ bytes)%Z)
    ∧ (k = 3 ∨ (bytes < 1024 ^ Z.of_nat (k + 1))%Z)
    ∧ let tenths := ((20 * bytes + 1024 ^ Z.of_nat k) / (2 * 1024 ^ Z.of_nat k))%Z in
      formatBytes bytes =
        (pretty (tenths / 10)%Z +:+ "." +:+ pretty (tenths mod 10)%Z)
        +:+ " " +:+ default "" (units !! k).
Proof.
  intros [Hpos _]. unfold formatBytes. simpl.
  assert (inject_Z bytes == bytes # 1)%Q as H0 by done.
  pose proof (Qdiv_1024 _ _ _ H0) as H1.
  pose proof (Qdiv_1024 _ _ _ H1) as H2.
  pose proof (Qdiv_1024 _ _ _ H2) as H3.
  rewrite (Qle_bool_1024 _ _ _ H0). case_bool_decide as Hk0.
  2: { exists 0. rewrite (toFixed1_quotient _ _ _ H0 Hpos).
       split_and!; [lia | by left | right; simpl; lia | reflexivity]. }
  rewrite (Qle_bool_1024 _ _ _ H1). case_bool_decide as Hk1.
  2: { exists 1. rewrite (toFixed1_quotient _ _ _ H1 Hpos).
       split_and!; [lia | right; simpl; lia | right; simpl; lia | reflexivity]. }
  rewrite (Qle_bool_1024 _ _ _ H2). case_bool_decide as Hk2.
  2: { exists 2. rewrite (toFixed1_quotient _ _ _ H2 Hpos).
       split_and!; [lia | right; simpl; lia | right; simpl; lia | reflexivity]. }
  exists 3. rewrite (toFixed1_quotient _ _ _ H3 Hpos).
  split_and!; [lia | right; simpl; lia | by left | reflexivity].
Qed.

(** X24. Just below one MiB the unit is still KB and the rounding goes up
    to the next unit's size: the text is [1024.0 KB], not [1.0 MB]. *)
Theorem formatBytes_shows_1024 (bytes : Z) :
  (1048525 ≤ bytes < 1048576)%Z → formatBytes bytes = "1024.0 KB".
Proof.
  intros Hbytes. unfold formatBytes. simpl.
  assert (inject_Z bytes == bytes # 1)%Q as H0 by done.
  pose proof (Qdiv_1024 _ _ _ H0) as H1.
  rewrite (Qle_bool_1024 _ _ _ H0), bool_decide_eq_true_2 by lia.
  rewrite (Qle_bool_1024 _ _ _ H1), bool_decide_eq_false_2 by lia.
  rewrite (toFixed1_quotient _ _ _ H1) by lia.
  assert (((20 * bytes + Z.pos (1 * 1024)) / (2 * Z.pos (1 * 1024)))%Z = 10240%Z) as ->; [|done].
  symmetry. apply (Z.div_unique _ _ _ (20 * bytes + 1024 - 10240 * 2048)%Z); lia.
Qed.


(** * Unpack *)


Section unpack_disk.
Context `{Platform} `{OutputFs F} `{UnpackFs F}.

(** The regular files of the disk, and what the calls do to them. *)
Variable file_at : F → string → option (list byte).
Hypothesis mkdir_files : ∀ path fs fs',
  mkdir path fs = Ok fs' → ∀ p, file_at fs' p = file_at fs p.
Hypothesis writeFile_files : ∀ path data fs fs',
  writeFile path data fs = Ok fs' →
  ∀ p, file_at fs' p = if decide (p = path) then Some data else file_at fs p.
Hypothesis chmod_files : ∀ path mode fs fs',
  chmod path mode fs = Ok fs' → ∀ p, file_at fs' p = file_at fs p.
Hypothesis rm_files : ∀ path fs fs',
  rm path fs = Ok fs' → ∀ p, under path p → file_at fs' p = None.
Hypothesis pathExists_files : ∀ path fs p,
  under path p → is_Some (file_at fs p) → pathExists path fs = true.

Lemma extractFile_files (store : Store) (outputPath : string) (st st' : ExtractState F)
    (row : FileRow.t) (p : string) :
  extractFile store outputPath st row = Ok st' →
  is_Some (file_at (ex_fs st') p) →
  is_Some (file_at (ex_fs st) p)
  ∨ p = join [outputPath; FileRow.packagePath row; FileRow.relativePath row].
Proof.
  unfold extractFile.
  destruct (mkdir _ (ex_fs st)) as [fs1|] eqn:Hmkdir; simpl; [|done].
  destruct (getContent store (ex_cache st) (FileRow.blobHash row))
    as [[content cache']|]; simpl; [|done].
  destruct content as [c|].
  - destruct (writeFile _ c fs1) as [fs2|] eqn:Hwrite; simpl; [|done].
    intros [= <-]. simpl.
    assert (is_Some (file_at fs2 p) →
            is_Some (file_at (ex_fs st) p)
            ∨ p = join [outputPath; FileRow.packagePath row; FileRow.relativePath row])
      as Hfs2.
    { rewrite (writeFile_files _ _ _ _ Hwrite), (mkdir_files _ _ _ Hmkdir).
      case_decide; [by right | by left]. }
    case_bool_decide; [|done].
    destruct (chmod _ _ fs2) as [fs3|] eqn:Hchmod; [|done].
    by rewrite (chmod_files _ _ _ _ Hchmod).
  - intros [= <-]. simpl. rewrite (mkdir_files _ _ _ Hmkdir). by left.
Qed.

Lemma extract_loop_files (store : Store) (outputPath : string) (rows : list FileRow.t)
    (st st' : ExtractState F) (p : string) :
  foldlM (extractFile store outputPath) rows st = Ok st' →
  is_Some (file_at (ex_fs st') p) →
  is_Some (file_at (ex_fs st) p)
  ∨ ∃ row, row ∈ rows
           ∧ p = join [outputPath; FileRow.packagePath row; FileRow.relativePath row].
Proof.
  revert st. induction rows as [|row rows IH]; intros st; simpl.
  - intros [= <-]. by left.
  - destruct (extractFile store outputPath st row) as [st1|] eqn:Hstep; simpl; [|done].
    intros Hloop Hp. destruct (IH st1 Hloop Hp) as [Hp1|(r & Hr & ->)].
    + destruct (extractFile_files _ _ _ _ _ _ Hstep Hp1) as [?| ->]; [by left|].
      right. exists row. split; [by left | done].
    + right. exists r. split; [by right | done].
Qed.

(** X25. After an [unpack] that succeeded, every regular file at or
    below the output path was written by the extractor for a row of the
    database: what was there before is gone (removed under [force]; without
    it unpack refuses an output path that exists). [file_at] observes the
    regular files of the disk, on which the calls are assumed to act as
    node:fs does. *)
Theorem unpack_leaves_no_stale_file (database : option Store) (options : UnpackOptions.t)
    (fs fs' : F) (report : UnpackReport.t) (p : string) :
  unpack database options fs = inr (report, fs') →
  under (UnpackOptions.output options) p →
  is_Some (file_at fs' p) →
  ∃ db row,
    database = Some db
    ∧ row ∈ getAllFiles db
    ∧ p = join [UnpackOptions.output options; FileRow.packagePath row;
                FileRow.relativePath row].
Proof.
  unfold unpack. destruct database as [db|]; [|done].
  set (outputPath := UnpackOptions.output options).
  intros Hunpack Hunder Hp. exists db.
  assert (∃ fs1, (∀ q, under outputPath q → file_at fs1 q = None)
                 ∧ ∃ result, extractFiles (initSchema db) outputPath fs1 = Ok (result, fs'))
    as (fs1 & Hclear & result & Hextract).
  { destruct (pathExists outputPath fs) eqn:Hexists.
    - destruct (UnpackOptions.force options); simpl in Hunpack; [|done].
      destruct (rm outputPath fs) as [fs1|] eqn:Hrm; [|done].
      exists fs1. split; [by apply (rm_files _ _ _ Hrm)|].
      destruct (getBlobStats (initSchema db)) as [[? ?] ?].
      destruct (extractFiles _ _ fs1) as [[result fs2]|]; [|done].
      injection Hunpack as _ <-. by exists result.
    - exists fs. split.
      + intros q Hq. destruct (file_at fs q) eqn:Hfile; [|done].
        rewrite (pathExists_files outputPath fs q) in Hexists; [done | done | by eexists].
      + destruct (getBlobStats (initSchema db)) as [[? ?] ?].
        destruct (extractFiles _ _ fs) as [[result fs2]|]; [|done].
        injection Hunpack as _ <-. by exists result. }
  unfold extractFiles in Hextract.
  destruct (foldlM _ _ _) as [ex|] eqn:Hloop; simpl in Hextract; [|done].
  injection Hextract as _ <-.
  destruct (extract_loop_files _ _ _ _ _ p Hloop Hp) as [Hold|(row & Hrow & ->)].
  - simpl in Hold. rewrite (Hclear p Hunder) in Hold. by destruct Hold.
  - exists row. by rewrite getAllFiles_initSchema in Hrow.
Qed.

End unpack_disk.


Lemma clean_mkdir_files (umask : Z) (path : string) (fs fs' : gmap string OutFile.t) :
  @mkdir _ (clean_dir umask) path fs = Ok fs' →
  ∀ p, clean_file_at fs' p = clean_file_at fs p.
Proof. by intros [= <-]. Qed.

Lemma clean_writeFile_files (umask : Z) (path : string) (data : list byte)
    (fs fs' : gmap string OutFile.t) :
  @writeFile _ (clean_dir umask) path data fs = Ok fs' →
  ∀ p, clean_file_at fs' p = if decide (p = path) then Some data else clean_file_at fs p.
Proof.
  intros [= <-] p. unfold clean_file_at, clean_writeFile. case_decide as Hp.
  - subst p. by rewrite lookup_insert_eq.
  - by rewrite lookup_insert_ne.
Qed.

Lemma clean_chmod_files (umask : Z) (path : string) (mode : Z)
    (fs fs' : gmap string OutFile.t) :
  @chmod _ (clean_dir umask) path mode fs = Ok fs' →
  ∀ p, clean_file_at fs' p = clean_file_at fs p.
Proof.
  simpl. unfold clean_chmod. destruct (fs !! path) as [old|] eqn:Hold; [|done].
  intros [= <-] p. unfold clean_file_at. destruct (decide (p = path)) as [->|Hp].
  - by rewrite lookup_insert_eq, Hold.
  - by rewrite lookup_insert_ne.
Qed.

Lemma clean_rm_files (path : string) (fs fs' : gmap string OutFile.t) :
  @rm _ clean_disk path fs = Ok fs' → ∀ p, under path p → clean_file_at fs' p = None.
Proof.
  intros [= <-] p Hp. unfold clean_file_at.
  rewrite map_lookup_filter_None_2; [done|]. right. intros file _. simpl. tauto.
Qed.

Lemma clean_pathExists_files (path : string) (fs : gmap string OutFile.t) (p : string) :
  under path p → is_Some (clean_file_at fs p) → @pathExists _ clean_disk path fs = true.
Proof.
  unfold clean_file_at. intros Hp [data Hdata]. simpl. unfold clean_pathExists.
  apply bool_decide_eq_true, Exists_exists. exists p. split; [|done].
  destruct (fs !! p) as [file|] eqn:Hfile; [|done].
  apply list_elem_of_fmap. exists (p, file). split; [done|]. by apply elem_of_map_to_list.
Qed.

(** ** What unpack shows of a database that pack wrote *)

Lemma pack_metadata_rows `{Platform} (env : PackEnv) (options : PackOptions.t)
    (dedup : nat) (db : Store) :
  pack env options = Ok (dedup, db) →
  getMetadata "created_at" db = Some (env_now env)
  ∧ getMetadata "node_version" db = Some (env_version env).
Proof.
  unfold pack, transaction. destruct (env_tree env) as [root|]; [|done].
  destruct (scanNodeModules _ root) as [scan|]; simpl; [|done].
  intros (st & Hloop & _ & <-)%packFiles_Ok.
  apply packFiles_metadata in Hloop. simpl in Hloop.
  unfold getMetadata. rewrite Hloop.
  destruct (PackOptions.includeLockfile options); [destruct (env_lockfile env)|];
    split; reflexivity.
Qed.

(** X26. [unpack] of a snapshot that [pack] produced from a well-formed
    tree shows the time and the node version of the pack run, and as its
    file count and its number of extracted files the scan's
    [totalFiles]. *)
Theorem unpack_reports_pack `{Platform} `{OutputFs F} `{UnpackFs F} (env : PackEnv)
    (options : PackOptions.t) (root : node) (scan : ScanResult.t) (dedup : nat) (db : Store)
    (unpackOptions : UnpackOptions.t) (fs fs' : F) (report : UnpackReport.t) :
  env_tree env = Some root →
  PackOptions.source options ≠ EmptyString →
  wf_node root →
  scanNodeModules (PackOptions.source options) root = Ok scan →
  pack env options = Ok (dedup, db) →
  unpack (Some db) unpackOptions fs = inr (report, fs') →
  UnpackReport.created report = env_now env
  ∧ UnpackReport.nodeVersion report = env_version env
  ∧ UnpackReport.files report = ScanResult.totalFiles scan
  ∧ UnpackReport.extractedFiles report = ScanResult.totalFiles scan.
Proof.
  intros Htree Hsource Hwf Hscan Hpack Hunpack.
  destruct (pack_metadata_rows _ _ _ _ Hpack) as [Hcreated Hversion].
  destruct (pack_tree_rows _ root Hsource Hwf env options scan dedup db Htree eq_refl Hscan Hpack)
    as [Hstore Hrows].
  assert (length (getAllFiles db) = ScanResult.totalFiles scan) as Hlen.
  { rewrite <- (length_fmap shown), Hrows, expected_rows_pairs, length_fmap.
    rewrite <- (length_fmap snd), emitted_pairs_files.
    destruct (scanNodeModules_totals _ _ _ Hscan) as (dirs & _ & Hpk & Hfiles & _).
    by rewrite Hfiles, Hpk. }
  unfold unpack in Hunpack.
  destruct (if pathExists _ fs then _ else _) as [e|fs1]; [done|].
  destruct (getBlobStats (initSchema db)) as [[? ?] ?].
  destruct (extractFiles (initSchema db) _ fs1) as [[result fs2]|] eqn:Hextract; [|done].
  injection Hunpack as <- _. simpl.
  unfold getMetadata in *. simpl.
  rewrite !find_replaced. simpl. rewrite Hcreated, Hversion. simpl.
  split_and!; [done | done | |].
  - unfold getTotalFileCount. simpl. by rewrite <- getAllFiles_length.
  - unfold extractFiles in Hextract.
    destruct (foldlM _ _ _) as [ex|]; simpl in Hextract; [|done].
    injection Hextract as <- _. simpl. by rewrite getAllFiles_initSchema.
Qed.


(** * Examples for the further properties *)

(** A regular file of [demo_snapshot], packed a second time with another
    time stamp. *)
Definition record_again : FileRecord.t :=
  {| FileRecord.packageId := 1; FileRecord.relativePath := "index.js";
     FileRecord.blobHash := @sha256_hex demo_platform (bytes "hello");
     FileRecord.mode := 33188; FileRecord.mtime := 1800000000000 |}.

Lemma pack_demo_snapshot :
  @pack demo_platform (demo_env tree_with_root_file) demo_options = Ok (0, demo_snapshot).
Proof. vm_compute. reflexivity. Defined.

Lemma scan_demo :
  @scanNodeModules demo_platform "/proj/node_modules" tree_with_root_file = Ok demo_scan.
Proof. vm_compute. reflexivity. Defined.

Lemma tree_with_root_file_wf : wf_node tree_with_root_file.
Proof. vm_compute. exact I. Defined.

Lemma insertFile_upsert_witness :
  getTotalFileCount demo_snapshot = 2
  ∧ getTotalFileCount (@insertFile demo_platform record_again demo_snapshot) = 2.
Proof.
  split; [reflexivity|].
  refine (proj1 (@insertFile_upsert demo_platform record_again demo_snapshot _ _ _)).
  - vm_compute. apply list_elem_of_here.
  - vm_compute. reflexivity.
  - apply (bool_decide_unpack _). vm_compute. exact I.
Defined.

(** The same database after one more insert into [files] has ended in
    its conflict clause: [sqlite_sequence] stands at 3, one above the ids
    of the two rows, and a new row gets the id 4. *)
Definition platform_after_conflict : Platform := {|
  sha256_hex := @sha256_hex demo_platform;
  gzipSync := @gzipSync demo_platform;
  gunzipSync := @gunzipSync demo_platform;
  JSON_parse := demo_parse;
  number_text := @number_text demo_platform;
  autoincrement_gap table ids :=
    if decide (table = "files" ∧ ids = [1; 2]) then 1 else 0;
|}.

Definition record_new : FileRecord.t :=
  {| FileRecord.packageId := 1; FileRecord.relativePath := "lib.js";
     FileRecord.blobHash := @sha256_hex demo_platform (bytes "hello");
     FileRecord.mode := 33188; FileRecord.mtime := 1800000000000 |}.

Lemma insertFile_after_conflict :
  files (@insertFile platform_after_conflict record_new demo_snapshot)
  = files demo_snapshot ++ [(4, record_new)].
Proof. vm_compute. reflexivity. Qed.

Lemma getAllFiles_by_package_witness :
  filter (λ row, FileRow.packageId row = 1) (getAllFiles demo_snapshot) =
  match getPackageById 1 demo_snapshot with
  | Some info => (λ f, joined_row f (1, info)) <$> getFilesByPackage 1 demo_snapshot
  | None => []
  end.
Proof.
  apply (getAllFiles_by_package demo_snapshot 1).
  apply (bool_decide_unpack _). vm_compute. exact I.
Defined.

Lemma getPackageById_insertPackage_witness :
  getPackageById 1 store_a = Some package_a.
Proof.
  exact (@getPackageById_insertPackage demo_platform package_a Store_new 1
           (NoDup_nil_2 : NoDup [])).
Defined.

Lemma pack_constraints_witness : constraints_ok demo_snapshot.
Proof.
  exact (@pack_constraints demo_platform (demo_env tree_with_root_file) demo_options
           0 demo_snapshot pack_demo_snapshot).
Defined.

Lemma scan_totals_witness :
  ScanResult.totalFiles demo_scan = 2 ∧ ScanResult.totalSize demo_scan = 35.
Proof.
  destruct (@scan_totals demo_platform "/proj/node_modules" tree_with_root_file demo_scan
              scan_demo) as [Hfiles Hsize].
  split; [exact Hfiles | exact Hsize].
Defined.

(** The listing of the package [a] of [tree_with_root_file]. *)
Definition entries_a : list (string * node) :=
  [("package.json", regular manifest_a); ("index.js", regular "hello")].

Lemma walkDir_paths_witness :
  NoDup (FileEntry.relativePath
           <$> walkDir entries_a "/proj/node_modules/a" "/proj/node_modules/a").
Proof.
  refine (proj1 (walkDir_paths entries_a "/proj/node_modules/a" _ _)).
  - vm_compute. exact I.
  - discriminate.
Defined.

Lemma scan_within_count_witness :
  ∃ count, countFiles "/proj/node_modules" tree_with_root_file = Ok count
           ∧ ScanResult.totalFiles demo_scan ≤ count.
Proof.
  exact (@scan_within_count demo_platform "/proj/node_modules" tree_with_root_file demo_scan
           eq_refl scan_demo).
Defined.

(** The package that the scan of [tree_with_root_file] finds. *)
Definition demo_package : ScannedPackage.t :=
  {| ScannedPackage.name := JString "a"; ScannedPackage.version := JString "1.0.0";
     ScannedPackage.path := "a";
     ScannedPackage.files := walkDir entries_a "/proj/node_modules/a" "/proj/node_modules/a" |}.

Lemma flat_scan_packages_witness :
  ∃ name children,
    (name, Dir children) ∈ [("a", Dir entries_a); (".package-lock.json", regular "{}")]
    ∧ name ≠ ".bin" ∧ name ≠ ".cache" ∧ name ≠ ".pnpm"
    ∧ if startsWith name "@"
      then ∃ scopedName scopedChildren,
             (scopedName, Dir scopedChildren) ∈ children
             ∧ ScannedPackage.path demo_package = join [name; scopedName]
             ∧ is_Some (@parsePackageJson demo_platform
                          (lookup_entry "package.json" scopedChildren))
             ∧ ScannedPackage.files demo_package =
                 walkDir scopedChildren (join [join ["/proj/node_modules"; name]; scopedName])
                   (join [join ["/proj/node_modules"; name]; scopedName])
      else ScannedPackage.path demo_package = name
           ∧ is_Some (@parsePackageJson demo_platform (lookup_entry "package.json" children))
           ∧ ScannedPackage.files demo_package =
               walkDir children (join ["/proj/node_modules"; name])
                 (join ["/proj/node_modules"; name]).
Proof.
  apply (@flat_scan_packages demo_platform "/proj/node_modules" tree_with_root_file
           [("a", Dir entries_a); (".package-lock.json", regular "{}")] demo_scan
           demo_package eq_refl eq_refl scan_demo).
  vm_compute. apply list_elem_of_here.
Defined.

(** The tree of a symlink farm: the package [a] in the store [.pnpm], and
    a link to it beside the store. *)
Definition store_entries : list (string * node) :=
  [("a@1.0.0", Dir [("node_modules", Dir [("a", Dir entries_a)])]);
   ("node_modules", Dir [])].

Definition tree_pnpm : node :=
  Dir [ (".pnpm", Dir store_entries); ("a", Symlink (Some (Dir entries_a))) ].

Definition scan_pnpm : ScanResult.t :=
  match @scanNodeModules demo_platform "/proj/node_modules" tree_pnpm with
  | Ok scan => scan
  | Err _ => {| ScanResult.packages := []; ScanResult.totalFiles := 0; ScanResult.totalSize := 0 |}
  end.

Definition package_pnpm : ScannedPackage.t :=
  {| ScannedPackage.name := JString "a"; ScannedPackage.version := JString "1.0.0";
     ScannedPackage.path := ".pnpm/a@1.0.0/node_modules/a";
     ScannedPackage.files :=
       walkDir entries_a "/proj/node_modules/.pnpm/a@1.0.0/node_modules/a"
         "/proj/node_modules/.pnpm/a@1.0.0/node_modules/a" |}.

Lemma pnpm_scan_packages_witness :
  ∃ entry n inner,
    (entry, n) ∈ store_entries ∧ isDirectory n = true
    ∧ entry ≠ "node_modules" ∧ startsWith entry "." = false
    ∧ inner ≠ ".bin"
    ∧ (ScannedPackage.path package_pnpm = ".pnpm/" +:+ entry +:+ "/node_modules/" +:+ inner
       ∨ ∃ scopedName,
           startsWith inner "@" = true
           ∧ ScannedPackage.path package_pnpm =
               (".pnpm/" +:+ entry +:+ "/node_modules/" +:+ inner) +:+ "/" +:+ scopedName).
Proof.
  apply (@pnpm_scan_packages demo_platform "/proj/node_modules" tree_pnpm (Dir store_entries)
           store_entries scan_pnpm package_pnpm eq_refl eq_refl).
  - vm_compute. reflexivity.
  - vm_compute. apply list_elem_of_here.
Defined.

Lemma pack_metadata_witness :
  getMetadata "schema_version" demo_snapshot = Some "1"
  ∧ getMetadata "created_at" demo_snapshot = Some "2026-01-01T00:00:00.000Z"
  ∧ getMetadata "node_version" demo_snapshot = Some "v22.0.0"
  ∧ getMetadata "source_path" demo_snapshot = Some "/proj/node_modules"
  ∧ getMetadata "lockfile_hash" demo_snapshot = None.
Proof.
  exact (@pack_metadata demo_platform (demo_env tree_with_root_file) demo_options
           0 demo_snapshot pack_demo_snapshot).
Defined.

Lemma pack_copies :
  @pack demo_platform (demo_env tree_with_copies) demo_options = Ok (2, snapshot_with_copies).
Proof. vm_compute. reflexivity. Defined.

Definition scan_with_copies : ScanResult.t :=
  match @scanNodeModules demo_platform "/proj/node_modules" tree_with_copies with
  | Ok scan => scan
  | Err _ => {| ScanResult.packages := []; ScanResult.totalFiles := 0; ScanResult.totalSize := 0 |}
  end.

Lemma scan_copies :
  @scanNodeModules demo_platform "/proj/node_modules" tree_with_copies = Ok scan_with_copies.
Proof. vm_compute. reflexivity. Defined.

Lemma pack_counts_witness :
  (getBlobStats snapshot_with_copies).1.1 = 2
  ∧ ScanResult.totalFiles scan_with_copies = 4
  ∧ (getBlobStats snapshot_with_copies).1.1 + 2 = ScanResult.totalFiles scan_with_copies.
Proof.
  split; [reflexivity|]. split; [reflexivity|].
  exact (@pack_counts demo_platform (demo_env tree_with_copies) demo_options tree_with_copies
           scan_with_copies 2 snapshot_with_copies eq_refl scan_copies pack_copies).
Defined.

Lemma pack_file_count_witness :
  getTotalFileCount demo_snapshot = ScanResult.totalFiles demo_scan
  ∧ length (getAllFiles demo_snapshot) = ScanResult.totalFiles demo_scan.
Proof.
  apply (@pack_file_count demo_platform (demo_env tree_with_root_file) demo_options
           tree_with_root_file demo_scan 0 demo_snapshot eq_refl).
  - discriminate.
  - exact tree_with_root_file_wf.
  - exact scan_demo.
  - exact pack_demo_snapshot.
Defined.

(** A disk that holds a database at [dbPath] and the tree [root] at
    [nodeModulesPath]. *)
Definition disk_with (dbPath nodeModulesPath : string) (root : node) : FsView := {|
  existsSync path :=
    bool_decide (path = dbPath ∨ is_Some (node_at nodeModulesPath root path));
  readFile := readFile (tree_view nodeModulesPath root);
|}.

Lemma disk_with_tree (dbPath nodeModulesPath : string) (root : node) (path : string)
    (content : list byte) (mode mtimeMs : Z) :
  node_at nodeModulesPath root path = Some (File content mode mtimeMs) →
  existsSync (disk_with dbPath nodeModulesPath root) path = true
  ∧ readFile (disk_with dbPath nodeModulesPath root) path = Some content.
Proof.
  intros Hnode. simpl. rewrite Hnode. split; [|done].
  apply bool_decide_eq_true. right. by eexists.
Defined.

Lemma pack_then_status_clean_witness :
  @status demo_platform
    (disk_with "/proj/node_modules.db" "/proj/node_modules" tree_with_root_file)
    demo_snapshot demo_status_options
  = Ok {| StatusResult.onlyInDb := []; StatusResult.onlyInFs := [];
          StatusResult.modified := []; StatusResult.unchanged := 2 |}.
Proof.
  apply (@pack_then_status_clean demo_platform (demo_env tree_with_root_file) demo_options
           tree_with_root_file 0 demo_snapshot
           (disk_with "/proj/node_modules.db" "/proj/node_modules" tree_with_root_file)
           demo_status_options eq_refl).
  - discriminate.
  - exact tree_with_root_file_wf.
  - exact pack_demo_snapshot.
  - reflexivity.
  - vm_compute. reflexivity.
  - vm_compute. reflexivity.
  - intros path content mode mtimeMs. apply disk_with_tree.
Defined.

Lemma tree_with_copies_wf : wf_node tree_with_copies.
Proof. vm_compute. exact I. Defined.

Lemma pack_sizes_witness :
  ScanResult.totalSize scan_with_copies = 68
  ∧ let '(_, totalOriginalSize, totalCompressedSize) := getBlobStats snapshot_with_copies in
    totalOriginalSize ≤ ScanResult.totalSize scan_with_copies
    ∧ (2 = 0 → totalOriginalSize = ScanResult.totalSize scan_with_copies)
    ∧ totalCompressedSize = sum_list (length ∘ BlobInfo.content <$> blobs snapshot_with_copies).
Proof.
  split; [reflexivity|].
  apply (@pack_sizes demo_platform (demo_env tree_with_copies) demo_options tree_with_copies
           scan_with_copies 2 snapshot_with_copies eq_refl).
  - discriminate.
  - exact tree_with_copies_wf.
  - exact scan_copies.
  - exact pack_copies.
Defined.

(** The state in which the loop of the extractor ends on [demo_snapshot]. *)
Definition extracted_state : ExtractState (gmap string OutFile.t) :=
  match foldlM (@extractFile demo_platform _ (clean_dir 18) demo_snapshot "/out")
          (getAllFiles demo_snapshot)
          {| ex_cache := ∅; ex_fs := ∅; ex_processedFiles := 0; ex_totalSize := 0 |} with
  | Ok st => st
  | Err _ => {| ex_cache := ∅; ex_fs := ∅; ex_processedFiles := 0; ex_totalSize := 0 |}
  end.

Lemma extract_cache_bound_witness :
  ex_cache extracted_state !! @sha256_hex demo_platform (bytes "hello") = Some (bytes "hello")
  ∧ @blob_content demo_platform demo_snapshot (@sha256_hex demo_platform (bytes "hello"))
    = Some (bytes "hello").
Proof.
  assert (ex_cache extracted_state !! @sha256_hex demo_platform (bytes "hello")
          = Some (bytes "hello")) as Hcached by (vm_compute; reflexivity).
  split; [exact Hcached|].
  refine (proj1 (@extract_cache_bound demo_platform _ (clean_dir 18) demo_snapshot "/out"
                   (getAllFiles demo_snapshot)
                   {| ex_cache := ∅; ex_fs := ∅; ex_processedFiles := 0; ex_totalSize := 0 |}
                   extracted_state eq_refl _ _ _ Hcached)).
  vm_compute. reflexivity.
Defined.

(** [demo_snapshot] with blobs that are not gzip data. *)
Definition snapshot_corrupt : Store :=
  {| metadata := metadata demo_snapshot; packages := packages demo_snapshot;
     blobs := (λ b, {| BlobInfo.hash := BlobInfo.hash b; BlobInfo.content := bytes "junk";
                       BlobInfo.originalSize := BlobInfo.originalSize b;
                       BlobInfo.compressedSize := 4 |}) <$> blobs demo_snapshot;
     files := files demo_snapshot |}.

Definition row_corrupt : FileRow.t :=
  {| FileRow.id := 1; FileRow.packageId := 1; FileRow.relativePath := "package.json";
     FileRow.blobHash := @sha256_hex demo_platform (bytes manifest_a);
     FileRow.mode := 33188; FileRow.mtime := 1700000000000; FileRow.packagePath := "a" |}.

Lemma extractFiles_corrupt_blob_witness :
  @extractFiles demo_platform _ (clean_dir 18) snapshot_corrupt "/out" ∅ = Err ZlibError.
Proof.
  apply (@extractFiles_corrupt_blob demo_platform _ (clean_dir 18) snapshot_corrupt "/out" ∅
           row_corrupt (bytes "junk")).
  - intros path fs. by eexists.
  - intros path data fs. by eexists.
  - vm_compute. apply list_elem_of_here.
  - vm_compute. reflexivity.
  - reflexivity.
Defined.

Lemma extractFiles_reports_scan_totals_witness :
  ∃ r fs,
    @extractFiles demo_platform _ (clean_dir 18) demo_snapshot "/out" ∅ = Ok (r, fs)
    ∧ ExtractResult.totalFiles r = ScanResult.totalFiles demo_scan
    ∧ ExtractResult.totalSize r = ScanResult.totalSize demo_scan.
Proof.
  exists {| ExtractResult.totalFiles := 2; ExtractResult.totalSize := 35 |},
         (ex_fs extracted_state).
  assert (@extractFiles demo_platform _ (clean_dir 18) demo_snapshot "/out" ∅
          = Ok ({| ExtractResult.totalFiles := 2; ExtractResult.totalSize := 35 |},
                ex_fs extracted_state)) as Hextract by (vm_compute; reflexivity).
  split; [exact Hextract|].
  apply (@extractFiles_reports_scan_totals demo_platform _ (clean_dir 18)
           (demo_env tree_with_root_file) demo_options tree_with_root_file demo_scan 0
           demo_snapshot "/out" ∅ (ex_fs extracted_state) _ eq_refl).
  - discriminate.
  - exact tree_with_root_file_wf.
  - exact scan_demo.
  - intros f g _ _. apply demo_sha256_inj.
  - intros content. apply demo_codec.
  - exact pack_demo_snapshot.
  - exact Hextract.
Defined.

(** A disk that holds a database at [dbPath] and, under [outputPath], the
    files [out]. *)
Definition disk_of (dbPath outputPath : string) (out : gmap string OutFile.t) : FsView := {|
  existsSync path :=
    bool_decide (path = dbPath ∨ path = outputPath ∨ is_Some (out !! path));
  readFile path := OutFile.content <$> out !! path;
|}.

Definition status_out_options : StatusOptions.t :=
  {| StatusOptions.db := "/proj/node_modules.db"; StatusOptions.nodeModules := "/out" |}.

Lemma extract_then_status_clean_witness :
  @status demo_platform
    (disk_of "/proj/node_modules.db" "/out" (ex_fs extracted_state))
    demo_snapshot status_out_options
  = Ok {| StatusResult.onlyInDb := []; StatusResult.onlyInFs := [];
          StatusResult.modified := []; StatusResult.unchanged := 2 |}.
Proof.
  apply (@extract_then_status_clean demo_platform (demo_env tree_with_root_file)
           demo_options tree_with_root_file demo_scan 0 demo_snapshot 18 "/out" ∅
           (ex_fs extracted_state)
           {| ExtractResult.totalFiles := 2; ExtractResult.totalSize := 35 |}
           (disk_of "/proj/node_modules.db" "/out" (ex_fs extracted_state))
           status_out_options eq_refl).
  - discriminate.
  - exact tree_with_root_file_wf.
  - exact scan_demo.
  - intros f g _ _. apply demo_sha256_inj.
  - intros content. apply demo_codec.
  - exact pack_demo_snapshot.
  - vm_compute. reflexivity.
  - reflexivity.
  - vm_compute. reflexivity.
  - vm_compute. reflexivity.
  - intros path file Hfile. simpl. rewrite Hfile. split; [|done].
    apply bool_decide_eq_true. right. right. by eexists.
Defined.

Lemma formatBytes_spec_witness :
  formatBytes 1536 = "1.5 KB"
  ∧ ∃ k : nat,
      k ≤ 3
      ∧ (k = 0 ∨ (1024 ^ Z.of_nat k ≤ 1536)%Z)
      ∧ (k = 3 ∨ (1536 < 1024 ^ Z.of_nat (k + 1))%Z)
      ∧ let tenths := ((20 * 1536 + 1024 ^ Z.of_nat k) / (2 * 1024 ^ Z.of_nat k))%Z in
        formatBytes 1536 =
          (pretty (tenths / 10)%Z +:+ "." +:+ pretty (tenths mod 10)%Z)
          +:+ " " +:+ default "" (units !! k).
Proof.
  split; [vm_compute; reflexivity|].
  apply (formatBytes_spec 1536). lia.
Defined.

Lemma formatBytes_shows_1024_witness : formatBytes 1048575 = "1024.0 KB".
Proof. apply (formatBytes_shows_1024 1048575). lia. Defined.

(** A disk on which the output directory holds a file of an earlier run. *)
Definition stale_disk : gmap string OutFile.t :=
  {[ "/out/old.txt" := {| OutFile.content := bytes "old"; OutFile.perm := 420 |} ]}.

Definition unpack_demo_options : UnpackOptions.t :=
  {| UnpackOptions.input := "/proj/node_modules.db"; UnpackOptions.output := "/out";
     UnpackOptions.cache := None; UnpackOptions.force := true |}.

(** What [unpack] of [demo_snapshot] over [stale_disk] returns. *)
Definition unpack_demo : UnpackReport.t * gmap string OutFile.t :=
  match @unpack demo_platform _ (clean_dir 18) clean_disk (Some demo_snapshot)
          unpack_demo_options stale_disk with
  | inr x => x
  | inl _ => ({| UnpackReport.created := ""; UnpackReport.nodeVersion := "";
                 UnpackReport.files := 0; UnpackReport.originalSize := "";
                 UnpackReport.compressedSize := ""; UnpackReport.extractedFiles := 0;
                 UnpackReport.extractedSize := "" |}, ∅)
  end.

Lemma unpack_demo_eq :
  @unpack demo_platform _ (clean_dir 18) clean_disk (Some demo_snapshot)
    unpack_demo_options stale_disk = inr (unpack_demo.1, unpack_demo.2).
Proof. vm_compute. reflexivity. Defined.

Lemma unpack_leaves_no_stale_file_witness :
  clean_file_at stale_disk "/out/old.txt" = Some (bytes "old")
  ∧ clean_file_at unpack_demo.2 "/out/old.txt" = None
  ∧ clean_file_at unpack_demo.2 "/out/a/index.js" = Some (bytes "hello")
  ∧ ∃ db row,
      Some demo_snapshot = Some db
      ∧ row ∈ getAllFiles db
      ∧ "/out/a/index.js"
        = join [UnpackOptions.output unpack_demo_options; FileRow.packagePath row;
                FileRow.relativePath row].
Proof.
  split_and!; [vm_compute; reflexivity..|].
  apply (@unpack_leaves_no_stale_file demo_platform _ (clean_dir 18) clean_disk clean_file_at
           (clean_mkdir_files 18) (clean_writeFile_files 18) (clean_chmod_files 18)
           clean_rm_files clean_pathExists_files
           (Some demo_snapshot) unpack_demo_options stale_disk unpack_demo.2 unpack_demo.1
           "/out/a/index.js").
  - exact unpack_demo_eq.
  - right. vm_compute. reflexivity.
  - vm_compute. by eexists.
Defined.

Lemma unpack_reports_pack_witness :
  UnpackReport.created unpack_demo.1 = "2026-01-01T00:00:00.000Z"
  ∧ UnpackReport.nodeVersion unpack_demo.1 = "v22.0.0"
  ∧ UnpackReport.files unpack_demo.1 = ScanResult.totalFiles demo_scan
  ∧ UnpackReport.extractedFiles unpack_demo.1 = ScanResult.totalFiles demo_scan.
Proof.
  apply (@unpack_reports_pack demo_platform _ (clean_dir 18) clean_disk
           (demo_env tree_with_root_file) demo_options tree_with_root_file demo_scan 0
           demo_snapshot unpack_demo_options stale_disk unpack_demo.2 unpack_demo.1 eq_refl).
  - discriminate.
  - exact tree_with_root_file_wf.
  - exact scan_demo.
  - exact pack_demo_snapshot.
  - exact unpack_demo_eq.
Defined.
